(** * The WebSocket reverse-tunnel client of pkg/pillar/zedcloud

    A shallow embedding of [wstunnelclient.go]: the connection tester
    ([TestConnection]), the request framing ([fmt.Fscanf] / [fmt.Fprintf] with
    the verb [%04x]), the local relay connector ([processRequest],
    [refreshLocalConnection], [dialLocalConnection]), the response pump
    ([processResponses]) and the session supervisor ([startSession]).

    Conventions.
    - Go's [error] values are the inductive [error]; a [nil] error is [None].
    - A call either returns, panics (nil dereference), ends the process
      ([log.Fatal]) or parks its goroutine on a channel: see [outcome].
    - Everything the program obtains from the outside (the WebSocket dialer,
      the local relay's sockets) is an explicit input: an oracle indexed by the
      number of the call, so every function below is total and computes. *)

From Stdlib Require Import Bool Arith ZArith List Lia.
From Stdlib.Strings Require Import String Ascii Byte.
Import ListNotations.

Set Implicit Arguments.

(* ================================================================== *)
(** ** Go preliminaries *)

Module Go.

(** [error] values the file creates or inspects. *)
Inductive error : Type :=
| Errorf (msg : string)          (* fmt.Errorf *)
| EOF                            (* io.EOF *)
| ErrClosedPipe                  (* io.ErrClosedPipe *)
| ErrUnexpectedEOF               (* io.ErrUnexpectedEOF *)
| ErrBadHandshake                (* websocket.ErrBadHandshake *)
| NetError (msg : string).       (* any other error of package net *)

Inductive panic : Type :=
| NilDereference.                (* invalid memory address or nil pointer dereference *)

(** How a call of a Go function ends. *)
Inductive outcome (A : Type) : Type :=
| Done (a : A)                   (* the function returned *)
| Panicked (p : panic)           (* a run-time panic unwound it *)
| ProcessExit (code : Z)         (* log.Fatal: os.Exit *)
| Blocked.                       (* the goroutine is parked on a channel or a read *)

Arguments Done {A} a.
Arguments Panicked {A} p.
Arguments ProcessExit {A} code.
Arguments Blocked {A}.

Definition bind {A B} (m : outcome A) (k : A -> outcome B) : outcome B :=
  match m with
  | Done a => k a
  | Panicked p => Panicked p
  | ProcessExit c => ProcessExit c
  | Blocked => Blocked
  end.

(** strings.HasPrefix: [s] is at least as long as [pre] and starts with it. *)
Fixpoint HasPrefix (s pre : string) : bool :=
  match pre with
  | EmptyString => true
  | String a pre' =>
      match s with
      | EmptyString => false
      | String b s' => Ascii.eqb a b && HasPrefix s' pre'
      end
  end.

(** strings.HasSuffix *)
Definition HasSuffix (s suf : string) : bool :=
  (String.length suf <=? String.length s)%nat &&
  String.eqb (substring (String.length s - String.length suf) (String.length suf) s) suf.

(** strings.TrimSuffix: [s] without the trailing [suf], or [s] itself. *)
Definition TrimSuffix (s suf : string) : string :=
  if HasSuffix s suf
  then substring 0 (String.length s - String.length suf) s
  else s.

End Go.
Import Go.

Notation "x <- m ;; k" := (Go.bind m (fun x => k))
  (at level 61, m at next level, right associativity).

(* ================================================================== *)
(** ** Data model *)

Definition maxRetryAttempts : Z := 50.

Definition URL := string.
Definition IP := string.
Definition TLSConfig := nat.       (* *tls.Config, opaque here *)
Definition WSConn := nat.          (* *websocket.Conn, identified by a number *)
Definition NetConn := nat.         (* net.Conn to the local relay, identified by a number *)

(** websocket.Dialer, with the fields [TestConnection] fills in.  [NetDial]
    is the closure binding the local source address [localAddr]. *)
Record Dialer : Type := mkDialer {
  ReadBufferSize : Z;
  WriteBufferSize : Z;
  TLSClientConfig : TLSConfig;
  NetDialLocalAddr : IP;
  Proxy : option URL
}.

(** http.Response, as far as the file reads it. *)
Record Response : Type := mkResponse {
  StatusCode : Z;
  Status : string;
  Body : list byte
}.

Definition StatusOK : Z := 200.

(** The three results of [Dialer.Dial]. *)
Record DialResult : Type := mkDialResult {
  dial_ws : option WSConn;
  dial_resp : option Response;
  dial_err : option error
}.

(** WSConnection; the back link [tun] is the client that owns it. *)
Record WSConnection : Type := mkWSConnection {
  ws : WSConn;
  localConnection : option NetConn
}.

(** WSTunnelClient.  A channel of capacity 1 is the number of values it
    buffers (0 or 1).  A channel that was not made yet (nil) counts 0 as
    well: the record describes the client once startSession has made its
    channels, and [Session.StopAt] says what a send does before that. *)
Record WSTunnelClient : Type := mkWSTunnelClient {
  TunnelServerName : string;
  Tunnel : string;
  DestURL : string;
  LocalRelayServer : string;
  Timeout : Z;                      (* nanoseconds *)
  Connected : bool;
  TheDialer : option Dialer;        (* field Dialer *)
  exitChan : nat;
  conn : option WSConnection;
  retryOnFailCount : Z;
  requestSentChan : nat
}.

Definition second : Z := 1000000000.

(** InitializeTunnelClient *)
Definition InitializeTunnelClient (serverName localRelay : string) : WSTunnelClient :=
  {| TunnelServerName := serverName;
     Tunnel := "wss://" ++ serverName;
     DestURL := "";
     LocalRelayServer := localRelay;
     Timeout := 30 * second;
     Connected := false;
     TheDialer := None;
     exitChan := 0;
     conn := None;
     retryOnFailCount := 0;
     requestSentChan := 0 |}.

Definition set_Tunnel (t : WSTunnelClient) (v : string) : WSTunnelClient :=
  {| TunnelServerName := TunnelServerName t; Tunnel := v; DestURL := DestURL t;
     LocalRelayServer := LocalRelayServer t; Timeout := Timeout t;
     Connected := Connected t; TheDialer := TheDialer t; exitChan := exitChan t;
     conn := conn t; retryOnFailCount := retryOnFailCount t;
     requestSentChan := requestSentChan t |}.

Definition set_LocalRelayServer (t : WSTunnelClient) (v : string) : WSTunnelClient :=
  {| TunnelServerName := TunnelServerName t; Tunnel := Tunnel t; DestURL := DestURL t;
     LocalRelayServer := v; Timeout := Timeout t;
     Connected := Connected t; TheDialer := TheDialer t; exitChan := exitChan t;
     conn := conn t; retryOnFailCount := retryOnFailCount t;
     requestSentChan := requestSentChan t |}.

Definition set_DestURL (t : WSTunnelClient) (v : string) : WSTunnelClient :=
  {| TunnelServerName := TunnelServerName t; Tunnel := Tunnel t; DestURL := v;
     LocalRelayServer := LocalRelayServer t; Timeout := Timeout t;
     Connected := Connected t; TheDialer := TheDialer t; exitChan := exitChan t;
     conn := conn t; retryOnFailCount := retryOnFailCount t;
     requestSentChan := requestSentChan t |}.

Definition set_Dialer (t : WSTunnelClient) (v : option Dialer) : WSTunnelClient :=
  {| TunnelServerName := TunnelServerName t; Tunnel := Tunnel t; DestURL := DestURL t;
     LocalRelayServer := LocalRelayServer t; Timeout := Timeout t;
     Connected := Connected t; TheDialer := v; exitChan := exitChan t;
     conn := conn t; retryOnFailCount := retryOnFailCount t;
     requestSentChan := requestSentChan t |}.

Definition set_Connected (t : WSTunnelClient) (v : bool) : WSTunnelClient :=
  {| TunnelServerName := TunnelServerName t; Tunnel := Tunnel t; DestURL := DestURL t;
     LocalRelayServer := LocalRelayServer t; Timeout := Timeout t;
     Connected := v; TheDialer := TheDialer t; exitChan := exitChan t;
     conn := conn t; retryOnFailCount := retryOnFailCount t;
     requestSentChan := requestSentChan t |}.

Definition set_exitChan (t : WSTunnelClient) (v : nat) : WSTunnelClient :=
  {| TunnelServerName := TunnelServerName t; Tunnel := Tunnel t; DestURL := DestURL t;
     LocalRelayServer := LocalRelayServer t; Timeout := Timeout t;
     Connected := Connected t; TheDialer := TheDialer t; exitChan := v;
     conn := conn t; retryOnFailCount := retryOnFailCount t;
     requestSentChan := requestSentChan t |}.

Definition set_conn (t : WSTunnelClient) (v : option WSConnection) : WSTunnelClient :=
  {| TunnelServerName := TunnelServerName t; Tunnel := Tunnel t; DestURL := DestURL t;
     LocalRelayServer := LocalRelayServer t; Timeout := Timeout t;
     Connected := Connected t; TheDialer := TheDialer t; exitChan := exitChan t;
     conn := v; retryOnFailCount := retryOnFailCount t;
     requestSentChan := requestSentChan t |}.

Definition set_retryOnFailCount (t : WSTunnelClient) (v : Z) : WSTunnelClient :=
  {| TunnelServerName := TunnelServerName t; Tunnel := Tunnel t; DestURL := DestURL t;
     LocalRelayServer := LocalRelayServer t; Timeout := Timeout t;
     Connected := Connected t; TheDialer := TheDialer t; exitChan := exitChan t;
     conn := conn t; retryOnFailCount := v;
     requestSentChan := requestSentChan t |}.

Definition set_requestSentChan (t : WSTunnelClient) (v : nat) : WSTunnelClient :=
  {| TunnelServerName := TunnelServerName t; Tunnel := Tunnel t; DestURL := DestURL t;
     LocalRelayServer := LocalRelayServer t; Timeout := Timeout t;
     Connected := Connected t; TheDialer := TheDialer t; exitChan := exitChan t;
     conn := conn t; retryOnFailCount := retryOnFailCount t;
     requestSentChan := v |}.

(* ================================================================== *)
(** ** TestConnection *)

Module Bootstrap.

Section WithEnvironment.

(** [GetTlsConfig] lives in another file of the package; [TestConnection]
    only tests its error.  [Dial] is the behaviour of the remote end
    behind [websocket.Dialer.Dial]. *)
Variable GetTlsConfig : string -> TLSConfig * option error.
Variable Dial : Dialer -> string -> DialResult.

Definition pingURL (t : WSTunnelClient) : string :=
  Tunnel t ++ "/api/v1/edgedevice/connection/ping".

Definition tunnelEndpoint (t : WSTunnelClient) : string :=
  Tunnel t ++ "/api/v1/edgedevice/connection/tunnel".

(** The guard of line 93, as written. *)
Definition relaySchemeGuard (relay : string) : bool :=
  HasPrefix relay "http://" && HasPrefix relay "https://".

(** TestConnection.  The receiver is a pointer: the client returned with
    the error carries the assignments made before the return. *)
Definition TestConnection (t : WSTunnelClient) (proxyURL : option URL) (localAddr : IP)
  : outcome (WSTunnelClient * option error) :=
  if String.eqb (Tunnel t) "" then
    Done (t, Some (Errorf "Must specify tunnel server ws://hostname:port"))
  else if negb (HasPrefix (Tunnel t) "ws://") && negb (HasPrefix (Tunnel t) "wss://") then
    Done (t, Some (Errorf "Remote tunnel must begin with ws:// or wss://"))
  else
    let t := set_Tunnel t (TrimSuffix (Tunnel t) "/") in
    if String.eqb (LocalRelayServer t) "" then
      Done (t, Some (Errorf "Must specify local relay server hostOrIP:port"))
    else if relaySchemeGuard (LocalRelayServer t) then
      Done (t, Some (Errorf "Local server relay must not begin with http:// or https://"))
    else
      let t := set_LocalRelayServer t (TrimSuffix (LocalRelayServer t) "/") in
      match GetTlsConfig (TunnelServerName t) with
      | (_, Some _) => ProcessExit 1                      (* log.Fatal(err) *)
      | (tlsConfig, None) =>
          let dialer := {| ReadBufferSize := 100 * 1024;
                           WriteBufferSize := 100 * 1024;
                           TLSClientConfig := tlsConfig;
                           NetDialLocalAddr := localAddr;
                           Proxy := proxyURL |} in
          let r := Dial dialer (pingURL t) in
          match dial_resp r with
          | None => Panicked NilDereference               (* resp.StatusCode *)
          | Some resp =>
              if (StatusCode resp =? StatusOK)%Z then
                let url := tunnelEndpoint t in
                let t := set_DestURL t url in
                let t := set_Dialer t (Some dialer) in
                Done (t, None)
              else Done (t, dial_err r)
          end
      end.

End WithEnvironment.

End Bootstrap.

(* ================================================================== *)
(** ** Request framing: four hexadecimal characters, then the payload *)

Module Framing.

Definition code (b : byte) : Z := Z.of_N (Byte.to_N b).

(** const ldigits = "0123456789abcdefx" of package fmt. *)
Definition ldigits : list byte :=
  ["0"; "1"; "2"; "3"; "4"; "5"; "6"; "7"; "8"; "9"; "a"; "b"; "c"; "d"; "e"; "f"]%byte.

Definition digitChar (d : Z) : byte := nth (Z.to_nat d) ldigits "0"%byte.

(** The base-16 loop of fmt.fmtInteger: [for u >= 16 { buf[i] = digits[u&0xF];
    u >>= 4 }; buf[i] = digits[u]].  A uint64 has at most 16 digits, which
    bounds the loop. *)
Fixpoint hexLoop (steps : nat) (u : Z) (buf : list byte) : list byte :=
  match steps with
  | O => digitChar (Z.land u 15) :: buf
  | S k =>
      if (16 <=? u)%Z
      then hexLoop k (Z.shiftr u 4) (digitChar (Z.land u 15) :: buf)
      else digitChar u :: buf
  end.

Definition hexDigits (u : Z) : list byte := hexLoop 15 u [].

(** fmt.Fprintf(w, "%04x", id) for an int64 [id]: the zero flag turns the
    width into a precision, one less when a sign is written. *)
Definition Sprintf04x (id : Z) : list byte :=
  let negative := (id <? 0)%Z in
  let ds := hexDigits (Z.abs id) in
  let prec := if negative then 3%nat else 4%nat in
  let padded := repeat "0"%byte (prec - List.length ds) ++ ds in
  if negative then "-"%byte :: padded else padded.

(** The frame [writeResponseMessage] hands to the WebSocket writer: the id
    written by Fprintf, then the response copied by io.Copy. *)
Definition encode (id : Z) (resp : list byte) : list byte := Sprintf04x id ++ resp.

(** *** Scanning the id: fmt.Fscanf(io.LimitReader(reader, 4), "%04x", &id)

    The scanner of package fmt, as of Go 1.12, on a reader that delivers at
    most four bytes (later releases take '_' into the token as well, and
    strconv.ParseInt then rejects it).  Runes are read one byte at a
    time; a rune that is looked at and put back stays consumed from the
    underlying reader.  The header is ASCII in every frame the protocol
    produces; a header byte of 128 or more starts a multi-byte rune, whose
    decoding (package unicode/utf8) is a parameter of [decode]. *)

(** Why the scan of the id failed; Fscanf returns a non-nil error for each. *)
Inductive scanFailure : Type :=
| UnexpectedNewline              (* a newline before the number *)
| OutOfInput                     (* the input ended before a digit *)
| ExpectedInteger                (* the first rune of the number is no digit *)
| IntegerOverflow.               (* the value does not fit the int16 *)

Definition isSpace (b : byte) : bool :=
  let c := code b in
  ((9 <=? c) && (c <=? 13) || (c =? 32))%Z.

Definition isSign (b : byte) : bool :=
  let c := code b in ((c =? 43) || (c =? 45))%Z.

(** The value of a character of hexadecimalDigits = "0123456789aAbBcCdDeEfF". *)
Definition hexValue (b : byte) : option Z :=
  let c := code b in
  if ((48 <=? c) && (c <=? 57))%Z then Some (c - 48)%Z
  else if ((97 <=? c) && (c <=? 102))%Z then Some (c - 97 + 10)%Z
  else if ((65 <=? c) && (c <=? 70))%Z then Some (c - 65 + 10)%Z
  else None.

(** ss.SkipSpace with nlIsSpace = false: a newline is an error, other
    space is dropped; the first other rune is put back. *)
Fixpoint SkipSpace (input : list byte) : scanFailure + list byte :=
  match input with
  | [] => inr []
  | b :: rest =>
      if (code b =? 10)%Z then inl UnexpectedNewline
      else if isSpace b then SkipSpace rest
      else inr input
  end.

(** [for s.accept(digits) {}]: the digits of the token, most significant
    first, accumulated into the value strconv.ParseInt computes. *)
Fixpoint acceptDigits (input : list byte) (acc : Z) : Z * list byte :=
  match input with
  | [] => (acc, [])
  | b :: rest =>
      match hexValue b with
      | Some d => acceptDigits rest (acc * 16 + d)
      | None => (acc, input)
      end
  end.

(** Truncation of an int64 to [n] bits with sign extension:
    [(i << (64 - n)) >> (64 - n)]. *)
Definition signExtend (n : Z) (i : Z) : Z :=
  let m := Z.land i (2 ^ n - 1) in
  if (m <? 2 ^ (n - 1))%Z then m else (m - 2 ^ n)%Z.

(** ss.scanInt(verb 'x', bitSize 16) after doScanf skipped the space:
    an optional sign, at least one digit, and the overflow test. *)
Definition scanInt16 (input : list byte) : scanFailure + (Z * list byte) :=
  match SkipSpace input with
  | inl e => inl e
  | inr [] => inl OutOfInput                               (* s.notEOF() *)
  | inr ((b :: rest) as afterSpace) =>
      let '(negative, afterSign) :=
        if isSign b then ((code b =? 45)%Z, rest) else (false, afterSpace) in
      match afterSign with
      | [] => inl OutOfInput                               (* scanNumber: s.notEOF() *)
      | d :: _ =>
          match hexValue d with
          | None => inl ExpectedInteger
          | Some _ =>
              let '(magnitude, remaining) := acceptDigits afterSign 0 in
              let i := if negative then (- magnitude)%Z else magnitude in
              if (signExtend 16 i =? i)%Z
              then inr (i, remaining)
              else inl IntegerOverflow
          end
      end
  end.

Inductive decoded : Type :=
| Parsed (id : Z) (request : list byte)   (* id scanned, rest read by ioutil.ReadAll *)
| BadId (why : scanFailure).               (* Fscanf returned an error *)

Definition isASCII (b : byte) : bool := (code b <? 128)%Z.

Section Decode.

(** What the scan makes of a message whose first four bytes are not all
    ASCII. *)
Variable scanNonASCII : list byte -> decoded.

(** Lines 224-234 of handleRequests on the bytes of one message: scan the
    id from the first four bytes, then read what the scanner left. *)
Definition decode (message : list byte) : decoded :=
  let header := firstn 4 message in
  if forallb isASCII header then
    match scanInt16 header with
    | inl why => BadId why
    | inr (id, remaining) =>
        let consumed :=
          match remaining with
          | [] => List.length header
          | _ :: _ => (List.length header - List.length remaining + 1)%nat
          end in
        Parsed id (skipn consumed message)
    end
  else scanNonASCII message.

End Decode.

(** The id [id] survives printing with [%04x] and scanning into an int16:
    it is printed on four ASCII characters, which the scan reads to the last. *)
Definition roundtrips (id : Z) : bool :=
  let header := Sprintf04x id in
  (List.length header =? 4)%nat &&
  forallb isASCII header &&
  match scanInt16 header with
  | inr (i, []) => (i =? id)%Z
  | _ => false
  end.

(** The scan of [id]'s four characters overflows the int16. *)
Definition overflows (id : Z) : bool :=
  let header := Sprintf04x id in
  (List.length header =? 4)%nat &&
  forallb isASCII header &&
  match scanInt16 header with
  | inl IntegerOverflow => true
  | _ => false
  end.

(** The ids from [lo] on, [n] of them. *)
Fixpoint idsFrom (lo : Z) (n : nat) : list Z :=
  match n with
  | O => []
  | S k => lo :: idsFrom (lo + 1) k
  end.

(** The WebSocket writer, for one response: the errors of NextWriter, of
    Fprintf, of io.Copy and of Close. *)
Record WriterEnv : Type := mkWriterEnv {
  nextWriterErr : option error;
  writeIdErr : option error;
  copyErr : option error;
  closeErr : option error
}.

Inductive wsEffect : Type :=
| Sent (frame : list byte)      (* the message went out complete *)
| WsClosed.                     (* wsc.ws.Close() after an error *)

(** writeResponseMessage *)
Definition writeResponseMessage (id : Z) (resp : list byte) (e : WriterEnv) : wsEffect :=
  match nextWriterErr e with
  | Some _ => WsClosed
  | None =>
      match writeIdErr e with
      | Some _ => WsClosed
      | None =>
          match copyErr e with
          | Some _ => WsClosed
          | None =>
              match closeErr e with
              | Some _ => WsClosed
              | None => Sent (encode id resp)
              end
          end
      end
  end.

End Framing.

Import Framing.

(* ================================================================== *)
(** ** The local relay connector *)

Module Relay.

(** What a goroutine of one WSConnection did to the outside, most recent
    first.  The connection returned by the n-th call of net.Dial is
    numbered n. *)
Inductive Event : Type :=
| EvNetDial (host : string) (err : option error)           (* net.Dial("tcp", host) *)
| EvProbe (c : NetConn) (err : option error)               (* c.Read(one), len(one) = 0 *)
| EvWrite (c : NetConn) (req : list byte) (err : option error)
| EvReadAll (c : NetConn) (data : list byte)               (* ioutil.ReadAll(c) *)
| EvRequestSent                                            (* requestSentChan <- struct{}{} *)
| EvResponse (id : Z) (effect : wsEffect).                 (* writeResponseMessage *)

Definition World := list Event.

Definition isNetDial (e : Event) : bool := match e with EvNetDial _ _ => true | _ => false end.
Definition isProbe (e : Event) : bool := match e with EvProbe _ _ => true | _ => false end.
Definition isWrite (e : Event) : bool := match e with EvWrite _ _ _ => true | _ => false end.
Definition isReadAll (e : Event) : bool := match e with EvReadAll _ _ => true | _ => false end.
Definition isResponse (e : Event) : bool := match e with EvResponse _ _ => true | _ => false end.
Definition isRequestSent (e : Event) : bool := match e with EvRequestSent => true | _ => false end.

Definition calls (kind : Event -> bool) (w : World) : nat := List.length (filter kind w).

(** The outside of the connector: the result of the n-th call of each
    kind, and which connections the relay has closed.  [closedByRelay] is
    not visible to the program, which learns of a closed connection only
    through the errors of Read and Write. *)
Record Env : Type := mkEnv {
  netDial : nat -> option error;
  probeRead : nat -> option error;
  connWrite : nat -> option error;
  connReadAll : nat -> list byte;
  wsWriter : nat -> WriterEnv;
  closedByRelay : NetConn -> bool
}.

(** The receiver [wsc], the client [wsc.tun] and the outside. *)
Record State : Type := mkState {
  tun : WSTunnelClient;
  wsc : WSConnection;
  world : World
}.

Definition record (e : Event) (s : State) : State :=
  {| tun := tun s; wsc := wsc s; world := e :: world s |}.

Definition set_localConnection (s : State) (c : option NetConn) : State :=
  {| tun := tun s;
     wsc := {| ws := ws (wsc s); localConnection := c |};
     world := world s |}.

Definition set_tun (s : State) (t : WSTunnelClient) : State :=
  {| tun := t; wsc := wsc s; world := world s |}.

Section WithEnv.

Variable E : Env.

(** dialLocalConnection.  With an empty host the bare [return] yields the
    named result [err], which is nil. *)
Definition dialLocalConnection (s : State) : option error * State :=
  let host := LocalRelayServer (tun s) in
  if String.eqb host "" then (None, s)
  else
    let n := calls isNetDial (world s) in
    match netDial E n with
    | Some err => (Some err, record (EvNetDial host (Some err)) s)
    | None => (None, set_localConnection (record (EvNetDial host None) s) (Some n))
    end.

(** The three errors of the probe that lead to a new dial. *)
Definition lostConnection (err : error) : bool :=
  match err with
  | EOF | ErrClosedPipe | ErrUnexpectedEOF => true
  | _ => false
  end.

(** refreshLocalConnection *)
Definition refreshLocalConnection (host : string) (forceCreate : bool) (s : State)
  : option error * State :=
  match localConnection (wsc s), forceCreate with
  | Some c, false =>
      let err := probeRead E (calls isProbe (world s)) in
      let s := record (EvProbe c err) s in
      match err with
      | Some e => if lostConnection e then dialLocalConnection s else (None, s)
      | None => (None, s)
      end
  | _, _ => dialLocalConnection s
  end.

(** The loop [for tries := 1; tries <= 3; tries++] of processRequest, with
    [left] iterations to go.  [inl err] is the [return err] inside the
    loop; [inr s] is the state when the loop is left, by [break] or by
    its condition. *)
Fixpoint writeLoop (left : nat) (host : string) (req : list byte) (s : State)
  : outcome (error * State + State) :=
  match left with
  | O => Done (inr s)
  | S left' =>
      match localConnection (wsc s) with
      | None => Panicked NilDereference                  (* wsc.localConnection.Write *)
      | Some c =>
          let err := connWrite E (calls isWrite (world s)) in
          let s := record (EvWrite c req err) s in
          match err with
          | None => Done (inr s)                         (* break *)
          | Some _ =>
              match refreshLocalConnection host true s with
              | (Some e, s) => Done (inl (e, s))
              | (None, s) => writeLoop left' host req s
              end
          end
      end
  end.

(** A send on a channel of capacity 1 holding [buffered] values. *)
Definition chanSend (buffered : nat) : outcome nat :=
  if (buffered <? 1)%nat then Done (S buffered) else Blocked.

(** processRequest *)
Definition processRequest (id : Z) (req : list byte) (s : State)
  : outcome (option error * State) :=
  let host := LocalRelayServer (tun s) in
  match refreshLocalConnection host false s with
  | (Some err, s) => Done (Some err, s)
  | (None, s) =>
      r <- writeLoop 3 host req s ;;
      match r with
      | inl (err, s) => Done (Some err, s)
      | inr s =>
          n <- chanSend (requestSentChan (tun s)) ;;
          Done (None, record EvRequestSent (set_tun s (set_requestSentChan (tun s) n)))
      end
  end.

End WithEnv.

End Relay.

(* ================================================================== *)
(** ** Control flow of [for] and [select] *)

Module Flow.

(** How a list of statements ends: it runs to its end, or a [break]
    statement leaves it. *)
Inductive ctl : Type := Next | Break.

(** A [break] terminates the innermost [for], [switch] or [select]
    statement: inside a case of a select it ends the select, and the
    statements after the select run. *)
Definition endSelect (c : ctl) : ctl :=
  match c with
  | Break => Next
  | Next => Next
  end.

(** Where a model of a [for] loop stopped: the loop was left, or the
    inputs given to the model ran out while it was still iterating. *)
Inductive loopEnd : Type := LoopLeft | StillLooping.

(** A value arrives on a channel of capacity 1 from another goroutine, whose
    send blocks while the buffer is full. *)
Definition arrive (arrives : bool) (buffered : nat) : nat :=
  if arrives then (if (buffered <? 1)%nat then S buffered else buffered) else buffered.

End Flow.
Import Flow.

(* ================================================================== *)
(** ** The response pump *)

Module ResponsePump.

Import Relay.

(** What other goroutines put into the two channels before one iteration
    of the loop: processRequest into requestSentChan, Stop into exitChan. *)
Record Arrivals : Type := mkArrivals {
  requestSentArrives : bool;
  exitArrives : bool
}.

(** int64 arithmetic wraps. *)
Definition wrap64 (i : Z) : Z := signExtend 64 i.

Section WithEnv.

Variable E : Env.

(** The case [<-wsc.tun.requestSentChan] of the first select. *)
Definition requestSentCase (host : string) (id : Z) (s : State)
  : outcome (ctl * (Z * State)) :=
  match refreshLocalConnection E host false s with
  | (Some _, s) => Done (Break, (id, s))
  | (None, s) =>
      match localConnection (wsc s) with
      | None => Panicked NilDereference                  (* SetReadDeadline *)
      | Some c =>
          let responseBuffer := connReadAll E (calls isReadAll (world s)) in
          let s := record (EvReadAll c responseBuffer) s in
          if (0 <? List.length responseBuffer)%nat then
            let effect :=
              writeResponseMessage id responseBuffer (wsWriter E (calls isResponse (world s))) in
            Done (Next, (wrap64 (id + 1), record (EvResponse id effect) s))
          else Done (Next, (id, s))
      end
  end.

(** The first select: a value of requestSentChan is taken and its case
    runs, or the select falls to its default. *)
Definition requestSentSelect (host : string) (id : Z) (s : State)
  : outcome (ctl * (Z * State)) :=
  if (0 <? requestSentChan (tun s))%nat
  then
    let s := set_tun s (set_requestSentChan (tun s) (requestSentChan (tun s) - 1)) in
    r <- requestSentCase host id s ;;
    Done (endSelect (fst r), snd r)
  else Done (Next, (id, s)).                               (* default: *)

(** The second select, "check whether we need to exit". *)
Definition exitSelect (s : State) : ctl * State :=
  if (0 <? exitChan (tun s))%nat
  then (endSelect Break, set_tun s (set_exitChan (tun s) (exitChan (tun s) - 1)))
  else (Next, s).                                          (* default: *)

(** One iteration of the loop of processResponses, after the arrivals [a]. *)
Definition pumpBody (host : string) (a : Arrivals) (id : Z) (s : State)
  : outcome (ctl * (Z * State)) :=
  let t := tun s in
  let t := set_requestSentChan t (arrive (requestSentArrives a) (requestSentChan t)) in
  let t := set_exitChan t (arrive (exitArrives a) (exitChan t)) in
  let s := set_tun s t in
  r <- requestSentSelect host id s ;;
  match fst r with
  | Break => Done (Break, snd r)
  | Next =>
      let c := exitSelect (snd (snd r)) in
      Done (fst c, (fst (snd r), snd c))
  end.

Fixpoint pumpLoop (host : string) (schedule : list Arrivals) (id : Z) (s : State)
  : outcome (loopEnd * (Z * State)) :=
  match schedule with
  | [] => Done (StillLooping, (id, s))
  | a :: rest =>
      r <- pumpBody host a id s ;;
      match fst r with
      | Break => Done (LoopLeft, snd r)
      | Next => pumpLoop host rest (fst (snd r)) (snd (snd r))
      end
  end.

(** processResponses, for as many iterations as [schedule] is long. *)
Definition processResponses (schedule : list Arrivals) (s : State)
  : outcome (loopEnd * (Z * State)) :=
  let host := LocalRelayServer (tun s) in
  pumpLoop host schedule 0 s.

End WithEnv.

End ResponsePump.

(* ================================================================== *)
(** ** The session supervisor *)

Module Session.

(** What the request pump did while it ran: handleRequests changes the
    cached local connection of its WSConnection and the content of
    requestSentChan, and nothing else of the client. *)
Record PumpEffect : Type := mkPumpEffect {
  pumpLocalConnection : option NetConn;
  pumpRequestSentChan : nat
}.

(** The outside of one iteration of the dial loop: the result of
    Dialer.Dial, how the call of handleRequests ended (only after a
    successful dial), and whether Stop was called before the exit check. *)
Record Iteration : Type := mkIteration {
  dialResult : DialResult;
  pumpResult : outcome PumpEffect;
  stop : bool
}.

Inductive Event : Type :=
| EvDial (url : string) (succeeded : bool)                 (* t.Dialer.Dial(t.DestURL, nil) *)
| EvSetReadLimit (c : WSConn) (limit : Z)
| EvHandleRequests (client : WSTunnelClient)               (* the client when the pump starts *)
| EvExitReceived.                                          (* case <-t.exitChan *)

(** The client and what the loop did, most recent first. *)
Record State : Type := mkState {
  client : WSTunnelClient;
  history : list Event
}.

Definition record (e : Event) (s : State) : State :=
  {| client := client s; history := e :: history s |}.

Definition update (f : WSTunnelClient -> WSTunnelClient) (s : State) : State :=
  {| client := f (client s); history := history s |}.

Inductive sessionEnd : Type :=
| Ended (how : loopEnd)
| Crashed (p : panic)                                      (* a panic in the goroutine *)
| PumpNeverReturned.

(** The send of line 201.  The record counts the values a channel holds and
    has 0 for an empty channel; it does not tell whether the channel was
    made.  [started] says whether startSession has run, that is whether
    exitChan was made at line 141: before that it is nil, and a send on a
    nil channel parks for ever. *)
Definition StopAt (started : bool) (t : WSTunnelClient) : outcome WSTunnelClient :=
  if started
  then n <- Relay.chanSend (exitChan t) ;; Done (set_exitChan t n)
  else Blocked.

(** Stop on a client whose channels startSession has made. *)
Definition Stop (t : WSTunnelClient) : outcome WSTunnelClient := StopAt true t.

(** The exit check of lines 184-188. *)
Definition exitCheck (s : State) : ctl * State :=
  if (0 <? exitChan (client s))%nat
  then
    let s := update (fun t => set_exitChan t (exitChan t - 1)) s in
    (endSelect Break, record EvExitReceived s)
  else (Next, s).                                          (* default: *)

(** The body of the loop after the test of line 150.  The dial is made
    whether or not the client has a dialer: Dial on a nil *websocket.Dialer
    is served by the default dialer of the package.  When the session does
    not come back (the pump panics or never returns) the result carries
    the state reached at that point.  Dial returns a connection whenever it
    returns no error; for an input without either, the model stops at
    SetReadLimit with the dial on record (the WSConnection of line 174
    would hold a nil WebSocket, which the record cannot express). *)
Definition dialAndServe (it : Iteration) (s : State) : sessionEnd * State + ctl * State :=
  let t := client s in
  let r := dialResult it in
  let served : sessionEnd * State + State :=
    match dial_err r with
    | Some _ =>
        let s := record (EvDial (DestURL t) false) s in
        inr (update (fun t => set_retryOnFailCount t (retryOnFailCount t + 1)) s)
    | None =>
        let s := record (EvDial (DestURL t) true) s in
        match dial_ws r with
        | None => inl (Crashed NilDereference, s)          (* ws.SetReadLimit *)
        | Some c =>
            let s := update (fun t => set_conn t (Some {| ws := c; localConnection := None |})) s in
            let s := record (EvSetReadLimit c (100 * 1024 * 1024)) s in
            let s := update (fun t => set_Connected t true) s in
            let s := update (fun t => set_retryOnFailCount t 0) s in
            let s := record (EvHandleRequests (client s)) s in
            match pumpResult it with
            | Done eff =>
                let s := update (fun t =>
                           set_requestSentChan
                             (set_conn t (Some {| ws := c;
                                                  localConnection := pumpLocalConnection eff |}))
                             (pumpRequestSentChan eff)) s in
                inr (update (fun t => set_Connected t false) s)
            | Panicked p => inl (Crashed p, s)
            | ProcessExit _ => inl (PumpNeverReturned, s)
            | Blocked => inl (PumpNeverReturned, s)
            end
        end
    end in
  match served with
  | inl e => inl e
  | inr s =>
      let s := update (fun t => set_exitChan t (arrive (stop it) (exitChan t))) s in
      inr (exitCheck s)
  end.

(** The loop of startSession: one element of [its] per iteration. *)
Fixpoint sessionLoop (its : list Iteration) (s : State) : sessionEnd * State :=
  if (retryOnFailCount (client s) =? maxRetryAttempts)%Z then (Ended LoopLeft, s)
  else
    match its with
    | [] => (Ended StillLooping, s)
    | it :: rest =>
        match dialAndServe it s with
        | inl e => e
        | inr (Break, s) => (Ended LoopLeft, s)
        | inr (Next, s) => sessionLoop rest s                (* <-timer.C *)
        end
    end.

(** startSession: the channels are made, the count is cleared and the
    loop starts. *)
Definition startSession (t : WSTunnelClient) (its : list Iteration) : sessionEnd * State :=
  let t := set_exitChan t 0 in
  let t := set_requestSentChan t 0 in
  let t := set_retryOnFailCount t 0 in
  sessionLoop its {| client := t; history := [] |}.

(** *** What a history records *)

(** The results of the dials in a history, most recent first. *)
Fixpoint dials (h : list Event) : list bool :=
  match h with
  | [] => []
  | EvDial _ ok :: h => ok :: dials h
  | _ :: h => dials h
  end.

(** The number of failed dials since the last success. *)
Fixpoint recentFailures (ds : list bool) : Z :=
  match ds with
  | false :: ds => 1 + recentFailures ds
  | _ => 0
  end.

(** The clients with which handleRequests was started, most recent first. *)
Fixpoint pumpStarts (h : list Event) : list WSTunnelClient :=
  match h with
  | [] => []
  | EvHandleRequests t :: h => t :: pumpStarts h
  | _ :: h => pumpStarts h
  end.

(** The read limits that were set, most recent first. *)
Fixpoint readLimits (h : list Event) : list (WSConn * Z) :=
  match h with
  | [] => []
  | EvSetReadLimit c limit :: h => (c, limit) :: readLimits h
  | _ :: h => readLimits h
  end.

(** What C8 asks of the client when handleRequests starts. *)
Definition served (t : WSTunnelClient) : Prop :=
  retryOnFailCount t = 0%Z /\ Connected t = true /\ exists w, conn t = Some w.

(** Every start of the pump in a history comes directly after the read
    limit of 100 MiB was set on the WebSocket of the connection that is
    installed, which comes directly after a successful dial. *)
Fixpoint startsFollowDials (h : list Event) : Prop :=
  match h with
  | [] => True
  | EvHandleRequests t :: h' =>
      match h' with
      | EvSetReadLimit c limit :: EvDial _ true :: _ =>
          limit = (100 * 1024 * 1024)%Z /\
          conn t = Some {| ws := c; localConnection := None |}
      | _ => False
      end /\ startsFollowDials h'
  | _ :: h' => startsFollowDials h'
  end.

(** *** What the inputs say *)

Definition dialSucceeded (it : Iteration) : bool :=
  match dial_err (dialResult it) with
  | None => true
  | Some _ => false
  end.

(** The results of the dials of [its], most recent first. *)
Definition outcomes (its : list Iteration) : list bool := rev (map dialSucceeded its).

(** The WebSockets that the successful dials of [its] return, in the order
    of the dials. *)
Definition websockets (its : list Iteration) : list WSConn :=
  flat_map (fun it =>
              match dial_err (dialResult it), dial_ws (dialResult it) with
              | None, Some c => [c]
              | _, _ => []
              end) its.

(** The session of the iteration comes back: a dial without error returns
    a WebSocket, as Dial does, and handleRequests returns. *)
Definition completes (it : Iteration) : Prop :=
  dial_err (dialResult it) = None ->
  (exists c, dial_ws (dialResult it) = Some c) /\ (exists eff, pumpResult it = Done eff).

(** Before each of the dials 1 to [n] of [its], fewer than 50 dials in a
    row had failed. *)
Definition belowCeilingBefore (n : nat) (its : list Iteration) : Prop :=
  forall k : nat, (k < n)%nat ->
    (recentFailures (outcomes (firstn k its)) < 50)%Z.

(** At no point of [its] have 50 dials in a row failed. *)
Definition belowCeiling (its : list Iteration) : Prop :=
  belowCeilingBefore (S (List.length its)) its.

(** The two as tests. *)
Definition completesb (it : Iteration) : bool :=
  match dial_err (dialResult it), dial_ws (dialResult it), pumpResult it with
  | Some _, _, _ => true
  | None, Some _, Done _ => true
  | _, _, _ => false
  end.

Definition belowCeilingBeforeb (n : nat) (its : list Iteration) : bool :=
  forallb (fun k => (recentFailures (outcomes (firstn k its)) <? 50)%Z) (seq 0 n).

(** *** What the loop maintains *)

(** The count stays within the ceiling, every start of the pump found the
    client [served], and every start of the pump follows its dial. *)
Definition invariant (s : State) : Prop :=
  (0 <= retryOnFailCount (client s) <= maxRetryAttempts)%Z /\
  Forall served (pumpStarts (history s)) /\
  startsFollowDials (history s).

(** The state an iteration ends in, whether or not its session came back. *)
Definition reached (r : sessionEnd * State + ctl * State) : State :=
  match r with
  | inl (_, s) => s
  | inr (_, s) => s
  end.

End Session.

(* ================================================================== *)
(** ** Scenarios *)

Module Scenario.

Import Relay.

(** The TLS configuration is built, and the ping end point answers as given. *)
Definition tlsOK : string -> TLSConfig * option error := fun _ => (0%nat, None).

Definition pingAnswers (r : DialResult) : Dialer -> string -> DialResult := fun _ _ => r.

(** gorilla's Dial on an HTTP answer that is no upgrade: no connection, the
    response, and ErrBadHandshake. *)
Definition httpAnswer (status : Z) : DialResult :=
  {| dial_ws := None;
     dial_resp := Some {| StatusCode := status; Status := ""%string; Body := [] |};
     dial_err := Some ErrBadHandshake |}.

(** The dial failed before any HTTP response: the TCP connection was refused. *)
Definition connectionRefused : DialResult :=
  {| dial_ws := None;
     dial_resp := None;
     dial_err := Some (NetError "dial tcp: connection refused") |}.

(** A successful upgrade to the WebSocket [c]. *)
Definition upgraded (c : WSConn) : DialResult :=
  {| dial_ws := Some c;
     dial_resp := Some {| StatusCode := 101; Status := "101 Switching Protocols"%string; Body := [] |};
     dial_err := None |}.

Definition relayHost : string := "127.0.0.1:8080".

Definition relayClient : WSTunnelClient := InitializeTunnelClient "h" relayHost.

(** A client whose TestConnection succeeded. *)
Definition testedClient : WSTunnelClient :=
  set_Dialer (set_DestURL relayClient "wss://h/api/v1/edgedevice/connection/tunnel")
    (Some {| ReadBufferSize := 100 * 1024; WriteBufferSize := 100 * 1024;
             TLSClientConfig := 0%nat; NetDialLocalAddr := ""%string; Proxy := None |}).

Definition noWriterError : WriterEnv :=
  {| nextWriterErr := None; writeIdErr := None; copyErr := None; closeErr := None |}.

(** A WSConnection that has not dialled the relay yet. *)
Definition freshConnection : State :=
  {| tun := relayClient;
     wsc := {| ws := 0%nat; localConnection := None |};
     world := [] |}.

(** A WSConnection of a client whose local relay is the empty string. *)
Definition emptyHostConnection : State :=
  {| tun := InitializeTunnelClient "h" "";
     wsc := {| ws := 0%nat; localConnection := None |};
     world := [] |}.

(** A WSConnection with the cached connection 0 of an earlier dial. *)
Definition cachedConnection : State :=
  {| tun := relayClient;
     wsc := {| ws := 0%nat; localConnection := Some 0%nat |};
     world := [EvNetDial relayHost None] |}.

(** The relay accepts every dial and fails every write with [e]. *)
Definition writesFail (e : error) : Env :=
  {| netDial := fun _ => None;
     probeRead := fun _ => None;
     connWrite := fun _ => Some e;
     connReadAll := fun _ => [];
     wsWriter := fun _ => noWriterError;
     closedByRelay := fun _ => false |}.

(** The relay has closed connection 0 and accepts new ones.  The
    zero-length read of the probe reports nothing; the first write, on the
    closed connection, fails, and later writes succeed. *)
Definition relayRestarted : Env :=
  {| netDial := fun _ => None;
     probeRead := fun _ => None;
     connWrite := fun n => match n with
                           | O => Some (NetError "write: broken pipe")
                           | S _ => None
                           end;
     connReadAll := fun _ => [];
     wsWriter := fun _ => noWriterError;
     closedByRelay := fun c => Nat.eqb c 0 |}.

(** The probe reports the end of the stream, and nothing fails afterwards. *)
Definition probeSeesEOF : Env :=
  {| netDial := fun _ => None;
     probeRead := fun _ => Some EOF;
     connWrite := fun _ => None;
     connReadAll := fun _ => [];
     wsWriter := fun _ => noWriterError;
     closedByRelay := fun c => Nat.eqb c 0 |}.

(** Nothing fails and the relay stays silent. *)
Definition quietRelay : Env :=
  {| netDial := fun _ => None;
     probeRead := fun _ => None;
     connWrite := fun _ => None;
     connReadAll := fun _ => [];
     wsWriter := fun _ => noWriterError;
     closedByRelay := fun _ => false |}.

(** Stop was called on the tested client: exitChan holds the signal. *)
Definition stoppedClient : WSTunnelClient := set_exitChan testedClient 1.

(** The dial is refused. *)
Definition refusedIteration : Session.Iteration :=
  {| Session.dialResult := connectionRefused;
     Session.pumpResult := Blocked;
     Session.stop := false |}.

(** The dial succeeds, and the request pump returns after a while. *)
Definition servedIteration : Session.Iteration :=
  {| Session.dialResult := upgraded 7%nat;
     Session.pumpResult := Done {| Session.pumpLocalConnection := None;
                                   Session.pumpRequestSentChan := 0%nat |};
     Session.stop := false |}.

(** The dial succeeds, and the request pump is still running. *)
Definition runningIteration : Session.Iteration :=
  {| Session.dialResult := upgraded 9%nat;
     Session.pumpResult := Blocked;
     Session.stop := false |}.

(** The response pump of a fresh connection, with the exit signal arriving
    before its first iteration. *)
Definition exitThenIdle : list ResponsePump.Arrivals :=
  [ {| ResponsePump.requestSentArrives := false; ResponsePump.exitArrives := true |};
    {| ResponsePump.requestSentArrives := false; ResponsePump.exitArrives := false |};
    {| ResponsePump.requestSentArrives := false; ResponsePump.exitArrives := false |} ].

(** "GET / HTTP/1.1\r\n\r\n" *)
Definition getRequest : list byte :=
  list_byte_of_string ("GET / HTTP/1.1" ++ String "013" (String "010" (String "013" (String "010" "")))).

(** An id handed to the default of [decode]'s parameter. *)
Definition rejectNonASCII : list byte -> decoded := fun _ => BadId ExpectedInteger.

End Scenario.
Import Scenario.

(* ================================================================== *)
(** ** The request pump *)

Module RequestPump.

Import Relay.

(** websocket.TextMessage and websocket.BinaryMessage *)
Definition TextMessage : Z := 1.
Definition BinaryMessage : Z := 2.

(** What one call of wsc.ws.NextReader brings: an error, or a message of
    some type whose reader delivers [data] and then ends, with io.EOF or
    with the error [streamErr]. *)
Inductive wsRead : Type :=
| ReadError (err : error)
| Message (messageType : Z) (data : list byte) (streamErr : option error).

(** The outside of one iteration of the loop of handleRequests: what
    NextReader brings, and whether the response pump receives the value
    buffered in requestSentChan, if any, before the send of this iteration
    completes. *)
Record Arrival : Type := mkArrival {
  read : wsRead;
  signalTaken : bool
}.

(** The goroutines handleRequests starts. *)
Inductive Goroutine : Type :=
| Pinger                         (* go wsc.pinger() *)
| ProcessResponses               (* go wsc.processResponses() *)
| DelayedClose.                  (* sleep 5 s, then wsc.ws.Close() *)

Definition receive (took : bool) (buffered : nat) : nat :=
  if took then (buffered - 1)%nat else buffered.

Section WithEnv.

Variable E : Env.
Variable scanNonASCII : list byte -> decoded.

(** The body of the loop of handleRequests for what NextReader brought.
    The error of processRequest is logged and the loop goes on. *)
Definition handleMessage (r : wsRead) (s : State) : outcome (ctl * State) :=
  match r with
  | ReadError _ => Done (Break, s)
  | Message messageType data streamErr =>
      if negb (messageType =? BinaryMessage)%Z then Done (Break, s)
      else
        match decode scanNonASCII data with
        | BadId _ => Done (Break, s)                        (* cannot read request ID *)
        | Parsed id request =>
            match streamErr with
            | Some _ => Done (Break, s)                     (* ioutil.ReadAll failed *)
            | None =>
                if (0 <? List.length request)%nat
                then r <- processRequest E id request s ;; Done (Next, snd r)
                else Done (Next, s)                         (* no payload *)
            end
        end
  end.

(** The loop of handleRequests, one element of [script] per iteration. *)
Fixpoint requestLoop (script : list Arrival) (s : State) : outcome (loopEnd * State) :=
  match script with
  | [] => Done (StillLooping, s)
  | a :: rest =>
      let t := tun s in
      let s := set_tun s (set_requestSentChan t (receive (signalTaken a) (requestSentChan t))) in
      r <- handleMessage (read a) s ;;
      match fst r with
      | Break => Done (LoopLeft, snd r)
      | Next => requestLoop rest (snd r)
      end
  end.

(** handleRequests: the pinger and the response pump are started, the loop
    runs, and when it is left the delayed close is started. *)
Definition handleRequests (script : list Arrival) (s : State)
  : outcome (loopEnd * (list Goroutine * State)) :=
  r <- requestLoop script s ;;
  match fst r with
  | LoopLeft => Done (LoopLeft, ([Pinger; ProcessResponses; DelayedClose], snd r))
  | StillLooping => Done (StillLooping, ([Pinger; ProcessResponses], snd r))
  end.

End WithEnv.

End RequestPump.

(* ================================================================== *)
(** ** Notions used by the further properties *)

(** The fields TestConnection never writes. *)
Definition sameSupervisorFields (t t' : WSTunnelClient) : Prop :=
  TunnelServerName t' = TunnelServerName t /\
  Timeout t' = Timeout t /\
  Connected t' = Connected t /\
  exitChan t' = exitChan t /\
  conn t' = conn t /\
  retryOnFailCount t' = retryOnFailCount t /\
  requestSentChan t' = requestSentChan t.


(** The write attempts of one forward, oldest first, and the error they
    end with: nothing at all, a write that succeeds, a failed write whose
    re-dial fails, or a failed write, a re-dial that succeeds, and further
    attempts. *)
Inductive attempts (host : string) (req : list byte)
  : list Relay.Event -> option error -> Prop :=
| attempts_none : attempts host req [] None
| attempts_written (c : NetConn) :
    attempts host req [Relay.EvWrite c req None] None
| attempts_dial_failed (c : NetConn) (e err : error) :
    attempts host req
      [Relay.EvWrite c req (Some e); Relay.EvNetDial host (Some err)] (Some err)
| attempts_retry (c : NetConn) (e : error) (rest : list Relay.Event) (r : option error) :
    attempts host req rest r ->
    attempts host req
      (Relay.EvWrite c req (Some e) :: Relay.EvNetDial host None :: rest) r.

(** A step of the connector that leaves the client and the WebSocket alone
    and sends no signal. *)
Definition quiet (s s' : Relay.State) : Prop :=
  Relay.tun s' = Relay.tun s /\
  ws (Relay.wsc s') = ws (Relay.wsc s) /\
  filter Relay.isRequestSent (Relay.world s') = filter Relay.isRequestSent (Relay.world s).

(** The error with which the write loop of processRequest ends. *)
Definition loopError (r : error * Relay.State + Relay.State) : option error :=
  match r with
  | inl (e, _) => Some e
  | inr _ => None
  end.

(** The state in which the write loop of processRequest ends. *)
Definition loopFinal (r : error * Relay.State + Relay.State) : Relay.State :=
  match r with
  | inl (_, s) => s
  | inr s => s
  end.


(** An event of the connector alone: a probe or a dial. *)
Definition connectorOnly (e : Relay.Event) : bool :=
  Relay.isProbe e || Relay.isNetDial e.

(** What one iteration of the loop of processResponses records, most recent
    first, with the response id before and after: probes and dials only; or
    an empty read after them; or a read that brought [data] and the response
    that frames it. *)
Inductive pumpRound (id : Z) : list Relay.Event -> Z -> Prop :=
| round_idle (pre : list Relay.Event) :
    Forall (fun e => connectorOnly e = true) pre ->
    pumpRound id pre id
| round_silent (c : NetConn) (pre : list Relay.Event) :
    Forall (fun e => connectorOnly e = true) pre ->
    pumpRound id (Relay.EvReadAll c [] :: pre) id
| round_response (c : NetConn) (data : list byte) (we : WriterEnv) (pre : list Relay.Event) :
    data <> [] ->
    Forall (fun e => connectorOnly e = true) pre ->
    pumpRound id
      (Relay.EvResponse id (writeResponseMessage id data we) :: Relay.EvReadAll c data :: pre)
      (ResponsePump.wrap64 (id + 1)).

(** What the iterations of the loop record one after the other. *)
Inductive pumpRounds (id0 : Z) : list Relay.Event -> Z -> Prop :=
| rounds_none : pumpRounds id0 [] id0
| rounds_more (earlier : list Relay.Event) (id1 : Z) (new : list Relay.Event) (id2 : Z) :
    pumpRounds id0 earlier id1 ->
    pumpRound id1 new id2 ->
    pumpRounds id0 (new ++ earlier) id2.

(** The ids of the responses in a record, most recent first. *)
Fixpoint responseIds (w : list Relay.Event) : list Z :=
  match w with
  | [] => []
  | Relay.EvResponse id _ :: w => id :: responseIds w
  | _ :: w => responseIds w
  end.

(** Every response in a record comes directly after a read that brought
    data, and what was handed to the WebSocket is the id followed by that
    data, unless the write failed and the WebSocket was closed. *)
Fixpoint framed (w : list Relay.Event) : Prop :=
  match w with
  | [] => True
  | Relay.EvResponse id effect :: rest =>
      match rest with
      | Relay.EvReadAll _ data :: _ =>
          data <> [] /\ (effect = WsClosed \/ effect = Sent (encode id data)) /\ framed rest
      | _ => False
      end
  | _ :: rest => framed rest
  end.


(** A message that makes handleRequests leave its loop: a read error, a
    message that is not binary, an id that cannot be scanned, or a stream
    that breaks. *)
Definition fatal (scanNonASCII : list byte -> decoded) (r : RequestPump.wsRead) : bool :=
  match r with
  | RequestPump.ReadError _ => true
  | RequestPump.Message messageType data streamErr =>
      negb (messageType =? RequestPump.BinaryMessage)%Z ||
      match decode scanNonASCII data with
      | BadId _ => true
      | Parsed _ _ => match streamErr with Some _ => true | None => false end
      end
  end.

(** A message whose payload handleRequests hands to processRequest. *)
Definition forwarded (scanNonASCII : list byte -> decoded) (r : RequestPump.wsRead) : bool :=
  match r with
  | RequestPump.ReadError _ => false
  | RequestPump.Message messageType data streamErr =>
      (messageType =? RequestPump.BinaryMessage)%Z &&
      match decode scanNonASCII data, streamErr with
      | Parsed _ request, None => (0 <? List.length request)%nat
      | _, _ => false
      end
  end.

(** The number of messages of a script that are forwarded. *)
Definition forwardedCount (scanNonASCII : list byte -> decoded)
  (script : list RequestPump.Arrival) : nat :=
  List.length (filter (fun a => forwarded scanNonASCII (RequestPump.read a)) script).

(** The configuration of a client: what TestConnection sets up and the
    dial loop reads. *)
Definition sameConfiguration (t t' : WSTunnelClient) : Prop :=
  TunnelServerName t' = TunnelServerName t /\
  Tunnel t' = Tunnel t /\
  DestURL t' = DestURL t /\
  LocalRelayServer t' = LocalRelayServer t /\
  Timeout t' = Timeout t /\
  TheDialer t' = TheDialer t.

(** An event of the dial loop that respects the configuration: a dial goes
    to [url], and a read limit is 100 MiB. *)
Definition dialsTo (url : string) (e : Session.Event) : Prop :=
  match e with
  | Session.EvDial u _ => u = url
  | Session.EvSetReadLimit _ limit => limit = (100 * 1024 * 1024)%Z
  | _ => True
  end.

(** The dial of an iteration fails. *)
Definition dialFails (it : Session.Iteration) : Prop :=
  dial_err (Session.dialResult it) <> None.

(* ================================================================== *)
(** ** Further scenarios *)

Module Scenario2.

Import Relay.

(** The local relay refuses every connection. *)
Definition relayDown : Env :=
  {| netDial := fun _ => Some (NetError "dial tcp: connection refused");
     probeRead := fun _ => None;
     connWrite := fun _ => None;
     connReadAll := fun _ => [];
     wsWriter := fun _ => noWriterError;
     closedByRelay := fun _ => false |}.

(** "HTTP/1.1 200 OK\r\n\r\nOK" *)
Definition okResponse : list byte :=
  list_byte_of_string
    ("HTTP/1.1 200 OK" ++ String "013" (String "010" (String "013" (String "010" "OK")))).

(** The relay answers every read with [okResponse]; nothing fails. *)
Definition relayAnswers : Env :=
  {| netDial := fun _ => None;
     probeRead := fun _ => None;
     connWrite := fun _ => None;
     connReadAll := fun _ => okResponse;
     wsWriter := fun _ => noWriterError;
     closedByRelay := fun _ => false |}.

(** Two iterations of the response pump, a request-sent signal arriving
    before each. *)
Definition twoSignals : list ResponsePump.Arrivals :=
  [ {| ResponsePump.requestSentArrives := true; ResponsePump.exitArrives := false |};
    {| ResponsePump.requestSentArrives := true; ResponsePump.exitArrives := false |} ].

(** A session of the request pump: a request, a frame without payload, and
    the read error that ends the session; the response pump keeps up. *)
Definition shortSession : list RequestPump.Arrival :=
  [ {| RequestPump.read := RequestPump.Message 2 (encode 1 getRequest) None;
       RequestPump.signalTaken := true |};
    {| RequestPump.read := RequestPump.Message 2 (encode 42 []) None;
       RequestPump.signalTaken := true |};
    {| RequestPump.read := RequestPump.ReadError EOF;
       RequestPump.signalTaken := true |} ].

End Scenario2.
Import Scenario2.

(* ================================================================== *)
(** * Properties *)

(** ** TestConnection *)

Section BootstrapFacts.

Import Bootstrap.
Local Open Scope string_scope.

Variable GetTlsConfig : string -> TLSConfig * option error.
Variable Dial : Dialer -> string -> DialResult.

(** No string begins with both "http://" and "https://": the fifth
    character would be ':' and 's'. *)
Lemma relaySchemeGuard_never_fires (relay : string) : relaySchemeGuard relay = false.
Proof.
  unfold relaySchemeGuard.
  destruct relay as [|c1 [|c2 [|c3 [|c4 [|c5 r]]]]]; cbn [HasPrefix];
    repeat match goal with
           | |- context [Ascii.eqb ?a ?b] =>
               destruct (Ascii.eqb_spec a b); subst; cbn [andb]
           end;
    try reflexivity; try congruence; try apply andb_false_r.
Qed.

(** The part of TestConnection after the configuration checks, when the
    dial brought an HTTP response. *)
Lemma TestConnection_with_response t proxy addr tls resp :
  Tunnel t <> "" ->
  (HasPrefix (Tunnel t) "ws://" = true \/ HasPrefix (Tunnel t) "wss://" = true) ->
  LocalRelayServer t <> "" ->
  GetTlsConfig (TunnelServerName t) = (tls, None) ->
  let t1 := set_LocalRelayServer (set_Tunnel t (TrimSuffix (Tunnel t) "/"))
              (TrimSuffix (LocalRelayServer t) "/") in
  let dialer := {| ReadBufferSize := 100 * 1024; WriteBufferSize := 100 * 1024;
                   TLSClientConfig := tls; NetDialLocalAddr := addr; Proxy := proxy |} in
  dial_resp (Dial dialer (pingURL t1)) = Some resp ->
  TestConnection GetTlsConfig Dial t proxy addr =
    if (StatusCode resp =? 200)%Z
    then Done (set_Dialer (set_DestURL t1 (Tunnel t1 ++ "/api/v1/edgedevice/connection/tunnel"))
                 (Some dialer), None)
    else Done (t1, dial_err (Dial dialer (pingURL t1))).
Proof.
  intros Ht Hp Hl Htls t1 dialer Hresp.
  unfold TestConnection.
  destruct (String.eqb_spec (Tunnel t) "") as [e|_]; [contradiction|].
  assert (Hg : negb (HasPrefix (Tunnel t) "ws://") && negb (HasPrefix (Tunnel t) "wss://") = false).
  { destruct Hp as [-> | ->]; simpl; [reflexivity | apply andb_false_r]. }
  rewrite Hg. cbn [LocalRelayServer set_Tunnel TunnelServerName].
  destruct (String.eqb_spec (LocalRelayServer t) "") as [e|_]; [contradiction|].
  rewrite relaySchemeGuard_never_fires.
  cbn [LocalRelayServer set_Tunnel set_LocalRelayServer TunnelServerName].
  rewrite Htls. fold t1. fold dialer. rewrite Hresp. reflexivity.
Qed.

(** The same part when the dial brought no response. *)
Lemma TestConnection_without_response t proxy addr tls :
  Tunnel t <> "" ->
  (HasPrefix (Tunnel t) "ws://" = true \/ HasPrefix (Tunnel t) "wss://" = true) ->
  LocalRelayServer t <> "" ->
  GetTlsConfig (TunnelServerName t) = (tls, None) ->
  (forall d url, dial_resp (Dial d url) = None) ->
  TestConnection GetTlsConfig Dial t proxy addr = Panicked NilDereference.
Proof.
  intros Ht Hp Hl Htls Hresp.
  unfold TestConnection.
  destruct (String.eqb_spec (Tunnel t) "") as [e|_]; [contradiction|].
  assert (Hg : negb (HasPrefix (Tunnel t) "ws://") && negb (HasPrefix (Tunnel t) "wss://") = false).
  { destruct Hp as [-> | ->]; simpl; [reflexivity | apply andb_false_r]. }
  rewrite Hg. cbn [LocalRelayServer set_Tunnel TunnelServerName].
  destruct (String.eqb_spec (LocalRelayServer t) "") as [e|_]; [contradiction|].
  rewrite relaySchemeGuard_never_fires.
  cbn [LocalRelayServer set_Tunnel set_LocalRelayServer TunnelServerName].
  rewrite Htls, Hresp. reflexivity.
Qed.

End BootstrapFacts.

(** C1 (the code departs from it): a local relay that begins with "http://" is
    not rejected.  The guard of line 93 joins the two prefix tests with [&&], so it
    holds for no string; with localRelay = "http://x:8080" and a ping end point
    answering 200, TestConnection returns nil and sets DestURL. *)
Theorem TestConnection_accepts_http_relay :
  (forall relay, Bootstrap.relaySchemeGuard relay = false) /\
  Go.HasPrefix "http://x:8080"%string "http://"%string = true /\
  exists t',
    Bootstrap.TestConnection tlsOK (pingAnswers (httpAnswer 200))
      (InitializeTunnelClient "h" "http://x:8080") None ""%string = Done (t', None) /\
    DestURL t' = "wss://h/api/v1/edgedevice/connection/tunnel"%string /\
    LocalRelayServer t' = "http://x:8080"%string.
Proof.
  split; [exact relaySchemeGuard_never_fires|].
  split; [reflexivity|].
  eexists. split; [vm_compute; reflexivity|]. split; reflexivity.
Qed.

(** C2 (the code departs from it): when the dial ends with an error and no
    HTTP response, TestConnection reads [resp.StatusCode] through the nil
    response and panics instead of returning the dial error; this holds for
    every client that passes the configuration checks, and in particular
    for a refused TCP connection. *)
Theorem TestConnection_panics_without_response :
  Bootstrap.TestConnection tlsOK (pingAnswers connectionRefused)
    (InitializeTunnelClient "h" "127.0.0.1:8080") None ""%string = Panicked NilDereference /\
  (forall GetTlsConfig Dial t proxy addr tls,
     Tunnel t <> ""%string ->
     (HasPrefix (Tunnel t) "ws://" = true \/ HasPrefix (Tunnel t) "wss://" = true) ->
     LocalRelayServer t <> ""%string ->
     GetTlsConfig (TunnelServerName t) = (tls, None) ->
     (forall d url, dial_resp (Dial d url) = None) ->
     Bootstrap.TestConnection GetTlsConfig Dial t proxy addr = Panicked NilDereference).
Proof.
  split; [vm_compute; reflexivity|].
  intros GetTlsConfig Dial t proxy addr tls Ht Hp Hl Htls Hresp.
  apply TestConnection_without_response with (tls := tls); assumption.
Qed.

(** With a response, TestConnection does what C2 says: status 200 sets
    DestURL and the dialer and returns nil, any other status returns the
    error of the dial. *)
Lemma TestConnection_on_status_example :
  (exists t', Bootstrap.TestConnection tlsOK (pingAnswers (httpAnswer 200))
                (InitializeTunnelClient "h" "127.0.0.1:8080") None ""%string = Done (t', None) /\
              DestURL t' = "wss://h/api/v1/edgedevice/connection/tunnel"%string /\
              TheDialer t' <> None) /\
  (exists t', Bootstrap.TestConnection tlsOK (pingAnswers (httpAnswer 503))
                (InitializeTunnelClient "h" "127.0.0.1:8080") None ""%string =
                Done (t', Some ErrBadHandshake) /\
              DestURL t' = ""%string).
Proof.
  split; eexists; (split; [vm_compute; reflexivity|]); [split; [reflexivity|discriminate]|reflexivity].
Qed.

(** ** Framing *)

Section FramingFacts.

Variable scanNonASCII : list byte -> decoded.

Lemma firstn_4_header (h p : list byte) :
  List.length h = 4%nat -> firstn 4 (h ++ p) = h /\ skipn 4 (h ++ p) = p.
Proof.
  intros H.
  destruct h as [|a [|b [|c [|d [|e h]]]]]; simpl in H; try discriminate.
  split; reflexivity.
Qed.

Lemma roundtrips_sound (id : Z) (p : list byte) :
  roundtrips id = true -> decode scanNonASCII (encode id p) = Parsed id p.
Proof.
  unfold roundtrips, decode, encode. intros H.
  apply andb_prop in H. destruct H as [H Hscan].
  apply andb_prop in H. destruct H as [Hlen Hascii].
  apply Nat.eqb_eq in Hlen.
  destruct (firstn_4_header (Sprintf04x id) p Hlen) as [Hfirst Hskip].
  rewrite Hfirst, Hascii.
  destruct (scanInt16 (Sprintf04x id)) as [why | [i [|b rest]]]; try discriminate.
  apply Z.eqb_eq in Hscan. subst i. rewrite Hlen, Hskip. reflexivity.
Qed.

Lemma overflows_sound (id : Z) (p : list byte) :
  overflows id = true -> decode scanNonASCII (encode id p) = BadId IntegerOverflow.
Proof.
  unfold overflows, decode, encode. intros H.
  apply andb_prop in H. destruct H as [H Hscan].
  apply andb_prop in H. destruct H as [Hlen Hascii].
  apply Nat.eqb_eq in Hlen.
  destruct (firstn_4_header (Sprintf04x id) p Hlen) as [Hfirst _].
  rewrite Hfirst, Hascii.
  destruct (scanInt16 (Sprintf04x id)) as [[] | ]; try discriminate. reflexivity.
Qed.

Lemma In_idsFrom (n : nat) : forall lo id,
  (lo <= id < lo + Z.of_nat n)%Z -> In id (idsFrom lo n).
Proof.
  induction n as [|n IH]; intros lo id H; [lia|].
  cbn [idsFrom]. destruct (Z.eq_dec lo id) as [->|Hne]; [left; reflexivity|].
  right. apply IH. lia.
Qed.

Lemma roundtrips_low_ids : forallb roundtrips (idsFrom 0 (Z.to_nat 32768)) = true.
Proof. vm_compute. reflexivity. Qed.

Lemma overflows_high_ids : forallb overflows (idsFrom 32768 (Z.to_nat 32768)) = true.
Proof. vm_compute. reflexivity. Qed.

End FramingFacts.

(** C5, as the code has it: for every id in [0, 32767] and every payload of
    at most 100 MiB, the frame made of the id printed with [%04x] and the
    payload decodes to that id and that payload.  (The id is scanned into an
    int16.) *)
Theorem framing_roundtrip :
  forall (scanNonASCII : list byte -> decoded) (id : Z) (p : list byte),
    (0 <= id <= 32767)%Z ->
    (Z.of_nat (List.length p) <= 100 * 1024 * 1024)%Z ->
    decode scanNonASCII (encode id p) = Parsed id p.
Proof.
  intros scan id p Hid _.
  apply roundtrips_sound.
  pose proof roundtrips_low_ids as Hall.
  rewrite forallb_forall in Hall. apply Hall.
  apply In_idsFrom. lia.
Qed.

Lemma framing_roundtrip_witness :
  decode rejectNonASCII (encode 1 getRequest) = Parsed 1 getRequest.
Proof.
  apply (@framing_roundtrip rejectNonASCII 1%Z getRequest).
  - lia.
  - vm_compute. discriminate.
Defined.

(** The ids from 32768 to 65535 are printed on four characters too, and the
    scan rejects them: the value does not fit the int16. *)
Lemma decode_rejects_high_ids (scanNonASCII : list byte -> decoded) (id : Z) (p : list byte) :
  (32768 <= id <= 65535)%Z ->
  decode scanNonASCII (encode id p) = BadId IntegerOverflow.
Proof.
  intros Hid. apply overflows_sound.
  pose proof overflows_high_ids as Hall.
  rewrite forallb_forall in Hall. apply Hall.
  apply In_idsFrom. lia.
Qed.

(** C5 as stated fails at id = 32768 with the empty payload: the frame is
    "8000" and Fscanf reports an integer overflow. *)
Lemma framing_roundtrip_fails_at_32768 :
  decode rejectNonASCII (encode 32768 []) = BadId IntegerOverflow /\
  ~ (forall (id : Z) (p : list byte),
       (0 <= id <= 65535)%Z ->
       (Z.of_nat (List.length p) <= 100 * 1024 * 1024)%Z ->
       decode rejectNonASCII (encode id p) = Parsed id p).
Proof.
  split; [reflexivity|].
  intros H. specialize (H 32768%Z [] ltac:(lia) ltac:(simpl; lia)).
  discriminate H.
Qed.

(** ** The local relay connector *)

Section RelayFacts.

Import Relay.
Local Open Scope string_scope.

Variable E : Env.

Lemma dialLocalConnection_empty_host (s : State) :
  LocalRelayServer (tun s) = "" -> dialLocalConnection E s = (None, s).
Proof. intros H. unfold dialLocalConnection. rewrite H. reflexivity. Qed.

(** A dial that reports no error leaves a connection installed, provided
    the host is not empty; it never touches the client. *)
Lemma dialLocalConnection_installs (s s' : State) :
  LocalRelayServer (tun s) <> "" ->
  dialLocalConnection E s = (None, s') ->
  localConnection (wsc s') = Some (calls isNetDial (world s)) /\ tun s' = tun s.
Proof.
  intros Hhost. unfold dialLocalConnection.
  destruct (String.eqb_spec (LocalRelayServer (tun s)) "") as [e|_]; [contradiction|].
  destruct (netDial E _); intros H; inversion H; subst. split; reflexivity.
Qed.

Lemma dialLocalConnection_tun (s : State) :
  tun (snd (dialLocalConnection E s)) = tun s.
Proof.
  unfold dialLocalConnection.
  destruct (String.eqb _ _); [reflexivity|]. destruct (netDial E _); reflexivity.
Qed.

Lemma refreshLocalConnection_tun host force (s : State) :
  tun (snd (refreshLocalConnection E host force s)) = tun s.
Proof.
  unfold refreshLocalConnection.
  destruct (localConnection (wsc s)) as [c|]; [destruct force|];
    try apply dialLocalConnection_tun.
  destruct (probeRead E _) as [e|]; [|reflexivity].
  destruct (lostConnection e); [|reflexivity].
  rewrite dialLocalConnection_tun. reflexivity.
Qed.

(** After a refresh that reports no error a connection is installed. *)
Lemma refreshLocalConnection_installs host force (s s' : State) :
  LocalRelayServer (tun s) <> "" ->
  refreshLocalConnection E host force s = (None, s') ->
  exists c, localConnection (wsc s') = Some c.
Proof.
  intros Hhost. unfold refreshLocalConnection.
  destruct (localConnection (wsc s)) as [c|] eqn:Hc; [destruct force|].
  - intros H. apply dialLocalConnection_installs in H; [|exact Hhost].
    eexists. exact (proj1 H).
  - destruct (probeRead E _) as [e|].
    + destruct (lostConnection e).
      * intros H. apply dialLocalConnection_installs in H; [|exact Hhost].
        eexists. exact (proj1 H).
      * intros H. inversion H; subst. exists c. exact Hc.
    + intros H. inversion H; subst. exists c. exact Hc.
  - intros H. apply dialLocalConnection_installs in H; [|exact Hhost].
    eexists. exact (proj1 H).
Qed.

(** With a host and a connection installed, the write loop never meets a
    nil connection. *)
Lemma writeLoop_no_panic (left : nat) : forall host req (s : State) p,
  LocalRelayServer (tun s) <> "" ->
  (exists c, localConnection (wsc s) = Some c) ->
  writeLoop E left host req s <> Panicked p.
Proof.
  induction left as [|left IH]; intros host req s p Hhost [c Hc]; cbn [writeLoop].
  - discriminate.
  - rewrite Hc. destruct (connWrite E _) as [e|]; [|discriminate].
    destruct (refreshLocalConnection E host true _) as [[err|] s1] eqn:Hr; [discriminate|].
    pose proof (refreshLocalConnection_tun host true (record (EvWrite c req (Some e)) s)) as Ht.
    rewrite Hr in Ht. cbn in Ht.
    apply IH.
    + rewrite Ht. exact Hhost.
    + eapply refreshLocalConnection_installs; [|exact Hr]. exact Hhost.
Qed.

Lemma processRequest_no_panic id req (s : State) p :
  LocalRelayServer (tun s) <> "" ->
  processRequest E id req s <> Panicked p.
Proof.
  intros Hhost. unfold processRequest.
  destruct (refreshLocalConnection E _ false s) as [[err|] s1] eqn:Hr; [discriminate|].
  pose proof (refreshLocalConnection_tun (LocalRelayServer (tun s)) false s) as Ht.
  rewrite Hr in Ht. cbn in Ht.
  assert (Hhost1 : LocalRelayServer (tun s1) <> "") by (rewrite Ht; exact Hhost).
  pose proof (refreshLocalConnection_installs _ _ s Hhost Hr) as Hc.
  pose proof (@writeLoop_no_panic 3 (LocalRelayServer (tun s)) req s1 p Hhost1 Hc) as Hw.
  destruct (writeLoop E 3 _ req s1) as [[[err s2]|s2]| | |]; cbn;
    try discriminate; try congruence.
  unfold chanSend. destruct (_ <? _)%nat; discriminate.
Qed.

Lemma dialLocalConnection_writes (s : State) :
  filter isWrite (world (snd (dialLocalConnection E s))) = filter isWrite (world s).
Proof.
  unfold dialLocalConnection.
  destruct (String.eqb _ _); [reflexivity|]. destruct (netDial E _); reflexivity.
Qed.

Lemma refreshLocalConnection_writes host force (s : State) :
  filter isWrite (world (snd (refreshLocalConnection E host force s))) =
    filter isWrite (world s).
Proof.
  unfold refreshLocalConnection.
  destruct (localConnection (wsc s)) as [c|]; [destruct force|];
    try apply dialLocalConnection_writes.
  destruct (probeRead E _) as [e|]; [|reflexivity].
  destruct (lostConnection e); [|reflexivity].
  rewrite dialLocalConnection_writes. reflexivity.
Qed.

(** The state in which the write loop ends. *)
Definition loopState (r : error * State + State) : State :=
  match r with
  | inl (_, s) => s
  | inr s => s
  end.

(** The loop makes at most [left] writes, all of the payload. *)
Lemma writeLoop_writes (left : nat) : forall host req (s : State) r,
  writeLoop E left host req s = Done r ->
  exists ws,
    filter isWrite (world (loopState r)) = (ws ++ filter isWrite (world s))%list /\
    (List.length ws <= left)%nat /\
    Forall (fun e => match e with EvWrite _ q _ => q = req | _ => False end) ws.
Proof.
  induction left as [|left IH]; intros host req s r; cbn [writeLoop].
  - intros H. inversion H. exists []. repeat split; [apply Nat.le_refl | constructor].
  - destruct (localConnection (wsc s)) as [c|]; [|discriminate].
    destruct (connWrite E _) as [e|].
    + pose proof (refreshLocalConnection_writes host true (record (EvWrite c req (Some e)) s))
        as Hw.
      destruct (refreshLocalConnection E host true _) as [[err|] s1]; cbn [snd] in Hw.
      * intros H. inversion H. cbn [loopState]. rewrite Hw.
        exists [EvWrite c req (Some e)]. repeat split.
        -- cbn. lia.
        -- repeat constructor.
      * intros H. destruct (IH _ _ _ _ H) as (ws & Heq & Hlen & Hall).
        exists (ws ++ [EvWrite c req (Some e)])%list. repeat split.
        -- rewrite Heq, Hw. cbn. rewrite <- app_assoc. reflexivity.
        -- rewrite length_app. cbn. lia.
        -- apply Forall_app. split; [exact Hall | repeat constructor].
    + intros H. inversion H. cbn [loopState].
      exists [EvWrite c req None]. repeat split.
      * cbn. lia.
      * repeat constructor.
Qed.

(** processRequest writes the payload at most three times. *)
Lemma processRequest_at_most_three_writes id req (s s' : State) err :
  processRequest E id req s = Done (err, s') ->
  exists ws,
    filter isWrite (world s') = (ws ++ filter isWrite (world s))%list /\
    (List.length ws <= 3)%nat /\
    Forall (fun e => match e with EvWrite _ q _ => q = req | _ => False end) ws.
Proof.
  unfold processRequest.
  pose proof (refreshLocalConnection_writes (LocalRelayServer (tun s)) false s) as Hw.
  destruct (refreshLocalConnection E _ false s) as [[e|] s1]; cbn [snd] in Hw.
  - intros H. inversion H; subst. exists [].
    split; [exact Hw|]. split; [cbn; lia | constructor].
  - destruct (writeLoop E 3 _ req s1) as [r| | |] eqn:Hl; cbn [Go.bind]; try discriminate.
    destruct (writeLoop_writes _ _ _ _ Hl) as (ws & Heq & Hlen & Hall).
    rewrite Hw in Heq.
    destruct r as [[e2 s2]|s2]; cbn [loopState] in Heq.
    + intros H. inversion H; subst. exists ws. repeat split; assumption.
    + unfold chanSend. destruct (_ <? _)%nat; cbn [Go.bind]; [|discriminate].
      intros H. inversion H; subst. exists ws. repeat split; assumption.
Qed.

Lemma processRequest_empty_host_panics id req (s : State) :
  LocalRelayServer (tun s) = "" ->
  localConnection (wsc s) = None ->
  processRequest E id req s = Panicked NilDereference.
Proof.
  intros Hhost Hc. unfold processRequest, refreshLocalConnection.
  rewrite Hc, (dialLocalConnection_empty_host s Hhost).
  cbn [writeLoop]. rewrite Hc. reflexivity.
Qed.

End RelayFacts.


(** C4 (the code departs from it): when all three writes fail and every
    re-dial succeeds, processRequest leaves its loop, sends on
    requestSentChan and returns nil: no error reaches the caller and the
    signal is emitted for a request that was never written. *)
Theorem processRequest_reports_success_after_three_failed_writes :
  forall (id : Z) (req : list byte) (e : error),
  exists s',
    Relay.processRequest (writesFail e) id req freshConnection = Done (None, s') /\
    Relay.world s' =
      [Relay.EvRequestSent;
       Relay.EvNetDial relayHost None; Relay.EvWrite 2%nat req (Some e);
       Relay.EvNetDial relayHost None; Relay.EvWrite 1%nat req (Some e);
       Relay.EvNetDial relayHost None; Relay.EvWrite 0%nat req (Some e);
       Relay.EvNetDial relayHost None] /\
    requestSentChan (Relay.tun s') = 1%nat.
Proof.
  intros id req e. eexists. split; [reflexivity|]. split; reflexivity.
Qed.

Section ProbeFacts.

Import Relay.
Local Open Scope string_scope.

Variable E : Env.

Lemma refresh_kept (s : State) (c : NetConn) host :
  localConnection (wsc s) = Some c ->
  let probe := probeRead E (calls isProbe (world s)) in
  match probe with Some e => lostConnection e | None => false end = false ->
  refreshLocalConnection E host false s = (None, record (EvProbe c probe) s).
Proof.
  intros Hc probe Hlost. unfold refreshLocalConnection. rewrite Hc. fold probe.
  destruct probe as [e|]; [rewrite Hlost|]; reflexivity.
Qed.

Lemma refresh_lost (s : State) (c : NetConn) host :
  localConnection (wsc s) = Some c ->
  let probe := probeRead E (calls isProbe (world s)) in
  match probe with Some e => lostConnection e | None => false end = true ->
  refreshLocalConnection E host false s = dialLocalConnection E (record (EvProbe c probe) s).
Proof.
  intros Hc probe Hlost. unfold refreshLocalConnection. rewrite Hc. fold probe.
  destruct probe as [e|]; [rewrite Hlost; reflexivity|discriminate].
Qed.

Lemma dial_unfold (s : State) :
  LocalRelayServer (tun s) <> "" ->
  dialLocalConnection E s =
    match netDial E (calls isNetDial (world s)) with
    | Some err => (Some err, record (EvNetDial (LocalRelayServer (tun s)) (Some err)) s)
    | None => (None, set_localConnection (record (EvNetDial (LocalRelayServer (tun s)) None) s)
                       (Some (calls isNetDial (world s))))
    end.
Proof.
  intros Hhost. unfold dialLocalConnection.
  destruct (String.eqb_spec (LocalRelayServer (tun s)) "") as [e|_]; [contradiction|reflexivity].
Qed.

End ProbeFacts.

(** The probe in a forward.  The probe dials again exactly when the
    zero-length read reports EOF, a closed pipe or an unexpected EOF, and
    otherwise keeps the cached connection; a forward whose first write fails
    on the kept connection dials again before it writes once more, a failed
    dial is returned as the error, and a write that succeeds on the new
    connection makes the forward succeed. *)
Theorem probe_redials_on_lost_connection_only :
  forall (E : Relay.Env) (s : Relay.State) (c : NetConn) (id : Z) (req : list byte),
    localConnection (Relay.wsc s) = Some c ->
    (c < Relay.calls Relay.isNetDial (Relay.world s))%nat ->
    LocalRelayServer (Relay.tun s) <> ""%string ->
    requestSentChan (Relay.tun s) = 0%nat ->
    let host := LocalRelayServer (Relay.tun s) in
    let probe := Relay.probeRead E (Relay.calls Relay.isProbe (Relay.world s)) in
    let n := Relay.calls Relay.isNetDial (Relay.world s) in
    let k := Relay.calls Relay.isWrite (Relay.world s) in
    let lost := match probe with
                | Some EOF | Some ErrClosedPipe | Some ErrUnexpectedEOF => true
                | _ => false
                end in
    (lost = false ->
       Relay.refreshLocalConnection E host false s = (None, Relay.record (Relay.EvProbe c probe) s)) /\
    (lost = true ->
       match Relay.netDial E n with
       | Some err =>
           Relay.refreshLocalConnection E host false s =
             (Some err, Relay.record (Relay.EvNetDial host (Some err))
                          (Relay.record (Relay.EvProbe c probe) s))
       | None =>
           exists s', Relay.refreshLocalConnection E host false s = (None, s') /\
                      localConnection (Relay.wsc s') = Some n /\ n <> c
       end) /\
    (lost = false -> forall e, Relay.connWrite E k = Some e ->
       match Relay.netDial E n with
       | Some err =>
           exists s', Relay.processRequest E id req s = Done (Some err, s')
       | None =>
           Relay.connWrite E (S k) = None ->
           exists s', Relay.processRequest E id req s = Done (None, s') /\
                      Relay.world s' =
                        Relay.EvRequestSent :: Relay.EvWrite n req None ::
                        Relay.EvNetDial host None :: Relay.EvWrite c req (Some e) ::
                        Relay.EvProbe c probe :: Relay.world s
       end) /\
    (lost = true ->
       match Relay.netDial E n with
       | Some err =>
           exists s', Relay.processRequest E id req s = Done (Some err, s') /\
                      filter Relay.isWrite (Relay.world s') = filter Relay.isWrite (Relay.world s)
       | None =>
           Relay.connWrite E k = None ->
           exists s', Relay.processRequest E id req s = Done (None, s') /\
                      Relay.world s' =
                        Relay.EvRequestSent :: Relay.EvWrite n req None ::
                        Relay.EvNetDial host None :: Relay.EvProbe c probe :: Relay.world s
       end).
Proof.
  intros E s c id req Hc Hlt Hhost Hchan host probe n k lost.
  assert (Hlost : lost = match probe with Some e => Relay.lostConnection e | None => false end).
  { subst lost. destruct probe as [[]|]; reflexivity. }
  rewrite Hlost. clear Hlost lost.
  set (lost := match probe with Some e => Relay.lostConnection e | None => false end).
  assert (Hdial : Relay.dialLocalConnection E (Relay.record (Relay.EvProbe c probe) s) =
                  match Relay.netDial E n with
                  | Some err => (Some err, Relay.record (Relay.EvNetDial host (Some err))
                                             (Relay.record (Relay.EvProbe c probe) s))
                  | None => (None, Relay.set_localConnection
                                     (Relay.record (Relay.EvNetDial host None)
                                        (Relay.record (Relay.EvProbe c probe) s)) (Some n))
                  end).
  { rewrite dial_unfold; [reflexivity | exact Hhost]. }
  repeat split.
  - intros Hl. apply refresh_kept; assumption.
  - intros Hl. rewrite (refresh_lost E s host Hc Hl). fold probe. rewrite Hdial.
    destruct (Relay.netDial E n) as [err|]; [reflexivity|].
    eexists. split; [reflexivity|]. split; [reflexivity|]. lia.
  - intros Hl e Hw.
    unfold Relay.processRequest. fold host.
    rewrite (refresh_kept E s host Hc Hl). fold probe.
    cbn [Relay.writeLoop Relay.record Relay.wsc Relay.world]. rewrite Hc.
    replace (Relay.calls Relay.isWrite (Relay.EvProbe c probe :: Relay.world s)) with k
      by reflexivity.
    rewrite Hw.
    unfold Relay.refreshLocalConnection.
    cbn [Relay.record Relay.wsc Relay.world]. rewrite Hc.
    rewrite dial_unfold by exact Hhost.
    cbn [Relay.record Relay.wsc Relay.world Relay.tun]. fold host.
    replace (Relay.calls Relay.isNetDial
               (Relay.EvWrite c req (Some e) :: Relay.EvProbe c probe :: Relay.world s))
      with n by reflexivity.
    destruct (Relay.netDial E n) as [err|].
    + eexists. reflexivity.
    + intros Hw2.
      cbn [Relay.set_localConnection Relay.record Relay.wsc Relay.world Relay.tun localConnection].
      replace (Relay.calls Relay.isWrite
                 (Relay.EvNetDial host None :: Relay.EvWrite c req (Some e) ::
                  Relay.EvProbe c probe :: Relay.world s))
        with (S k) by reflexivity.
      rewrite Hw2. cbn [Go.bind Relay.tun Relay.record Relay.set_localConnection]. rewrite Hchan. cbn [Relay.chanSend Nat.ltb Nat.leb Go.bind].
      eexists. split; reflexivity.
  - intros Hl.
    unfold Relay.processRequest. fold host.
    rewrite (refresh_lost E s host Hc Hl). fold probe. rewrite Hdial.
    destruct (Relay.netDial E n) as [err|].
    + eexists. split; reflexivity.
    + intros Hw.
      cbn [Relay.writeLoop Relay.set_localConnection Relay.record Relay.wsc Relay.world
             Relay.tun localConnection].
      replace (Relay.calls Relay.isWrite
                 (Relay.EvNetDial host None :: Relay.EvProbe c probe :: Relay.world s))
        with k by reflexivity.
      rewrite Hw. cbn [Go.bind Relay.tun Relay.record Relay.set_localConnection]. rewrite Hchan.
      cbn [Relay.chanSend Nat.ltb Nat.leb Go.bind].
      eexists. split; reflexivity.
Qed.

Lemma probe_redials_on_lost_connection_only_witness :
  exists s',
    Relay.processRequest relayRestarted 1 getRequest cachedConnection = Done (None, s') /\
    Relay.world s' =
      [Relay.EvRequestSent;
       Relay.EvWrite 1%nat getRequest None;
       Relay.EvNetDial relayHost None;
       Relay.EvWrite 0%nat getRequest (Some (NetError "write: broken pipe"));
       Relay.EvProbe 0%nat None;
       Relay.EvNetDial relayHost None].
Proof.
  destruct (@probe_redials_on_lost_connection_only relayRestarted cachedConnection 0%nat 1%Z
              getRequest eq_refl (Nat.lt_0_succ 0) ltac:(discriminate) eq_refl)
    as [_ [_ [H _]]].
  exact (H eq_refl _ eq_refl eq_refl).
Defined.

(** C6 (the code departs from it): the probe keeps a closed connection
    as reusable.  refreshLocalConnection dials again only when the
    zero-length read reports EOF, a closed pipe or an unexpected EOF; on
    every other result of the read, no error among them, it returns nil with
    the cached connection still installed, whether or not the relay has
    closed it.  On [relayRestarted] the relay has closed the cached
    connection 0 and the zero-length read reports nothing: the probe returns
    nil with connection 0 installed, and the forward writes the request to
    the closed connection before it dials again. *)
Theorem probe_reuses_closed_connection :
  (forall (E : Relay.Env) (host : string) (s : Relay.State) (c : NetConn),
     localConnection (Relay.wsc s) = Some c ->
     let probe := Relay.probeRead E (Relay.calls Relay.isProbe (Relay.world s)) in
     (probe = Some EOF \/ probe = Some ErrClosedPipe \/ probe = Some ErrUnexpectedEOF ->
      Relay.refreshLocalConnection E host false s =
        Relay.dialLocalConnection E (Relay.record (Relay.EvProbe c probe) s)) /\
     (probe <> Some EOF -> probe <> Some ErrClosedPipe -> probe <> Some ErrUnexpectedEOF ->
      Relay.refreshLocalConnection E host false s =
        (None, Relay.record (Relay.EvProbe c probe) s) /\
      localConnection (Relay.wsc (snd (Relay.refreshLocalConnection E host false s))) =
        Some c)) /\
  (localConnection (Relay.wsc cachedConnection) = Some 0%nat /\
   Relay.closedByRelay relayRestarted 0%nat = true /\
   Relay.probeRead relayRestarted 0%nat = None /\
   Relay.refreshLocalConnection relayRestarted relayHost false cachedConnection =
     (None, Relay.record (Relay.EvProbe 0%nat None) cachedConnection) /\
   exists s',
     Relay.processRequest relayRestarted 1 getRequest cachedConnection = Done (None, s') /\
     Relay.world s' =
       [Relay.EvRequestSent;
        Relay.EvWrite 1%nat getRequest None;
        Relay.EvNetDial relayHost None;
        Relay.EvWrite 0%nat getRequest (Some (NetError "write: broken pipe"));
        Relay.EvProbe 0%nat None;
        Relay.EvNetDial relayHost None]) /\
  ~ (forall (E : Relay.Env) (host : string) (s s' : Relay.State) (c : NetConn),
       localConnection (Relay.wsc s) = Some c ->
       Relay.closedByRelay E c = true ->
       Relay.refreshLocalConnection E host false s = (None, s') ->
       localConnection (Relay.wsc s') <> Some c).
Proof.
  split; [|split].
  - intros E host s c Hc probe. split.
    + intros Hlost. apply refresh_lost; [exact Hc|]. fold probe.
      destruct Hlost as [-> | [-> | ->]]; reflexivity.
    + intros H1 H2 H3.
      assert (Hkept : Relay.refreshLocalConnection E host false s =
                      (None, Relay.record (Relay.EvProbe c probe) s)).
      { apply refresh_kept; [exact Hc|]. fold probe.
        destruct probe as [[]|]; try reflexivity; congruence. }
      split; [exact Hkept|]. rewrite Hkept. exact Hc.
  - split; [reflexivity|]. split; [reflexivity|]. split; [reflexivity|].
    split; [reflexivity|]. eexists. split; [vm_compute; reflexivity | reflexivity].
  - intros H.
    apply (H relayRestarted relayHost cachedConnection
             (Relay.record (Relay.EvProbe 0%nat None) cachedConnection) 0%nat);
      reflexivity.
Qed.

(** C10: with an empty LocalRelayServer, dialLocalConnection returns nil and
    installs nothing, and processRequest then calls Write on the nil
    connection; with a non-empty LocalRelayServer processRequest never
    panics. *)
Theorem nil_local_connection_only_with_empty_host :
  forall (E : Relay.Env) (id : Z) (req : list byte) (s : Relay.State),
    (LocalRelayServer (Relay.tun s) = ""%string ->
     localConnection (Relay.wsc s) = None ->
     Relay.dialLocalConnection E s = (None, s) /\
     Relay.processRequest E id req s = Panicked NilDereference) /\
    (LocalRelayServer (Relay.tun s) <> ""%string ->
     forall p, Relay.processRequest E id req s <> Panicked p).
Proof.
  intros E id req s. split.
  - intros Hhost Hc. split.
    + apply dialLocalConnection_empty_host. exact Hhost.
    + apply processRequest_empty_host_panics; assumption.
  - intros Hhost p. apply processRequest_no_panic. exact Hhost.
Qed.

Lemma nil_local_connection_only_with_empty_host_witness :
  (Relay.dialLocalConnection quietRelay emptyHostConnection = (None, emptyHostConnection) /\
   Relay.processRequest quietRelay 1 getRequest emptyHostConnection = Panicked NilDereference) /\
  (forall p, Relay.processRequest quietRelay 1 getRequest freshConnection <> Panicked p).
Proof.
  split.
  - exact (proj1 (@nil_local_connection_only_with_empty_host quietRelay 1%Z getRequest
                    emptyHostConnection) eq_refl eq_refl).
  - exact (proj2 (@nil_local_connection_only_with_empty_host quietRelay 1%Z getRequest
                    freshConnection) ltac:(discriminate)).
Defined.

(** ** The response pump *)

Section ResponsePumpFacts.

Import Relay ResponsePump.

Variable E : Env.

Lemma endSelect_Next (c : ctl) : endSelect c = Next.
Proof. destruct c; reflexivity. Qed.

Lemma requestSentSelect_Next host id (s : State) r :
  requestSentSelect E host id s = Done r -> fst r = Next.
Proof.
  unfold requestSentSelect.
  destruct (0 <? requestSentChan (tun s))%nat.
  - destruct (requestSentCase E host id _) as [r1| | |]; cbn [Go.bind]; try discriminate.
    intros H. inversion H. apply endSelect_Next.
  - intros H. inversion H. reflexivity.
Qed.

Lemma exitSelect_Next (s : State) : fst (exitSelect s) = Next.
Proof.
  unfold exitSelect. destruct (0 <? exitChan (tun s))%nat; reflexivity.
Qed.

(** No iteration of the loop ends in a [break] of the loop: both [break]
    statements stand inside a select. *)
Lemma pumpBody_never_breaks host a id (s : State) r :
  pumpBody E host a id s = Done r -> fst r = Next.
Proof.
  unfold pumpBody.
  destruct (requestSentSelect E host id _) as [r1| | |] eqn:H1; cbn [Go.bind]; try discriminate.
  rewrite (requestSentSelect_Next _ _ _ H1).
  intros H. inversion H. cbn [fst]. apply exitSelect_Next.
Qed.

Lemma pumpLoop_keeps_looping (schedule : list Arrivals) : forall host id (s : State) r,
  pumpLoop E host schedule id s = Done r -> fst r = StillLooping.
Proof.
  induction schedule as [|a rest IH]; intros host id s r; cbn [pumpLoop].
  - intros H. inversion H. reflexivity.
  - destruct (pumpBody E host a id s) as [r1| | |] eqn:Hb; cbn; try discriminate.
    rewrite (pumpBody_never_breaks _ _ _ _ Hb). apply IH.
Qed.

End ResponsePumpFacts.

(** C9 (the code departs from it): the loop of processResponses is never
    left.  Its [break] on the exit signal stands inside a select, which it
    ends; the enclosing [for] goes on.  With the exit signal in exitChan
    before the first iteration the pump receives it and keeps looping. *)
Theorem processResponses_never_returns :
  (forall (E : Relay.Env) (schedule : list ResponsePump.Arrivals) (s : Relay.State),
     match ResponsePump.processResponses E schedule s with
     | Done (how, _) => how = StillLooping
     | _ => True
     end) /\
  exists s',
    ResponsePump.processResponses quietRelay exitThenIdle freshConnection =
      Done (StillLooping, (0%Z, s')) /\
    exitChan (Relay.tun s') = 0%nat.
Proof.
  split.
  - intros E schedule s. unfold ResponsePump.processResponses.
    destruct (ResponsePump.pumpLoop E _ schedule 0 s) as [[how x]| | |] eqn:H; try exact I.
    exact (pumpLoop_keeps_looping _ _ _ _ _ H).
  - eexists. split; [vm_compute; reflexivity | reflexivity].
Qed.

(** ** The session supervisor *)

Section SessionFacts.

Import Session.

Lemma sessionLoop_eq (its : list Iteration) (s : State) :
  sessionLoop its s =
    if (retryOnFailCount (client s) =? maxRetryAttempts)%Z then (Ended LoopLeft, s)
    else
      match its with
      | [] => (Ended StillLooping, s)
      | it :: rest =>
          match dialAndServe it s with
          | inl e => e
          | inr (Break, s) => (Ended LoopLeft, s)
          | inr (Next, s) => sessionLoop rest s
          end
      end.
Proof. destruct its; reflexivity. Qed.

(** The exit check never leaves the loop, and changes neither the count
    nor the record of dials and pump starts. *)
Lemma exitCheck_spec (s : State) :
  fst (exitCheck s) = Next /\
  retryOnFailCount (client (snd (exitCheck s))) = retryOnFailCount (client s) /\
  TheDialer (client (snd (exitCheck s))) = TheDialer (client s) /\
  dials (history (snd (exitCheck s))) = dials (history s) /\
  pumpStarts (history (snd (exitCheck s))) = pumpStarts (history s).
Proof.
  unfold exitCheck. destruct (0 <? exitChan (client s))%nat; cbn; repeat split; reflexivity.
Qed.

Lemma exitCheck_records (s : State) :
  readLimits (history (snd (exitCheck s))) = readLimits (history s) /\
  (startsFollowDials (history s) -> startsFollowDials (history (snd (exitCheck s)))).
Proof.
  unfold exitCheck. destruct (0 <? exitChan (client s))%nat; cbn; split; auto.
Qed.

(** *** One iteration, case by case *)

(** The dial fails: the count goes up by one and the timer is awaited. *)
Lemma dialAndServe_failed (it : Iteration) (s : State) :
  dial_err (dialResult it) <> None ->
  exists s',
    dialAndServe it s = inr (Next, s') /\
    retryOnFailCount (client s') = (retryOnFailCount (client s) + 1)%Z /\
    dials (history s') = false :: dials (history s) /\
    pumpStarts (history s') = pumpStarts (history s) /\
    readLimits (history s') = readLimits (history s) /\
    (startsFollowDials (history s) -> startsFollowDials (history s')).
Proof.
  intros Herr. unfold dialAndServe.
  destruct (dial_err (dialResult it)) as [err|]; [|contradiction].
  match goal with
  | |- context [exitCheck ?x] =>
      pose proof (exitCheck_spec x) as Hx; pose proof (exitCheck_records x) as Hy;
      destruct (exitCheck x) as [c0 s0]
  end.
  cbn in Hx, Hy. destruct Hx as (Hc & Hr & _ & Hd & Hp). destruct Hy as (Hl & Hf). subst c0.
  exists s0. repeat split; assumption.
Qed.

(** The dial succeeds and handleRequests returns. *)
Lemma dialAndServe_session (it : Iteration) (s : State) (c : WSConn) (eff : PumpEffect) :
  dial_err (dialResult it) = None ->
  dial_ws (dialResult it) = Some c ->
  pumpResult it = Done eff ->
  let started :=
    set_retryOnFailCount
      (set_Connected (set_conn (client s) (Some {| ws := c; localConnection := None |})) true) 0 in
  exists s',
    dialAndServe it s = inr (Next, s') /\
    retryOnFailCount (client s') = 0%Z /\
    dials (history s') = true :: dials (history s) /\
    pumpStarts (history s') = started :: pumpStarts (history s) /\
    readLimits (history s') = (c, (100 * 1024 * 1024)%Z) :: readLimits (history s) /\
    (startsFollowDials (history s) -> startsFollowDials (history s')).
Proof.
  intros Herr Hws Hpump started. unfold dialAndServe. rewrite Herr, Hws, Hpump.
  match goal with
  | |- context [exitCheck ?x] =>
      pose proof (exitCheck_spec x) as Hx; pose proof (exitCheck_records x) as Hy;
      destruct (exitCheck x) as [c0 s0]
  end.
  cbn in Hx, Hy. destruct Hx as (Hc & Hr & _ & Hd & Hp). destruct Hy as (Hl & Hf). subst c0.
  exists s0. repeat split; try assumption.
  intros H. apply Hf. repeat split. exact H.
Qed.

(** The dial succeeds and handleRequests does not return: the result is
    the client the pump was started with. *)
Lemma dialAndServe_running (it : Iteration) (s : State) (c : WSConn) :
  dial_err (dialResult it) = None ->
  dial_ws (dialResult it) = Some c ->
  (forall eff, pumpResult it <> Done eff) ->
  let started :=
    set_retryOnFailCount
      (set_Connected (set_conn (client s) (Some {| ws := c; localConnection := None |})) true) 0 in
  exists e,
    dialAndServe it s =
      inl (e, {| client := started;
                 history := EvHandleRequests started ::
                            EvSetReadLimit c (100 * 1024 * 1024) ::
                            EvDial (DestURL (client s)) true :: history s |}) /\
    (forall how, e <> Ended how).
Proof.
  intros Herr Hws Hpump started. unfold dialAndServe. rewrite Herr, Hws.
  destruct (pumpResult it) as [eff|p|code|] eqn:Hp.
  - exfalso. exact (Hpump eff eq_refl).
  - exists (Crashed p). split; [reflexivity | discriminate].
  - exists PumpNeverReturned. split; [reflexivity | discriminate].
  - exists PumpNeverReturned. split; [reflexivity | discriminate].
Qed.

(** Whatever becomes of the session, the dial of the iteration is made
    and recorded with its result. *)
Lemma dialAndServe_dials (it : Iteration) (s : State) :
  dials (history (reached (dialAndServe it s))) = dialSucceeded it :: dials (history s).
Proof.
  unfold dialSucceeded.
  destruct (dial_err (dialResult it)) as [err|] eqn:Herr.
  - destruct (@dialAndServe_failed it s) as (s' & -> & _ & Hd & _).
    + rewrite Herr. discriminate.
    + exact Hd.
  - destruct (dial_ws (dialResult it)) as [c|] eqn:Hws.
    + destruct (pumpResult it) as [eff|p|code|] eqn:Hp.
      * destruct (@dialAndServe_session it s c eff Herr Hws Hp) as (s' & -> & _ & Hd & _).
        exact Hd.
      * destruct (@dialAndServe_running it s c Herr Hws) as (e & -> & _);
          [rewrite Hp; discriminate | reflexivity].
      * destruct (@dialAndServe_running it s c Herr Hws) as (e & -> & _);
          [rewrite Hp; discriminate | reflexivity].
      * destruct (@dialAndServe_running it s c Herr Hws) as (e & -> & _);
          [rewrite Hp; discriminate | reflexivity].
    + unfold dialAndServe. rewrite Herr, Hws. reflexivity.
Qed.

(** An iteration keeps the invariant, ends in [Next] when its session
    comes back, and otherwise ends the run with a count below the
    ceiling. *)
Lemma dialAndServe_invariant (it : Iteration) (s : State) :
  invariant s ->
  retryOnFailCount (client s) <> maxRetryAttempts ->
  match dialAndServe it s with
  | inl (e, s') =>
      invariant s' /\ retryOnFailCount (client s') <> maxRetryAttempts /\
      (forall how, e <> Ended how)
  | inr (c, s') =>
      c = Next /\ invariant s' /\
      (retryOnFailCount (client s) = recentFailures (dials (history s)) ->
       retryOnFailCount (client s') = recentFailures (dials (history s')))
  end.
Proof.
  intros (Hrange & Hstarts & Hfollow) Hne. unfold maxRetryAttempts in *.
  destruct (dial_err (dialResult it)) as [err|] eqn:Herr.
  - destruct (@dialAndServe_failed it s) as (s' & -> & Hr & Hd & Hp & _ & Hf).
    + rewrite Herr. discriminate.
    + split; [reflexivity|]. split.
      * unfold invariant, maxRetryAttempts. rewrite Hr, Hp. repeat split; auto; lia.
      * intros Hcount. rewrite Hr, Hd, Hcount. cbn [recentFailures]. lia.
  - destruct (dial_ws (dialResult it)) as [c|] eqn:Hws.
    + destruct (pumpResult it) as [eff|p|code|] eqn:Hp.
      * destruct (@dialAndServe_session it s c eff Herr Hws Hp)
          as (s' & -> & Hr & Hd & Hps & _ & Hf).
        split; [reflexivity|]. split.
        -- unfold invariant, maxRetryAttempts. rewrite Hr, Hps. repeat split; auto; try lia.
           constructor; [|exact Hstarts]. unfold served. cbn. repeat split. eexists. reflexivity.
        -- intros _. rewrite Hr, Hd. reflexivity.
      * destruct (@dialAndServe_running it s c Herr Hws) as (e & -> & He);
          [rewrite Hp; discriminate|].
        split; [|split; [cbn; lia | exact He]].
        unfold invariant, maxRetryAttempts. cbn. repeat split; try lia; auto.
        constructor; [|exact Hstarts]. unfold served. cbn. repeat split. eexists. reflexivity.
      * destruct (@dialAndServe_running it s c Herr Hws) as (e & -> & He);
          [rewrite Hp; discriminate|].
        split; [|split; [cbn; lia | exact He]].
        unfold invariant, maxRetryAttempts. cbn. repeat split; try lia; auto.
        constructor; [|exact Hstarts]. unfold served. cbn. repeat split. eexists. reflexivity.
      * destruct (@dialAndServe_running it s c Herr Hws) as (e & -> & He);
          [rewrite Hp; discriminate|].
        split; [|split; [cbn; lia | exact He]].
        unfold invariant, maxRetryAttempts. cbn. repeat split; try lia; auto.
        constructor; [|exact Hstarts]. unfold served. cbn. repeat split. eexists. reflexivity.
    + unfold dialAndServe. rewrite Herr, Hws.
      split; [|split; [cbn; exact Hne | discriminate]].
      unfold invariant, maxRetryAttempts. cbn. repeat split; auto; lia.
Qed.

Lemma dialAndServe_crash_or_next (it : Iteration) (s : State) :
  match dialAndServe it s with
  | inl (e, _) => forall how, e <> Ended how
  | inr (c, _) => c = Next
  end.
Proof.
  unfold dialAndServe.
  destruct (dial_err (dialResult it)).
  - match goal with
    | |- context [exitCheck ?x] =>
        pose proof (proj1 (exitCheck_spec x)) as Hx; destruct (exitCheck x)
    end.
    exact Hx.
  - destruct (dial_ws (dialResult it)); [|discriminate].
    destruct (pumpResult it); try discriminate.
    match goal with
    | |- context [exitCheck ?x] =>
        pose proof (proj1 (exitCheck_spec x)) as Hx; destruct (exitCheck x)
    end.
    exact Hx.
Qed.

(** *** The loop *)

Lemma sessionLoop_invariant (its : list Iteration) : forall s,
  invariant s ->
  invariant (snd (sessionLoop its s)) /\
  (fst (sessionLoop its s) = Ended LoopLeft <->
   retryOnFailCount (client (snd (sessionLoop its s))) = maxRetryAttempts).
Proof.
  induction its as [|it rest IH]; intros s Hinv; rewrite sessionLoop_eq;
    destruct (Z.eqb_spec (retryOnFailCount (client s)) maxRetryAttempts) as [Heq|Hne];
    cbn [fst snd]; try (split; [exact Hinv | split; [intros _; exact Heq | reflexivity]]).
  - split; [exact Hinv|]. split; [discriminate | intros H; contradiction].
  - pose proof (dialAndServe_invariant it Hinv Hne) as Hd.
    destruct (dialAndServe it s) as [[e s1]|[c s1]].
    + destruct Hd as (Hinv1 & Hne1 & He). cbn [fst snd]. split; [exact Hinv1|]. split.
      * intros H. exfalso. exact (He _ H).
      * intros H. contradiction.
    + destruct Hd as (-> & Hinv1 & _). apply IH. exact Hinv1.
Qed.

(** When the loop is at its top or left, the count is the number of
    failed dials since the last success. *)
Lemma sessionLoop_count (its : list Iteration) : forall s how,
  invariant s ->
  retryOnFailCount (client s) = recentFailures (dials (history s)) ->
  fst (sessionLoop its s) = Ended how ->
  retryOnFailCount (client (snd (sessionLoop its s))) =
    recentFailures (dials (history (snd (sessionLoop its s)))).
Proof.
  induction its as [|it rest IH]; intros s how Hinv Hcount; rewrite sessionLoop_eq;
    destruct (Z.eqb_spec (retryOnFailCount (client s)) maxRetryAttempts) as [Heq|Hne];
    cbn [fst snd]; try (intros _; exact Hcount).
  pose proof (dialAndServe_invariant it Hinv Hne) as Hd.
  destruct (dialAndServe it s) as [[e s1]|[c s1]].
  - destruct Hd as (_ & _ & He). cbn [fst snd]. intros H. exfalso. exact (He _ H).
  - destruct Hd as (-> & Hinv1 & Hc1). apply IH; [exact Hinv1 | exact (Hc1 Hcount)].
Qed.

(** The dials on record are those of the iterations the loop went
    through, a prefix of [its]. *)
Lemma sessionLoop_dials_prefix (its : list Iteration) : forall s,
  exists n : nat,
    (n <= List.length its)%nat /\
    dials (history (snd (sessionLoop its s))) =
      (outcomes (firstn n its) ++ dials (history s))%list.
Proof.
  induction its as [|it rest IH]; intros s; rewrite sessionLoop_eq;
    destruct (retryOnFailCount (client s) =? maxRetryAttempts)%Z;
    cbn [fst snd]; try (exists 0%nat; split; [apply Nat.le_0_l | reflexivity]).
  pose proof (dialAndServe_dials it s) as Hd.
  pose proof (dialAndServe_crash_or_next it s) as Hc.
  destruct (dialAndServe it s) as [[e s1]|[c s1]]; cbn [reached] in Hd.
  - exists 1%nat. split; [cbn; lia|]. cbn [snd]. rewrite Hd. reflexivity.
  - subst c. destruct (IH s1) as (n & Hn & Hdl).
    exists (S n). split; [cbn; lia|]. rewrite Hdl, Hd.
    unfold outcomes. cbn [firstn map rev]. rewrite <- app_assoc. reflexivity.
Qed.

(** Once the loop is left, further iterations of the outside are not
    looked at: nothing is dialled again. *)
Lemma sessionLoop_left_for_good (its : list Iteration) : forall s more,
  fst (sessionLoop its s) = Ended LoopLeft ->
  sessionLoop (its ++ more) s = sessionLoop its s.
Proof.
  induction its as [|it rest IH]; intros s more; rewrite !sessionLoop_eq;
    destruct (Z.eqb_spec (retryOnFailCount (client s)) maxRetryAttempts) as [Heq|Hne];
    cbn [fst snd]; try reflexivity.
  - discriminate.
  - cbn [app].
    pose proof (dialAndServe_crash_or_next it s) as Hc.
    destruct (dialAndServe it s) as [e|[c s1]]; [reflexivity|].
    subst c. apply IH.
Qed.

(** While the loop is still going, it goes on with the iterations that
    follow. *)
Lemma sessionLoop_app (pre : list Iteration) : forall s rest,
  fst (sessionLoop pre s) = Ended StillLooping ->
  sessionLoop (pre ++ rest) s = sessionLoop rest (snd (sessionLoop pre s)).
Proof.
  induction pre as [|it pre IH]; intros s rest.
  - cbn [app]. rewrite (sessionLoop_eq [] s).
    destruct (retryOnFailCount (client s) =? maxRetryAttempts)%Z; cbn [fst snd];
      [discriminate | reflexivity].
  - rewrite (sessionLoop_eq (it :: pre) s), (sessionLoop_eq ((it :: pre) ++ rest) s).
    destruct (retryOnFailCount (client s) =? maxRetryAttempts)%Z; cbn [fst snd app].
    + discriminate.
    + pose proof (dialAndServe_crash_or_next it s) as Hc.
      destruct (dialAndServe it s) as [[e s1]|[c s1]].
      * cbn [fst]. intros H. exfalso. exact (Hc _ H).
      * subst c. apply IH.
Qed.

Lemma startSession_invariant (t : WSTunnelClient) :
  invariant {| client := set_retryOnFailCount (set_requestSentChan (set_exitChan t 0) 0) 0;
               history := [] |}.
Proof.
  unfold invariant, maxRetryAttempts. cbn. repeat split; try lia. constructor.
Qed.

(** *** The loop and its inputs *)

Lemma sessionLoop_nil (s : State) :
  sessionLoop [] s =
    (Ended (if (retryOnFailCount (client s) =? maxRetryAttempts)%Z
            then LoopLeft else StillLooping), s).
Proof.
  rewrite sessionLoop_eq.
  destruct (retryOnFailCount (client s) =? maxRetryAttempts)%Z; reflexivity.
Qed.

Lemma outcomes_snoc (its : list Iteration) (it : Iteration) :
  outcomes (its ++ [it]) = dialSucceeded it :: outcomes its.
Proof. unfold outcomes. rewrite map_app, rev_app_distr. reflexivity. Qed.

Lemma websockets_snoc (its : list Iteration) (it : Iteration) :
  websockets (its ++ [it]) = (websockets its ++ websockets [it])%list.
Proof. unfold websockets. apply flat_map_app. Qed.

Lemma recentFailures_bound (ds : list bool) :
  (0 <= recentFailures ds <= Z.of_nat (List.length ds))%Z.
Proof.
  induction ds as [|[|] ds IH]; cbn [recentFailures List.length]; lia.
Qed.

Lemma completesb_sound (its : list Iteration) :
  forallb completesb its = true -> Forall completes its.
Proof.
  induction its as [|it its IH]; cbn [forallb]; intros H; [constructor|].
  apply andb_prop in H. destruct H as [Hit Hrest].
  constructor; [|exact (IH Hrest)].
  unfold completesb in Hit. unfold completes. intros Herr. rewrite Herr in Hit.
  destruct (dial_ws (dialResult it)) as [c|]; [|discriminate].
  destruct (pumpResult it) as [eff| | |]; try discriminate.
  split; eexists; reflexivity.
Qed.

Lemma belowCeilingBeforeb_sound (n : nat) (its : list Iteration) :
  belowCeilingBeforeb n its = true -> belowCeilingBefore n its.
Proof.
  unfold belowCeilingBeforeb, belowCeilingBefore. intros H k Hk.
  rewrite forallb_forall in H. apply Z.ltb_lt. apply H. apply in_seq. lia.
Qed.

Lemma Forall_completes_firstn (n : nat) (its : list Iteration) :
  Forall completes its -> Forall completes (firstn n its).
Proof.
  intros H. rewrite <- (firstn_skipn n its) in H. apply Forall_app in H. exact (proj1 H).
Qed.

(** While the sessions come back and the count has not reached the
    ceiling before a dial, the loop goes through all of [its]: it makes
    every dial, the count is the number of failures that end [its], the
    pump is started once for every WebSocket dialled, with that WebSocket
    installed, and every WebSocket dialled has its read limit set. *)
Lemma sessionLoop_follows_inputs (its : list Iteration) : forall s0 : State,
  retryOnFailCount (client s0) = 0%Z ->
  history s0 = [] ->
  Forall completes its ->
  belowCeilingBefore (List.length its) its ->
  let r := sessionLoop its s0 in
  fst r = Ended (if (recentFailures (outcomes its) =? 50)%Z
                 then LoopLeft else StillLooping) /\
  dials (history (snd r)) = outcomes its /\
  retryOnFailCount (client (snd r)) = recentFailures (outcomes its) /\
  map conn (pumpStarts (history (snd r))) =
    rev (map (fun c => Some {| ws := c; localConnection := None |}) (websockets its)) /\
  readLimits (history (snd r)) =
    rev (map (fun c => (c, (100 * 1024 * 1024)%Z)) (websockets its)).
Proof.
  intros s0 Hr0 Hh0.
  induction its as [|it its IH] using rev_ind; intros Hall Hbelow r; subst r.
  - rewrite sessionLoop_eq, Hr0. cbn. rewrite Hh0, Hr0. repeat split; reflexivity.
  - apply Forall_app in Hall. destruct Hall as [Hall Hit]. inversion Hit as [|? ? Hcomp _]; subst.
    assert (Hlen : List.length (its ++ [it]) = S (List.length its)).
    { rewrite length_app. cbn. lia. }
    rewrite Hlen in Hbelow.
    assert (Hpre : forall k, (k <= List.length its)%nat -> firstn k (its ++ [it]) = firstn k its).
    { intros k Hk. rewrite firstn_app. replace (k - List.length its)%nat with 0%nat by lia.
      cbn [firstn]. apply app_nil_r. }
    assert (Hbelow' : belowCeilingBefore (List.length its) its).
    { intros k Hk. rewrite <- (Hpre k) by lia. apply Hbelow. lia. }
    assert (Hlast : (recentFailures (outcomes its) < 50)%Z).
    { pose proof (Hbelow (List.length its) ltac:(lia)) as H.
      rewrite Hpre, firstn_all in H by lia. exact H. }
    destruct (IH Hall Hbelow') as (Hfst & Hdials & Hcount & Hstarts & Hlimits).
    destruct (Z.eqb_spec (recentFailures (outcomes its)) 50) as [Heq|Hne];
      [lia|].
    rewrite (sessionLoop_app its s0 [it] Hfst).
    set (s1 := snd (sessionLoop its s0)) in *.
    rewrite sessionLoop_eq.
    destruct (Z.eqb_spec (retryOnFailCount (client s1)) maxRetryAttempts) as [Heq1|_];
      [unfold maxRetryAttempts in Heq1; rewrite Hcount in Heq1; contradiction|].
    rewrite outcomes_snoc, websockets_snoc, !map_app, !rev_app_distr.
    unfold dialSucceeded, websockets at 1 3. cbn [flat_map].
    destruct (dial_err (dialResult it)) as [err|] eqn:Herr.
    + destruct (@dialAndServe_failed it s1) as (s2 & -> & Hr & Hd & Hp & Hl & _).
      { rewrite Herr. discriminate. }
      assert (Hr' : retryOnFailCount (client s2) = recentFailures (false :: outcomes its)).
      { cbn [recentFailures]. rewrite Hr, Hcount. lia. }
      rewrite sessionLoop_nil. unfold maxRetryAttempts. cbn [fst snd app map rev].
      rewrite Hr', Hd, Hp, Hl, Hdials. repeat split; assumption.
    + destruct (Hcomp Herr) as [[c Hws] [eff Hpump]]. rewrite Hws.
      destruct (@dialAndServe_session it s1 c eff Herr Hws Hpump)
        as (s2 & -> & Hr & Hd & Hp & Hl & _).
      assert (Hr' : retryOnFailCount (client s2) = recentFailures (true :: outcomes its)).
      { exact Hr. }
      rewrite sessionLoop_nil. unfold maxRetryAttempts. cbn [fst snd app map rev].
      rewrite Hr', Hd, Hp, Hl, Hdials.
      cbn [map conn set_retryOnFailCount set_Connected set_conn].
      rewrite Hstarts, Hlimits. repeat split; reflexivity.
Qed.

End SessionFacts.

Section StopFacts.

Import Session.

Lemma repeat_app_cons {A} (x : A) (n : nat) (l : list A) :
  (repeat x n ++ x :: l = x :: repeat x n ++ l)%list.
Proof. induction n as [|n IH]; cbn; [reflexivity | rewrite IH; reflexivity]. Qed.

(** With dials that succeed and sessions that come back, the loop goes on
    whatever exitChan holds. *)
Lemma served_iterations_keep_looping (n : nat) : forall s,
  retryOnFailCount (client s) = 0%Z ->
  fst (sessionLoop (repeat servedIteration n) s) = Ended StillLooping /\
  dials (history (snd (sessionLoop (repeat servedIteration n) s))) =
    (repeat true n ++ dials (history s))%list.
Proof.
  induction n as [|n IH]; intros s Hr; rewrite sessionLoop_eq; rewrite Hr;
    cbn [Z.eqb maxRetryAttempts repeat].
  - split; reflexivity.
  - destruct (@dialAndServe_session servedIteration s 7%nat _ eq_refl eq_refl eq_refl)
      as (s0 & -> & Hr0 & Hdials & _).
    destruct (IH s0 Hr0) as [Hfst Hdl].
    split; [exact Hfst|]. rewrite Hdl, Hdials. apply repeat_app_cons.
Qed.

End StopFacts.

(** C3 (the code departs from it): after Stop the dial loop does not
    terminate.  Its [break] on the exit signal stands inside a select; the
    loop takes the signal out of exitChan at its exit check and goes on
    dialling, once for every further iteration. *)
Theorem Stop_does_not_end_the_dial_loop :
  Session.Stop testedClient = Done stoppedClient /\
  (forall n : nat,
     let r := Session.sessionLoop (repeat servedIteration n)
                {| Session.client := stoppedClient; Session.history := [] |} in
     fst r = Session.Ended StillLooping /\
     Session.dials (Session.history (snd r)) = repeat true n) /\
  (let r := Session.sessionLoop (repeat servedIteration 2)
              {| Session.client := stoppedClient; Session.history := [] |} in
   exitChan (Session.client (snd r)) = 0%nat /\
   count_occ Bool.bool_dec
     (map (fun e => match e with Session.EvExitReceived => true | _ => false end)
        (Session.history (snd r))) true = 1%nat).
Proof.
  split; [reflexivity|]. split.
  - intros n.
    destruct (@served_iterations_keep_looping n
                {| Session.client := stoppedClient; Session.history := [] |}
                eq_refl) as [H1 H2].
    cbn zeta. split; [exact H1|]. rewrite H2. cbn [Session.history Session.dials].
    apply app_nil_r.
  - vm_compute. split; reflexivity.
Qed.

(** C7: the count of failed dials never exceeds 50, and the loop is left
    exactly when it is 50.  In terms of the dials of the run [its]: while
    the sessions come back and fewer than 50 dials in a row have failed at
    every point, the loop is not left and makes every dial of [its]; when
    the [n]th dial is the first to complete 50 failures in a row, the loop
    is left after exactly these [n] dials; the loop is left only when the
    dials it made end with 50 failures in a row; and once left it dials no
    more, whatever follows. *)
Theorem retry_ceiling :
  forall (t : WSTunnelClient) (its : list Session.Iteration),
    let r := Session.startSession t its in
    let s := snd r in
    (0 <= retryOnFailCount (Session.client s) <= 50)%Z /\
    (fst r = Session.Ended LoopLeft <->
     retryOnFailCount (Session.client s) = 50%Z) /\
    (Forall Session.completes its -> Session.belowCeiling its ->
     fst r = Session.Ended StillLooping /\
     Session.dials (Session.history s) = Session.outcomes its /\
     retryOnFailCount (Session.client s) = Session.recentFailures (Session.outcomes its)) /\
    (forall n : nat,
       (n <= List.length its)%nat ->
       Forall Session.completes (firstn n its) ->
       Session.belowCeilingBefore n its ->
       Session.recentFailures (Session.outcomes (firstn n its)) = 50%Z ->
       fst r = Session.Ended LoopLeft /\
       Session.dials (Session.history s) = Session.outcomes (firstn n its)) /\
    (fst r = Session.Ended LoopLeft ->
     exists n : nat,
       (n <= List.length its)%nat /\
       Session.dials (Session.history s) = Session.outcomes (firstn n its) /\
       Session.recentFailures (Session.outcomes (firstn n its)) = 50%Z) /\
    (fst r = Session.Ended LoopLeft ->
     forall more, Session.startSession t (its ++ more) = r).
Proof.
  intros t its r s. subst s r. unfold Session.startSession.
  set (s0 := {| Session.client :=
                  set_retryOnFailCount (set_requestSentChan (set_exitChan t 0) 0) 0;
                Session.history := [] |}).
  destruct (@sessionLoop_invariant its s0 (startSession_invariant t)) as [(Hrange & _) Hiff].
  split; [exact Hrange|]. split; [exact Hiff|]. split; [|split; [|split]].
  - intros Hall Hbelow.
    destruct (@sessionLoop_follows_inputs its s0 eq_refl eq_refl Hall) as (Hfst & Hd & Hc & _).
    { intros k Hk. apply Hbelow. lia. }
    pose proof (Hbelow (List.length its) ltac:(lia)) as Hlast. rewrite firstn_all in Hlast.
    destruct (Z.eqb_spec (Session.recentFailures (Session.outcomes its)) 50);
      [lia|].
    repeat split; assumption.
  - intros n Hn Hall Hbelow Hfifty.
    assert (Hlen : List.length (firstn n its) = n) by (apply firstn_length_le; exact Hn).
    destruct (@sessionLoop_follows_inputs (firstn n its) s0 eq_refl eq_refl Hall)
      as (Hfst & Hd & _).
    { rewrite Hlen. intros k Hk. rewrite firstn_firstn.
      replace (Nat.min k n) with k by lia. apply Hbelow. exact Hk. }
    rewrite Hfifty, Z.eqb_refl in Hfst.
    rewrite <- (firstn_skipn n its) at 1 2.
    rewrite (sessionLoop_left_for_good _ _ _ Hfst). split; assumption.
  - intros Hleft.
    destruct (sessionLoop_dials_prefix its s0) as (n & Hn & Hd).
    cbn [Session.history s0 Session.dials] in Hd. rewrite app_nil_r in Hd.
    exists n. split; [exact Hn|]. split; [exact Hd|].
    rewrite <- Hd.
    rewrite <- (@sessionLoop_count its s0 LoopLeft (startSession_invariant t) eq_refl Hleft).
    exact (proj1 Hiff Hleft).
  - intros Hleft more. apply sessionLoop_left_for_good. exact Hleft.
Qed.

(** Forty-nine refused dials, a session, and fifty refused dials: the
    loop is left after these hundred dials, the dial that would succeed
    afterwards is never made; without the last refused dial the loop is
    still going. *)
Lemma retry_ceiling_witness :
  let its := (repeat refusedIteration 49 ++ servedIteration :: repeat refusedIteration 50 ++
              [servedIteration])%list in
  (fst (Session.startSession testedClient its) = Session.Ended LoopLeft /\
   Session.dials (Session.history (snd (Session.startSession testedClient its))) =
     (repeat false 50 ++ true :: repeat false 49)%list) /\
  (fst (Session.startSession testedClient (firstn 99 its)) = Session.Ended StillLooping /\
   Session.dials (Session.history (snd (Session.startSession testedClient (firstn 99 its)))) =
     (repeat false 49 ++ true :: repeat false 49)%list).
Proof.
  intros its. split.
  - destruct (retry_ceiling testedClient its) as (_ & _ & _ & Hleft & _).
    apply (Hleft 100%nat).
    + vm_compute. repeat constructor.
    + apply completesb_sound. vm_compute. reflexivity.
    + apply belowCeilingBeforeb_sound. vm_compute. reflexivity.
    + vm_compute. reflexivity.
  - destruct (retry_ceiling testedClient (firstn 99 its)) as (_ & _ & Hgoes & _).
    destruct Hgoes as (Hfst & Hd & _).
    + apply completesb_sound. vm_compute. reflexivity.
    + apply belowCeilingBeforeb_sound. vm_compute. reflexivity.
    + split; [exact Hfst | exact Hd].
Defined.

(** Forty-nine refused dials leave the loop running, and a success in
    between clears the count. *)
Lemma fewer_failures_keep_looping :
  fst (Session.startSession testedClient (repeat refusedIteration 49)) =
    Session.Ended StillLooping /\
  fst (Session.startSession testedClient
         (repeat refusedIteration 49 ++ servedIteration :: repeat refusedIteration 49)) =
    Session.Ended StillLooping.
Proof. split; vm_compute; reflexivity. Qed.

(** C8: whenever handleRequests is started the count is 0, Connected is
    true and a connection is installed, and the start comes directly after
    the successful dial and the read limit, with the WebSocket of that dial
    installed.  In terms of the dials of the run [its]: while the sessions
    come back and the ceiling is not reached, the pump is started once for
    every successful dial of [its], in their order, each time with the
    WebSocket that dial returned; and when the pump of a session does not
    come back, the run ends in that session, with the count at 0, Connected
    true and the connection of that dial installed. *)
Theorem pump_starts_after_reset :
  forall (t : WSTunnelClient) (its : list Session.Iteration),
    let r := Session.startSession t its in
    let s := snd r in
    Forall Session.served (Session.pumpStarts (Session.history s)) /\
    Session.startsFollowDials (Session.history s) /\
    (Forall Session.completes its -> Session.belowCeiling its ->
     Session.dials (Session.history s) = Session.outcomes its /\
     map conn (Session.pumpStarts (Session.history s)) =
       rev (map (fun c => Some {| ws := c; localConnection := None |})
              (Session.websockets its))) /\
    (forall (pre more : list Session.Iteration) (it : Session.Iteration) (c : WSConn),
       its = (pre ++ it :: more)%list ->
       Forall Session.completes pre -> Session.belowCeiling pre ->
       dial_err (Session.dialResult it) = None ->
       dial_ws (Session.dialResult it) = Some c ->
       (forall eff, Session.pumpResult it <> Done eff) ->
       (forall how, fst r <> Session.Ended how) /\
       Session.served (Session.client s) /\
       conn (Session.client s) = Some {| ws := c; localConnection := None |} /\
       exists h,
         Session.history s =
           Session.EvHandleRequests (Session.client s) ::
           Session.EvSetReadLimit c (100 * 1024 * 1024) :: h /\
         Session.dials h = true :: Session.outcomes pre).
Proof.
  intros t its r s. subst s r. unfold Session.startSession.
  set (s0 := {| Session.client :=
                  set_retryOnFailCount (set_requestSentChan (set_exitChan t 0) 0) 0;
                Session.history := [] |}).
  destruct (@sessionLoop_invariant its s0 (startSession_invariant t))
    as [(_ & Hstarts & Hfollow) _].
  split; [exact Hstarts|]. split; [exact Hfollow|]. split.
  - intros Hall Hbelow.
    destruct (@sessionLoop_follows_inputs its s0 eq_refl eq_refl Hall)
      as (_ & Hd & _ & Hp & _).
    { intros k Hk. apply Hbelow. lia. }
    split; assumption.
  - intros pre more it c -> Hall Hbelow Herr Hws Hpump.
    destruct (@sessionLoop_follows_inputs pre s0 eq_refl eq_refl Hall)
      as (Hfst & Hd & Hc & _).
    { intros k Hk. apply Hbelow. lia. }
    pose proof (Hbelow (List.length pre) ltac:(lia)) as Hlast. rewrite firstn_all in Hlast.
    destruct (Z.eqb_spec (Session.recentFailures (Session.outcomes pre)) 50)
      as [Heq|Hne]; [lia|].
    rewrite (sessionLoop_app pre s0 (it :: more) Hfst).
    set (s1 := snd (Session.sessionLoop pre s0)) in *.
    rewrite sessionLoop_eq.
    destruct (Z.eqb_spec (retryOnFailCount (Session.client s1)) maxRetryAttempts) as [Heq1|_];
      [unfold maxRetryAttempts in Heq1; rewrite Hc in Heq1; contradiction|].
    destruct (@dialAndServe_running it s1 c Herr Hws Hpump) as (e & -> & He).
    cbn [fst snd Session.client Session.history]. split; [exact He|]. split.
    + unfold Session.served. cbn. repeat split. eexists. reflexivity.
    + split; [reflexivity|]. eexists. split; [reflexivity|].
      cbn [Session.dials]. rewrite Hd. reflexivity.
Qed.

(** Three refused dials, a session that comes back, and a session whose
    pump is still running: the pump was started twice, for the WebSockets 7
    and 9, both times with a count of 0 and Connected true, and the client
    is connected to WebSocket 9. *)
Lemma pump_starts_after_reset_witness :
  let its := (repeat refusedIteration 3 ++ [servedIteration; runningIteration])%list in
  let s := snd (Session.startSession testedClient its) in
  fst (Session.startSession testedClient its) = Session.PumpNeverReturned /\
  map (fun t => (retryOnFailCount t, Connected t, conn t))
    (Session.pumpStarts (Session.history s)) =
    [(0%Z, true, Some {| ws := 9%nat; localConnection := None |});
     (0%Z, true, Some {| ws := 7%nat; localConnection := None |})] /\
  Session.served (Session.client s) /\
  conn (Session.client s) = Some {| ws := 9%nat; localConnection := None |} /\
  Forall Session.served (Session.pumpStarts (Session.history s)).
Proof.
  intros its s.
  destruct (pump_starts_after_reset testedClient its) as (Hserved & _ & _ & Hrunning).
  destruct (Hrunning (repeat refusedIteration 3 ++ [servedIteration])%list []
              runningIteration 9%nat) as (_ & Hs & Hconn & _).
  - subst its. rewrite <- app_assoc. reflexivity.
  - apply completesb_sound. vm_compute. reflexivity.
  - apply belowCeilingBeforeb_sound. vm_compute. reflexivity.
  - reflexivity.
  - reflexivity.
  - discriminate.
  - split; [vm_compute; reflexivity|]. split; [vm_compute; reflexivity|].
    split; [exact Hs|]. split; [exact Hconn | exact Hserved].
Defined.

(** A run with two successful dials after three refused ones starts the
    pump twice, each time with a count of 0. *)
Lemma pump_starts_example :
  map retryOnFailCount
    (Session.pumpStarts
       (Session.history
          (snd (Session.startSession testedClient
                  (repeat refusedIteration 3 ++ [servedIteration; servedIteration]))))) =
    [0%Z; 0%Z].
Proof. vm_compute. reflexivity. Qed.

(* ================================================================== *)
(** * Further properties *)

(** ** TestConnection and the factory *)

Section MoreBootstrapFacts.

Import Bootstrap.
Local Open Scope string_scope.

Variable GetTlsConfig : string -> TLSConfig * option error.
Variable Dial : Dialer -> string -> DialResult.

(** Whatever TestConnection returns, an error leaves DestURL and the
    dialer alone; nil after anything but a 200 does so too. *)
Lemma TestConnection_frame t proxy addr t' r :
  TestConnection GetTlsConfig Dial t proxy addr = Done (t', r) ->
  sameSupervisorFields t t' /\
  (r <> None -> DestURL t' = DestURL t /\ TheDialer t' = TheDialer t).
Proof.
  unfold TestConnection, sameSupervisorFields.
  destruct (Tunnel t =? "").
  { intros H. inversion H; subst. repeat split; reflexivity. }
  destruct (negb _ && negb _)%bool.
  { intros H. inversion H; subst. repeat split; reflexivity. }
  cbn [LocalRelayServer set_Tunnel].
  destruct (LocalRelayServer t =? "").
  { intros H. inversion H; subst. repeat split; reflexivity. }
  destruct (relaySchemeGuard _).
  { intros H. inversion H; subst. repeat split; reflexivity. }
  destruct (GetTlsConfig _) as [tls [e|]]; [discriminate|].
  destruct (dial_resp _) as [resp|]; [|discriminate].
  destruct (StatusCode resp =? StatusOK)%Z.
  - intros H. inversion H; subst. split; [repeat split; reflexivity|].
    intros Hne. contradiction.
  - intros H. inversion H; subst. repeat split; reflexivity.
Qed.

Lemma factory_passes_tunnel_checks serverName localRelay :
  Tunnel (InitializeTunnelClient serverName localRelay) <> "" /\
  HasPrefix (Tunnel (InitializeTunnelClient serverName localRelay)) "wss://" = true.
Proof. split; [discriminate | destruct serverName; reflexivity]. Qed.

End MoreBootstrapFacts.

Section TrimFacts.

Local Open Scope string_scope.

Lemma length_append_slash (s : string) : String.length (s ++ "/") = S (String.length s).
Proof. induction s as [|a s IH]; cbn; [reflexivity | rewrite IH; reflexivity]. Qed.

Lemma substring_last_slash (s : string) : substring (String.length s) 1 (s ++ "/") = "/".
Proof. induction s as [|a s IH]; cbn; [reflexivity | exact IH]. Qed.

Lemma substring_init_slash (s : string) : substring 0 (String.length s) (s ++ "/") = s.
Proof. induction s as [|a s IH]; cbn; [reflexivity | rewrite IH; reflexivity]. Qed.

(** strings.TrimSuffix takes one trailing slash away. *)
Lemma TrimSuffix_append_slash (s : string) : TrimSuffix (s ++ "/") "/" = s.
Proof.
  unfold TrimSuffix, HasSuffix. rewrite length_append_slash.
  cbn [String.length Nat.leb Nat.sub]. rewrite Nat.sub_0_r.
  rewrite substring_last_slash, substring_init_slash. reflexivity.
Qed.

End TrimFacts.

(** X1: whenever TestConnection returns an error, DestURL and the dialer
    are as they were before the call, and so are the fields of the session
    supervisor. *)
Theorem TestConnection_error_keeps_endpoint :
  forall GetTlsConfig Dial t proxy addr t' e,
    Bootstrap.TestConnection GetTlsConfig Dial t proxy addr = Done (t', Some e) ->
    DestURL t' = DestURL t /\ TheDialer t' = TheDialer t /\ sameSupervisorFields t t'.
Proof.
  intros GetTlsConfig Dial t proxy addr t' e H.
  destruct (TestConnection_frame _ _ _ _ _ H) as [Hs Hd].
  destruct (Hd ltac:(discriminate)) as [H1 H2].
  repeat split; try assumption; apply Hs.
Qed.

Lemma TestConnection_error_keeps_endpoint_witness :
  exists t',
    Bootstrap.TestConnection tlsOK (pingAnswers (httpAnswer 503))
      (InitializeTunnelClient "h" "127.0.0.1:8080") None ""%string =
      Done (t', Some ErrBadHandshake) /\
    DestURL t' = ""%string /\ TheDialer t' = None.
Proof.
  eexists. split; [vm_compute; reflexivity|].
  destruct (@TestConnection_error_keeps_endpoint tlsOK (pingAnswers (httpAnswer 503))
              (InitializeTunnelClient "h" "127.0.0.1:8080") None ""%string _ _ eq_refl)
    as (H1 & H2 & _).
  split; [exact H1 | exact H2].
Defined.

(** X4: TestConnection checks the local relay for emptiness before it trims
    the trailing slash: the relay "/" passes, is stored as the empty string,
    and a request forwarded on a connection of that client panics. *)
Theorem TestConnection_accepts_slash_relay :
  forall GetTlsConfig Dial serverName proxy addr tls resp E id req c,
    GetTlsConfig serverName = (tls, None) ->
    (forall d url, dial_resp (Dial d url) = Some resp) ->
    StatusCode resp = 200%Z ->
    exists t',
      Bootstrap.TestConnection GetTlsConfig Dial
        (InitializeTunnelClient serverName "/") proxy addr = Done (t', None) /\
      LocalRelayServer t' = ""%string /\
      Relay.processRequest E id req
        {| Relay.tun := t'; Relay.wsc := {| ws := c; localConnection := None |};
           Relay.world := [] |} = Panicked NilDereference.
Proof.
  intros GetTlsConfig Dial serverName proxy addr tls resp E id req c Htls Hd Hs.
  destruct (factory_passes_tunnel_checks serverName "/") as [Ht Hp].
  pose proof (@TestConnection_with_response GetTlsConfig Dial
                (InitializeTunnelClient serverName "/") proxy addr tls resp
                Ht (or_intror Hp) ltac:(discriminate) Htls (Hd _ _)) as H.
  cbv zeta in H. rewrite Hs in H. cbn [Z.eqb Pos.eqb] in H.
  eexists. split; [exact H|]. split; [reflexivity|].
  apply processRequest_empty_host_panics; reflexivity.
Qed.

Lemma TestConnection_accepts_slash_relay_witness :
  exists t',
    Bootstrap.TestConnection tlsOK (pingAnswers (httpAnswer 200))
      (InitializeTunnelClient "h" "/") None ""%string = Done (t', None) /\
    LocalRelayServer t' = ""%string /\
    Relay.processRequest quietRelay 1 getRequest
      {| Relay.tun := t'; Relay.wsc := {| ws := 0%nat; localConnection := None |};
         Relay.world := [] |} = Panicked NilDereference.
Proof.
  apply (@TestConnection_accepts_slash_relay tlsOK (pingAnswers (httpAnswer 200))
           "h"%string None ""%string 0%nat
           {| StatusCode := 200; Status := ""%string; Body := [] |}
           quietRelay 1%Z getRequest 0%nat).
  - reflexivity.
  - intros d url. reflexivity.
  - reflexivity.
Defined.

(** X5: for a server name written with one trailing slash, a 200 from the
    ping end point makes TestConnection succeed with DestURL
    "wss://<name>/api/v1/edgedevice/connection/tunnel", the slash trimmed,
    and with a dialer of 100 KiB buffers bound to the given address and
    proxy. *)
Theorem TestConnection_trims_trailing_slash :
  forall GetTlsConfig Dial name localRelay proxy addr tls resp,
    localRelay <> ""%string ->
    GetTlsConfig (name ++ "/")%string = (tls, None) ->
    (forall d url, dial_resp (Dial d url) = Some resp) ->
    StatusCode resp = 200%Z ->
    exists t',
      Bootstrap.TestConnection GetTlsConfig Dial
        (InitializeTunnelClient (name ++ "/") localRelay) proxy addr = Done (t', None) /\
      Tunnel t' = ("wss://" ++ name)%string /\
      DestURL t' = ("wss://" ++ name ++ "/api/v1/edgedevice/connection/tunnel")%string /\
      TheDialer t' = Some {| ReadBufferSize := 102400; WriteBufferSize := 102400;
                             TLSClientConfig := tls; NetDialLocalAddr := addr;
                             Proxy := proxy |}.
Proof.
  intros GetTlsConfig Dial name localRelay proxy addr tls resp Hl Htls Hd Hs.
  destruct (factory_passes_tunnel_checks (name ++ "/") localRelay) as [Ht Hp].
  pose proof (@TestConnection_with_response GetTlsConfig Dial
                (InitializeTunnelClient (name ++ "/") localRelay) proxy addr tls resp
                Ht (or_intror Hp) Hl Htls (Hd _ _)) as H.
  cbv zeta in H. rewrite Hs in H. cbn [Z.eqb Pos.eqb] in H.
  eexists. split; [exact H|].
  cbn [Tunnel DestURL TheDialer set_Dialer set_DestURL set_LocalRelayServer set_Tunnel
         InitializeTunnelClient].
  change ("wss://" ++ (name ++ "/"))%string with (("wss://" ++ name) ++ "/")%string.
  rewrite TrimSuffix_append_slash.
  split; [reflexivity|]. split; reflexivity.
Qed.

Lemma TestConnection_trims_trailing_slash_witness :
  exists t',
    Bootstrap.TestConnection tlsOK (pingAnswers (httpAnswer 200))
      (InitializeTunnelClient "h/" "127.0.0.1:8080") None ""%string = Done (t', None) /\
    Tunnel t' = "wss://h"%string /\
    DestURL t' = "wss://h/api/v1/edgedevice/connection/tunnel"%string /\
    TheDialer t' = Some {| ReadBufferSize := 102400; WriteBufferSize := 102400;
                           TLSClientConfig := 0%nat; NetDialLocalAddr := ""%string;
                           Proxy := None |}.
Proof.
  apply (@TestConnection_trims_trailing_slash tlsOK (pingAnswers (httpAnswer 200))
           "h"%string "127.0.0.1:8080"%string None ""%string 0%nat
           {| StatusCode := 200; Status := ""%string; Body := [] |}).
  - discriminate.
  - reflexivity.
  - intros d url. reflexivity.
  - reflexivity.
Defined.

(** ** Framing *)

Section MoreFramingFacts.

Local Open Scope Z_scope.

(** A hexadecimal digit is an ASCII character that is neither space nor
    sign, and its value is below 16. *)
Lemma hexValue_facts (b : byte) (v : Z) :
  hexValue b = Some v ->
  isASCII b = true /\ (code b =? 10) = false /\ isSpace b = false /\
  isSign b = false /\ 0 <= v < 16.
Proof.
  destruct b; intros H; vm_compute in H; try discriminate H;
    injection H as <-; repeat split; try reflexivity; try discriminate.
Qed.

Lemma land_low16 (v : Z) : 0 <= v < 65536 -> Z.land v (2 ^ 16 - 1) = v.
Proof.
  intros H. change (2 ^ 16 - 1) with (Z.ones 16).
  rewrite Z.land_ones by lia. apply Z.mod_small. exact H.
Qed.

Lemma signExtend16_fits (v : Z) :
  0 <= v < 65536 -> (signExtend 16 v =? v) = (v <? 32768).
Proof.
  intros H. unfold signExtend. rewrite land_low16 by exact H.
  change (2 ^ (16 - 1)) with 32768. change (2 ^ 16) with 65536.
  destruct (v <? 32768) eqn:Hlt.
  - apply Z.eqb_refl.
  - apply Z.eqb_neq. lia.
Qed.

(** The result of the sign extension to 16 bits is an int16. *)
Lemma signExtend16_range (i : Z) : -32768 <= signExtend 16 i <= 32767.
Proof.
  unfold signExtend. change (2 ^ 16 - 1) with (Z.ones 16).
  rewrite Z.land_ones by lia.
  change (2 ^ (16 - 1)) with 32768. change (2 ^ 16) with 65536.
  pose proof (Z.mod_pos_bound i 65536 ltac:(lia)) as Hm.
  destruct (i mod 65536 <? 32768) eqn:Hlt.
  - apply Z.ltb_lt in Hlt. lia.
  - apply Z.ltb_ge in Hlt. lia.
Qed.

Lemma SkipSpace_length (input rest : list byte) :
  SkipSpace input = inr rest -> (List.length rest <= List.length input)%nat.
Proof.
  revert rest. induction input as [|b input IH]; intros rest; cbn [SkipSpace].
  - intros H. inversion H. apply Nat.le_refl.
  - destruct (code b =? 10); [discriminate|].
    destruct (isSpace b).
    + intros H. apply IH in H. cbn [List.length]. lia.
    + intros H. inversion H. apply Nat.le_refl.
Qed.

Lemma acceptDigits_length (input : list byte) : forall acc,
  (List.length (snd (acceptDigits input acc)) <= List.length input)%nat.
Proof.
  induction input as [|b input IH]; intros acc; cbn [acceptDigits].
  - apply Nat.le_refl.
  - destruct (hexValue b).
    + specialize (IH (acc * 16 + z)). cbn [List.length]. lia.
    + apply Nat.le_refl.
Qed.

(** A scan that succeeds has read at least one character, and its value
    is an int16. *)
Lemma scanInt16_consumes (input rest : list byte) (id : Z) :
  scanInt16 input = inr (id, rest) ->
  (List.length rest < List.length input)%nat /\ -32768 <= id <= 32767.
Proof.
  unfold scanInt16.
  destruct (SkipSpace input) as [why|[|b after]] eqn:Hs; try discriminate.
  apply SkipSpace_length in Hs. cbn [List.length] in Hs.
  assert (Hdigits : forall l, match l with
            | [] => @inl scanFailure (Z * list byte) OutOfInput
            | d :: _ =>
                match hexValue d with
                | Some _ =>
                    let '(magnitude, remaining) := acceptDigits l 0 in
                    if signExtend 16 magnitude =? magnitude
                    then inr (magnitude, remaining)
                    else inl IntegerOverflow
                | None => inl ExpectedInteger
                end
            end = inr (id, rest) ->
            (List.length rest < List.length l)%nat /\ -32768 <= id <= 32767).
  { intros [|d l]; [discriminate|].
    cbn [acceptDigits]. destruct (hexValue d) as [v|]; [|discriminate].
    pose proof (acceptDigits_length l (0 * 16 + v)) as Hl.
    destruct (acceptDigits l (0 * 16 + v)) as [m r]. cbn [snd] in Hl.
    destruct (signExtend 16 m =? m) eqn:He; [|discriminate].
    intros H. inversion H; subst. apply Z.eqb_eq in He.
    split; [cbn [List.length]; lia|]. rewrite <- He. apply signExtend16_range. }
  destruct (isSign b).
  - destruct (code b =? 45).
    + destruct after as [|d l]; [discriminate|].
      cbn [acceptDigits]. destruct (hexValue d) as [v|]; [|discriminate].
      pose proof (acceptDigits_length l (0 * 16 + v)) as Hl.
      destruct (acceptDigits l (0 * 16 + v)) as [m r]. cbn [snd] in Hl.
      destruct (signExtend 16 (- m) =? - m) eqn:He; [|discriminate].
      intros H. inversion H; subst. apply Z.eqb_eq in He.
      split; [cbn [List.length] in *; lia|]. rewrite <- He. apply signExtend16_range.
    + intros H. apply Hdigits in H. cbn [List.length] in *. lia.
  - intros H. apply (Hdigits (b :: after)) in H. cbn [List.length] in *. lia.
Qed.

End MoreFramingFacts.

(** X6: a message that starts with four hexadecimal digits, in either
    case, decodes to their value and the rest of the message when the value
    is below 32768, and is rejected with an integer overflow otherwise. *)
Theorem decode_four_hex_digits :
  forall (scanNonASCII : list byte -> decoded) (a b c d : byte) (p : list byte)
         (va vb vc vd : Z),
    hexValue a = Some va -> hexValue b = Some vb ->
    hexValue c = Some vc -> hexValue d = Some vd ->
    let v := (((va * 16 + vb) * 16 + vc) * 16 + vd)%Z in
    decode scanNonASCII (a :: b :: c :: d :: p) =
      if (v <? 32768)%Z then Parsed v p else BadId IntegerOverflow.
Proof.
  intros scan a b c d p va vb vc vd Ha Hb Hc Hd v.
  destruct (hexValue_facts _ Ha) as (Aa & Na & Sa & Ga & Ra).
  destruct (hexValue_facts _ Hb) as (Ab & _ & _ & _ & Rb).
  destruct (hexValue_facts _ Hc) as (Ac & _ & _ & _ & Rc).
  destruct (hexValue_facts _ Hd) as (Ad & _ & _ & _ & Rd).
  unfold decode. cbn [firstn forallb]. rewrite Aa, Ab, Ac, Ad. cbn [andb].
  unfold scanInt16. cbn [SkipSpace]. rewrite Na, Sa, Ga, Ha.
  cbn [acceptDigits]. rewrite Ha, Hb, Hc, Hd.
  replace ((((0 * 16 + va) * 16 + vb) * 16 + vc) * 16 + vd)%Z with v by (subst v; ring).
  rewrite signExtend16_fits by (subst v; lia).
  destruct (v <? 32768)%Z; reflexivity.
Qed.

Lemma decode_four_hex_digits_witness :
  decode rejectNonASCII ("0"%byte :: "0"%byte :: "F"%byte :: "f"%byte :: getRequest) =
    Parsed 255 getRequest.
Proof.
  exact (@decode_four_hex_digits rejectNonASCII "0"%byte "0"%byte "F"%byte "f"%byte
           getRequest 0%Z 0%Z 15%Z 15%Z eq_refl eq_refl eq_refl eq_refl).
Defined.

(** X7: when a message with an ASCII header decodes, the id is an int16 and
    the request is the message without its first k bytes, for some k from 1
    to 4: nothing of the payload is changed, and at most four bytes are
    taken for the id. *)
Theorem decode_takes_at_most_four_bytes :
  forall (scanNonASCII : list byte -> decoded) (message request : list byte) (id : Z),
    forallb isASCII (firstn 4 message) = true ->
    decode scanNonASCII message = Parsed id request ->
    (-32768 <= id <= 32767)%Z /\
    exists k, (1 <= k <= 4)%nat /\ request = skipn k message.
Proof.
  intros scan message request id Hascii. unfold decode. rewrite Hascii.
  destruct (scanInt16 (firstn 4 message)) as [why|[i rest]] eqn:Hs; [discriminate|].
  destruct (scanInt16_consumes _ Hs) as [Hlen Hid].
  pose proof (firstn_le_length 4 message) as Hh.
  destruct rest as [|r rest]; intros H; injection H as <- <-; (split; [exact Hid|]).
  - exists (List.length (firstn 4 message)).
    change (List.length (@nil byte)) with 0%nat in Hlen.
    split; [lia | reflexivity].
  - exists (List.length (firstn 4 message) - List.length (r :: rest) + 1)%nat.
    split; [|reflexivity].
    change (List.length (r :: rest)) with (S (List.length rest)) in *. lia.
Qed.

Lemma decode_takes_at_most_four_bytes_witness :
  (-32768 <= 1 <= 32767)%Z /\
  exists k, (1 <= k <= 4)%nat /\ getRequest = skipn k (encode 1 getRequest).
Proof.
  exact (@decode_takes_at_most_four_bytes rejectNonASCII (encode 1 getRequest) getRequest 1%Z
           eq_refl eq_refl).
Defined.

Section WidthFacts.

Local Open Scope Z_scope.

Lemma hexLoop_length_ge (steps : nat) : forall u buf,
  (List.length buf + 1 <= List.length (hexLoop steps u buf))%nat.
Proof.
  induction steps as [|k IH]; intros u buf; cbn [hexLoop].
  - cbn [List.length]. lia.
  - destruct (16 <=? u).
    + specialize (IH (Z.shiftr u 4) (digitChar (Z.land u 15) :: buf)).
      cbn [List.length] in IH. lia.
    + cbn [List.length]. lia.
Qed.

Lemma shiftr4_div (u : Z) : Z.shiftr u 4 = u / 16.
Proof. rewrite Z.shiftr_div_pow2 by lia. reflexivity. Qed.

(** A value of at least 16^j has more than j digits. *)
Lemma hexLoop_length_lower (j : nat) : forall steps u buf,
  (j <= steps)%nat -> 16 ^ Z.of_nat j <= u ->
  (List.length buf + j + 1 <= List.length (hexLoop steps u buf))%nat.
Proof.
  induction j as [|j IH]; intros steps u buf Hj Hu.
  - pose proof (hexLoop_length_ge steps u buf). lia.
  - destruct steps as [|k]; [lia|]. cbn [hexLoop].
    rewrite Nat2Z.inj_succ, Z.pow_succ_r in Hu by lia.
    assert (H16 : 16 <= u).
    { pose proof (Z.pow_pos_nonneg 16 (Z.of_nat j) ltac:(lia) ltac:(lia)). lia. }
    destruct (Z.leb_spec 16 u) as [_|Hlt]; [|lia].
    specialize (IH k (Z.shiftr u 4) (digitChar (Z.land u 15) :: buf) ltac:(lia)).
    rewrite shiftr4_div in *.
    assert (16 ^ Z.of_nat j <= u / 16).
    { apply Z.div_le_lower_bound; lia. }
    specialize (IH H). cbn [List.length] in IH. lia.
Qed.

(** A value below 16^(j+1) has at most j+1 digits. *)
Lemma hexLoop_length_upper (j : nat) : forall steps u buf,
  0 <= u < 16 ^ Z.of_nat (S j) ->
  (List.length (hexLoop steps u buf) <= List.length buf + j + 1)%nat.
Proof.
  induction j as [|j IH]; intros steps u buf Hu.
  - change (16 ^ Z.of_nat 1) with 16 in Hu.
    destruct steps as [|k]; cbn [hexLoop].
    + cbn [List.length]. lia.
    + destruct (Z.leb_spec 16 u) as [Hge|_]; [lia|]. cbn [List.length]. lia.
  - destruct steps as [|k]; cbn [hexLoop].
    + cbn [List.length]. lia.
    + destruct (Z.leb_spec 16 u) as [Hge|_].
      * specialize (IH k (Z.shiftr u 4) (digitChar (Z.land u 15) :: buf)).
        rewrite shiftr4_div in *.
        rewrite (Nat2Z.inj_succ (S j)), Z.pow_succ_r in Hu by lia.
        assert (0 <= u / 16 < 16 ^ Z.of_nat (S j)).
        { split; [apply Z.div_pos; lia | apply Z.div_lt_upper_bound; lia]. }
        specialize (IH H). cbn [List.length] in IH. lia.
      * cbn [List.length]. lia.
Qed.

End WidthFacts.

(** X8: for an id that is not negative, [%04x] prints at least four
    characters, and exactly four if and only if the id is at most 65535:
    from the 65537th response of a session on, the id field of the response
    frame is wider than four characters. *)
Theorem Sprintf04x_width :
  forall id : Z,
    (0 <= id)%Z ->
    (4 <= List.length (Sprintf04x id))%nat /\
    (List.length (Sprintf04x id) = 4%nat <-> (id <= 65535)%Z).
Proof.
  intros id Hid. unfold Sprintf04x, hexDigits.
  destruct (Z.ltb_spec id 0) as [Hneg|_]; [lia|].
  rewrite Z.abs_eq by exact Hid.
  rewrite length_app, repeat_length.
  split; [lia|]. split.
  - intros Hlen.
    destruct (Z.le_gt_cases id 65535) as [Hle|Hgt]; [exact Hle|].
    pose proof (@hexLoop_length_lower 4 15 id [] ltac:(lia)) as Hlow.
    change (16 ^ Z.of_nat 4)%Z with 65536%Z in Hlow.
    specialize (Hlow ltac:(lia)). cbn [List.length] in Hlow. lia.
  - intros Hle.
    pose proof (@hexLoop_length_upper 3 15 id []) as Hup.
    change (16 ^ Z.of_nat 4)%Z with 65536%Z in Hup.
    specialize (Hup ltac:(lia)). cbn [List.length] in Hup. lia.
Qed.

Lemma Sprintf04x_width_witness :
  (4 <= List.length (Sprintf04x 65536))%nat /\
  (List.length (Sprintf04x 65536) = 4%nat <-> (65536 <= 65535)%Z).
Proof.
  apply (@Sprintf04x_width 65536%Z). lia.
Defined.

(** ** The local relay connector *)

Section MoreRelayFacts.

Import Relay.
Local Open Scope string_scope.

Variable E : Env.

Lemma quiet_refl (s : State) : quiet s s.
Proof. repeat split. Qed.

Lemma quiet_trans (s1 s2 s3 : State) : quiet s1 s2 -> quiet s2 s3 -> quiet s1 s3.
Proof.
  intros (A1 & B1 & C1) (A2 & B2 & C2). repeat split; congruence.
Qed.

Lemma dialLocalConnection_quiet (s : State) : quiet s (snd (dialLocalConnection E s)).
Proof.
  unfold dialLocalConnection.
  destruct (String.eqb _ _); [apply quiet_refl|].
  destruct (netDial E _); repeat split.
Qed.

Lemma refreshLocalConnection_quiet host force (s : State) :
  quiet s (snd (refreshLocalConnection E host force s)).
Proof.
  unfold refreshLocalConnection.
  destruct (localConnection (wsc s)) as [c|]; [destruct force|];
    try apply dialLocalConnection_quiet.
  destruct (probeRead E _) as [e|]; [|repeat split].
  destruct (lostConnection e); [|repeat split].
  eapply quiet_trans; [|apply dialLocalConnection_quiet]. repeat split.
Qed.

Lemma writeLoop_quiet (left : nat) : forall host req (s : State) r,
  writeLoop E left host req s = Done r -> quiet s (loopFinal r).
Proof.
  induction left as [|left IH]; intros host req s r; cbn [writeLoop].
  - intros H. inversion H. apply quiet_refl.
  - destruct (localConnection (wsc s)) as [c|]; [|discriminate].
    destruct (connWrite E _) as [e|].
    + pose proof (refreshLocalConnection_quiet host true (record (EvWrite c req (Some e)) s))
        as Hq.
      destruct (refreshLocalConnection E host true _) as [[err|] s1]; cbn [snd] in Hq.
      * intros H. inversion H. cbn [loopFinal].
        eapply quiet_trans; [|exact Hq]. repeat split.
      * intros H. apply IH in H.
        eapply quiet_trans; [|exact H]. eapply quiet_trans; [|exact Hq]. repeat split.
    + intros H. inversion H. repeat split.
Qed.

(** An error of the dial is the error of net.Dial, recorded last. *)
Lemma dialLocalConnection_error (s s' : State) (err : error) :
  dialLocalConnection E s = (Some err, s') ->
  LocalRelayServer (tun s) <> "" /\
  netDial E (calls isNetDial (world s)) = Some err /\
  s' = record (EvNetDial (LocalRelayServer (tun s)) (Some err)) s.
Proof.
  unfold dialLocalConnection.
  destruct (String.eqb_spec (LocalRelayServer (tun s)) "") as [Heq|Hne]; [discriminate|].
  destruct (netDial E _) as [e|]; intros H; inversion H; subst. repeat split. exact Hne.
Qed.

Lemma refreshLocalConnection_error host force (s s' : State) (err : error) :
  refreshLocalConnection E host force s = (Some err, s') ->
  exists w, world s' = EvNetDial (LocalRelayServer (tun s)) (Some err) :: w.
Proof.
  unfold refreshLocalConnection.
  destruct (localConnection (wsc s)) as [c|]; [destruct force|].
  - intros H. apply dialLocalConnection_error in H. destruct H as (_ & _ & ->).
    eexists. reflexivity.
  - destruct (probeRead E _) as [e|]; [|discriminate].
    destruct (lostConnection e); [|discriminate].
    intros H. apply dialLocalConnection_error in H. destruct H as (_ & _ & ->).
    eexists. reflexivity.
  - intros H. apply dialLocalConnection_error in H. destruct H as (_ & _ & ->).
    eexists. reflexivity.
Qed.

Lemma writeLoop_error (left : nat) : forall host req (s s' : State) err,
  writeLoop E left host req s = Done (inl (err, s')) ->
  exists w, world s' = EvNetDial (LocalRelayServer (tun s)) (Some err) :: w.
Proof.
  induction left as [|left IH]; intros host req s s' err; cbn [writeLoop].
  - discriminate.
  - destruct (localConnection (wsc s)) as [c|]; [|discriminate].
    destruct (connWrite E _) as [e|]; [|discriminate].
    pose proof (refreshLocalConnection_quiet host true (record (EvWrite c req (Some e)) s))
      as Hq.
    destruct (refreshLocalConnection E host true _) as [[err1|] s1] eqn:Hr; cbn [snd] in Hq.
    + intros H. inversion H; subst.
      apply refreshLocalConnection_error in Hr. exact Hr.
    + intros H. apply IH in H. destruct Hq as (Ht & _). rewrite Ht in H. exact H.
Qed.

(** What a refresh records holds no write. *)
Lemma refreshLocalConnection_events host force (s : State) :
  exists pre,
    world (snd (refreshLocalConnection E host force s)) = (pre ++ world s)%list /\
    Forall (fun e => isWrite e = false) pre.
Proof.
  assert (Hd : forall s0 : State, exists pre,
             world (snd (dialLocalConnection E s0)) = (pre ++ world s0)%list /\
             Forall (fun e => isWrite e = false) pre).
  { intros s0. unfold dialLocalConnection.
    destruct (String.eqb _ _); [exists []; split; [reflexivity | constructor]|].
    destruct (netDial E _); eexists [_]; (split; [reflexivity | repeat constructor]). }
  unfold refreshLocalConnection.
  destruct (localConnection (wsc s)) as [c|]; [destruct force|]; try apply Hd.
  destruct (probeRead E _) as [e|].
  - destruct (lostConnection e).
    + destruct (Hd (record (EvProbe c (Some e)) s)) as (pre & Hw & Hall).
      exists (pre ++ [EvProbe c (Some e)])%list. split.
      * rewrite Hw. cbn [record world]. rewrite <- app_assoc. reflexivity.
      * apply Forall_app. split; [exact Hall | repeat constructor].
    + eexists [_]. split; [reflexivity | repeat constructor].
  - eexists [_]. split; [reflexivity | repeat constructor].
Qed.

(** The write loop records its attempts and nothing else. *)
Lemma writeLoop_attempts (left : nat) : forall host req (s : State) r,
  LocalRelayServer (tun s) <> "" ->
  writeLoop E left host req s = Done r ->
  exists new,
    world (loopFinal r) = (rev new ++ world s)%list /\
    attempts (LocalRelayServer (tun s)) req new (loopError r).
Proof.
  induction left as [|left IH]; intros host req s r Hhost; cbn [writeLoop].
  - intros H. inversion H. exists []. split; [reflexivity | constructor].
  - destruct (localConnection (wsc s)) as [c|] eqn:Hc; [|discriminate].
    destruct (connWrite E _) as [e|].
    + unfold refreshLocalConnection. cbn [record wsc]. rewrite Hc.
      rewrite dial_unfold by exact Hhost. cbn [record tun world].
      destruct (netDial E _) as [err|].
      * intros H. inversion H. cbn [loopFinal loopError].
        eexists [_; _]. split; [reflexivity | constructor].
      * intros H. apply IH in H; [|exact Hhost].
        destruct H as (new & Hw & Hatt). cbn [set_localConnection record world tun] in Hw, Hatt.
        exists (EvWrite c req (Some e) :: EvNetDial (LocalRelayServer (tun s)) None :: new).
        split.
        -- rewrite Hw. cbn [rev]. rewrite <- !app_assoc. reflexivity.
        -- constructor. exact Hatt.
    + intros H. inversion H. cbn [loopFinal loopError].
      eexists [_]. split; [reflexivity | constructor].
Qed.

End MoreRelayFacts.

(** X9: a forward writes the payload to the local relay at most three
    times, and writes nothing else. *)
Theorem forward_writes_at_most_three :
  forall (E : Relay.Env) (id : Z) (req : list byte) (s s' : Relay.State) (r : option error),
    Relay.processRequest E id req s = Done (r, s') ->
    exists ws,
      filter Relay.isWrite (Relay.world s') = (ws ++ filter Relay.isWrite (Relay.world s))%list /\
      (List.length ws <= 3)%nat /\
      Forall (fun e => match e with Relay.EvWrite _ q _ => q = req | _ => False end) ws.
Proof.
  intros E id req s s' r H. exact (processRequest_at_most_three_writes _ _ _ _ H).
Qed.

Lemma forward_writes_at_most_three_witness :
  exists ws,
    filter Relay.isWrite
      [Relay.EvRequestSent; Relay.EvWrite 1%nat getRequest None;
       Relay.EvNetDial relayHost None;
       Relay.EvWrite 0%nat getRequest (Some (NetError "write: broken pipe"));
       Relay.EvProbe 0%nat None; Relay.EvNetDial relayHost None] =
      (ws ++ filter Relay.isWrite (Relay.world cachedConnection))%list /\
    (List.length ws <= 3)%nat /\
    Forall (fun e => match e with Relay.EvWrite _ q _ => q = getRequest | _ => False end) ws.
Proof.
  exact (@forward_writes_at_most_three relayRestarted 1%Z getRequest cachedConnection _ None
           eq_refl).
Defined.

(** X10: the only error a forward returns is the error of a failed
    net.Dial to the local relay, which is then the last thing recorded; the
    client is unchanged and no request-sent signal was sent. *)
Theorem forward_error_is_dial_failure :
  forall (E : Relay.Env) (id : Z) (req : list byte) (s s' : Relay.State) (err : error),
    Relay.processRequest E id req s = Done (Some err, s') ->
    Relay.tun s' = Relay.tun s /\
    (exists w, Relay.world s' =
               Relay.EvNetDial (LocalRelayServer (Relay.tun s)) (Some err) :: w) /\
    filter Relay.isRequestSent (Relay.world s') = filter Relay.isRequestSent (Relay.world s).
Proof.
  intros E id req s s' err. unfold Relay.processRequest.
  pose proof (refreshLocalConnection_quiet E (LocalRelayServer (Relay.tun s)) false s) as Hq.
  destruct (Relay.refreshLocalConnection E _ false s) as [[e|] s1] eqn:Hr; cbn [snd] in Hq.
  - intros H. inversion H; subst. destruct Hq as (Ht & _ & Hs).
    split; [exact Ht|]. split; [|exact Hs].
    exact (refreshLocalConnection_error _ _ _ _ Hr).
  - destruct (Relay.writeLoop E 3 _ req s1) as [r| | |] eqn:Hl; cbn [Go.bind]; try discriminate.
    pose proof (writeLoop_quiet _ _ _ _ _ Hl) as Hq2.
    destruct r as [[e2 s2]|s2]; cbn [loopFinal] in Hq2.
    + intros H. inversion H; subst.
      destruct (quiet_trans Hq Hq2) as (Ht & _ & Hs).
      split; [exact Ht|]. split; [|exact Hs].
      pose proof Hl as Hl2. apply writeLoop_error in Hl2. destruct Hl2 as [w Hw].
      destruct Hq as (Ht1 & _). rewrite Ht1 in Hw. exists w. exact Hw.
    + unfold Relay.chanSend. destruct (_ <? _)%nat; cbn [Go.bind]; discriminate.
Qed.

Lemma forward_error_is_dial_failure_witness :
  exists s',
    Relay.processRequest relayDown 1 getRequest freshConnection =
      Done (Some (NetError "dial tcp: connection refused"), s') /\
    Relay.tun s' = relayClient /\
    filter Relay.isRequestSent (Relay.world s') = [].
Proof.
  eexists. split; [reflexivity|].
  destruct (@forward_error_is_dial_failure relayDown 1%Z getRequest freshConnection _ _ eq_refl)
    as (Ht & _ & Hs).
  split; [exact Ht | exact Hs].
Defined.

(** X11: a forward returns nil only after exactly one send on
    requestSentChan, which is the last thing it does; of the client it
    changes nothing but the content of that channel. *)
Theorem forward_success_sends_one_signal :
  forall (E : Relay.Env) (id : Z) (req : list byte) (s s' : Relay.State),
    Relay.processRequest E id req s = Done (None, s') ->
    (exists w, Relay.world s' = Relay.EvRequestSent :: w /\
               filter Relay.isRequestSent w = filter Relay.isRequestSent (Relay.world s)) /\
    Relay.tun s' = set_requestSentChan (Relay.tun s) (requestSentChan (Relay.tun s')).
Proof.
  intros E id req s s'. unfold Relay.processRequest.
  pose proof (refreshLocalConnection_quiet E (LocalRelayServer (Relay.tun s)) false s) as Hq.
  destruct (Relay.refreshLocalConnection E _ false s) as [[e|] s1]; cbn [snd] in Hq;
    [discriminate|].
  destruct (Relay.writeLoop E 3 _ req s1) as [r| | |] eqn:Hl; cbn [Go.bind]; try discriminate.
  pose proof (writeLoop_quiet _ _ _ _ _ Hl) as Hq2.
  destruct r as [[e2 s2]|s2]; cbn [loopFinal] in Hq2; cbv beta iota; [discriminate|].
  destruct (quiet_trans Hq Hq2) as (Ht & _ & Hs).
  unfold Relay.chanSend. rewrite Ht.
  destruct (requestSentChan (Relay.tun s)) as [|n]; cbn [Nat.ltb Nat.leb Go.bind];
    [|discriminate].
  intros H. inversion H; subst. cbn [Relay.tun Relay.record Relay.set_tun Relay.world].
  split.
  - eexists. split; [reflexivity | exact Hs].
  - destruct (Relay.tun s); reflexivity.
Qed.

Lemma forward_success_sends_one_signal_witness :
  exists s' w,
    Relay.processRequest quietRelay 1 getRequest freshConnection = Done (None, s') /\
    Relay.world s' = Relay.EvRequestSent :: w /\
    filter Relay.isRequestSent w = [].
Proof.
  eexists.
  destruct (@forward_success_sends_one_signal quietRelay 1%Z getRequest freshConnection _ eq_refl)
    as ((w & Hw & Hf) & _).
  exists w. split; [reflexivity|]. split; [exact Hw | exact Hf].
Defined.

(** X12: with a non-empty LocalRelayServer, what a forward records after
    its refresh is a chain of write attempts: every failed write is
    followed at once by a net.Dial, a re-dial that succeeds by the next
    write, and a successful write or a failed re-dial ends the chain; the
    signal is recorded last, and only when nil is returned. *)
Theorem forward_attempts_chain :
  forall (E : Relay.Env) (id : Z) (req : list byte) (s s' : Relay.State) (r : option error),
    LocalRelayServer (Relay.tun s) <> ""%string ->
    Relay.processRequest E id req s = Done (r, s') ->
    exists pre new,
      Relay.world s' =
        ((match r with None => [Relay.EvRequestSent] | Some _ => [] end) ++
         rev new ++ pre ++ Relay.world s)%list /\
      Forall (fun e => Relay.isWrite e = false) pre /\
      (attempts (LocalRelayServer (Relay.tun s)) req new r \/ (new = [] /\ r <> None)).
Proof.
  intros E id req s s' r Hhost. unfold Relay.processRequest.
  pose proof (refreshLocalConnection_quiet E (LocalRelayServer (Relay.tun s)) false s) as Hq.
  destruct (refreshLocalConnection_events E (LocalRelayServer (Relay.tun s)) false s)
    as (pre & Hpre & Hall).
  destruct (Relay.refreshLocalConnection E _ false s) as [[e|] s1]; cbn [snd] in Hq, Hpre.
  - intros H. inversion H; subst. exists pre, []. split; [exact Hpre|].
    split; [exact Hall|]. right. split; [reflexivity | discriminate].
  - destruct Hq as (Ht & _).
    destruct (Relay.writeLoop E 3 _ req s1) as [r1| | |] eqn:Hl; cbn [Go.bind]; try discriminate.
    destruct (@writeLoop_attempts E 3 _ req s1 r1 ltac:(rewrite Ht; exact Hhost) Hl)
      as (new & Hw & Hatt).
    rewrite Ht in Hatt. rewrite Hpre in Hw.
    destruct r1 as [[e2 s2]|s2]; cbn [loopFinal loopError] in Hw, Hatt; cbv beta iota.
    + intros H. inversion H; subst. exists pre, new.
      split; [exact Hw|]. split; [exact Hall|]. left. exact Hatt.
    + unfold Relay.chanSend. destruct (_ <? _)%nat; cbn [Go.bind]; [|discriminate].
      intros H. inversion H; subst. exists pre, new.
      cbn [Relay.record Relay.set_tun Relay.world]. rewrite Hw.
      split; [reflexivity|]. split; [exact Hall|]. left. exact Hatt.
Qed.

Lemma forward_attempts_chain_witness :
  exists pre new,
    [Relay.EvRequestSent; Relay.EvWrite 1%nat getRequest None;
     Relay.EvNetDial relayHost None;
     Relay.EvWrite 0%nat getRequest (Some (NetError "write: broken pipe"));
     Relay.EvProbe 0%nat None; Relay.EvNetDial relayHost None] =
      ([Relay.EvRequestSent] ++ rev new ++ pre ++ Relay.world cachedConnection)%list /\
    Forall (fun e => Relay.isWrite e = false) pre /\
    (attempts relayHost getRequest new None \/ (new = [] /\ @None error <> None)).
Proof.
  exact (@forward_attempts_chain relayRestarted 1%Z getRequest cachedConnection _ None
           ltac:(discriminate) eq_refl).
Defined.

(** ** The response pump *)

Section MoreResponsePumpFacts.

Import Relay ResponsePump.
Local Open Scope string_scope.

Variable E : Env.

Lemma dialLocalConnection_connector (s : State) :
  exists pre,
    world (snd (dialLocalConnection E s)) = (pre ++ world s)%list /\
    Forall (fun e => connectorOnly e = true) pre.
Proof.
  unfold dialLocalConnection.
  destruct (String.eqb _ _); [exists []; split; [reflexivity | constructor]|].
  destruct (netDial E _); eexists [_]; (split; [reflexivity | repeat constructor]).
Qed.

Lemma refreshLocalConnection_connector host force (s : State) :
  exists pre,
    world (snd (refreshLocalConnection E host force s)) = (pre ++ world s)%list /\
    Forall (fun e => connectorOnly e = true) pre.
Proof.
  unfold refreshLocalConnection.
  destruct (localConnection (wsc s)) as [c|]; [destruct force|];
    try apply dialLocalConnection_connector.
  destruct (probeRead E _) as [e|].
  - destruct (lostConnection e).
    + destruct (dialLocalConnection_connector (record (EvProbe c (Some e)) s))
        as (pre & Hw & Hall).
      exists (pre ++ [EvProbe c (Some e)])%list. split.
      * rewrite Hw. cbn [record world]. rewrite <- app_assoc. reflexivity.
      * apply Forall_app. split; [exact Hall | repeat constructor].
    + eexists [_]. split; [reflexivity | repeat constructor].
  - eexists [_]. split; [reflexivity | repeat constructor].
Qed.

(** The case of the first select records one round. *)
Lemma requestSentCase_round host id (s : State) c id' s' :
  requestSentCase E host id s = Done (c, (id', s')) ->
  tun s' = tun s /\
  exists new, world s' = (new ++ world s)%list /\ pumpRound id new id'.
Proof.
  unfold requestSentCase.
  pose proof (refreshLocalConnection_quiet E host false s) as Hq.
  destruct (refreshLocalConnection_connector host false s) as (pre & Hw & Hall).
  destruct (refreshLocalConnection E host false s) as [[err|] s1]; cbn [snd] in Hq, Hw.
  - intros H. inversion H; subst. split; [apply Hq|].
    exists pre. split; [exact Hw | constructor; exact Hall].
  - destruct (localConnection (wsc s1)) as [conn|]; [|discriminate].
    destruct (connReadAll E _) as [|b data] eqn:Hdata.
    + cbn [List.length Nat.ltb Nat.leb]. intros H. inversion H; subst.
      split; [apply Hq|].
      exists (EvReadAll conn [] :: pre). cbn [record world]. rewrite Hw.
      split; [reflexivity | constructor; exact Hall].
    + cbn [List.length Nat.ltb Nat.leb]. intros H. inversion H; subst.
      split; [apply Hq|].
      eexists (EvResponse id _ :: EvReadAll conn (b :: data) :: pre).
      cbn [record world]. rewrite Hw.
      split; [reflexivity|]. constructor; [discriminate | exact Hall].
Qed.

Lemma pumpBody_round host a id (s : State) c id' s' :
  pumpBody E host a id s = Done (c, (id', s')) ->
  LocalRelayServer (tun s') = LocalRelayServer (tun s) /\
  exists new, world s' = (new ++ world s)%list /\ pumpRound id new id'.
Proof.
  unfold pumpBody, requestSentSelect.
  match goal with
  | |- context [if ?b then _ else _] => destruct b
  end.
  - match goal with
    | |- context [requestSentCase E host id ?x] =>
        destruct (requestSentCase E host id x) as [[c1 [id1 s1]]| | |] eqn:Hc
    end; cbn [Go.bind fst snd]; try discriminate.
    apply requestSentCase_round in Hc. destruct Hc as (Ht & new & Hw & Hr).
    rewrite endSelect_Next. unfold exitSelect.
    destruct (0 <? exitChan (tun s1))%nat; intros H; inversion H; subst;
      cbn [set_tun tun world] in *; (split; [rewrite Ht; reflexivity|]);
      exists new; (split; [exact Hw | exact Hr]).
  - cbn [Go.bind fst snd]. unfold exitSelect.
    match goal with
    | |- context [if ?b then _ else _] => destruct b
    end; intros H; inversion H; subst; cbn [set_tun tun world];
      (split; [reflexivity|]); exists []; (split; [reflexivity | repeat constructor]).
Qed.

Lemma pumpLoop_rounds (schedule : list Arrivals) :
  forall host id (s : State) how id' s' id0 earlier w0,
    pumpLoop E host schedule id s = Done (how, (id', s')) ->
    world s = (earlier ++ w0)%list ->
    pumpRounds id0 earlier id ->
    LocalRelayServer (tun s') = LocalRelayServer (tun s) /\
    exists new, world s' = (new ++ w0)%list /\ pumpRounds id0 new id'.
Proof.
  induction schedule as [|a rest IH]; intros host id s how id' s' id0 earlier w0;
    cbn [pumpLoop].
  - intros H Hw Hr. inversion H; subst. split; [reflexivity|].
    exists earlier. split; assumption.
  - destruct (pumpBody E host a id s) as [[c [id1 s1]]| | |] eqn:Hb; cbn [Go.bind fst snd];
      try discriminate.
    pose proof (pumpBody_never_breaks _ _ _ _ _ Hb) as Hc. cbn [fst] in Hc. subst c.
    apply pumpBody_round in Hb. destruct Hb as (Hhost & new & Hw1 & Hr1).
    intros H Hw Hr.
    destruct (IH host id1 s1 how id' s' id0 (new ++ earlier)%list w0 H) as (Hh & new' & Hw' & Hr').
    + rewrite Hw1, Hw. apply app_assoc.
    + econstructor; eassumption.
    + split; [rewrite Hh; exact Hhost|]. exists new'. split; assumption.
Qed.

(** With a host, no iteration panics. *)
Lemma pumpBody_no_panic host a id (s : State) p :
  LocalRelayServer (tun s) <> "" ->
  pumpBody E host a id s <> Panicked p.
Proof.
  intros Hhost. unfold pumpBody, requestSentSelect.
  match goal with
  | |- context [if ?b then _ else _] => destruct b
  end.
  - unfold requestSentCase.
    match goal with
    | |- context [refreshLocalConnection E host false ?x] =>
        pose proof (@refreshLocalConnection_installs E host false x) as Hi;
        destruct (refreshLocalConnection E host false x) as [[err|] s1]
    end.
    + cbn [Go.bind fst snd]. rewrite endSelect_Next. discriminate.
    + destruct (Hi s1 Hhost eq_refl) as [c Hc]. rewrite Hc.
      destruct (0 <? _)%nat; cbn [Go.bind fst snd]; rewrite endSelect_Next; discriminate.
  - cbn [Go.bind fst snd]. discriminate.
Qed.

Lemma pumpLoop_no_panic (schedule : list Arrivals) : forall host id (s : State) p,
  LocalRelayServer (tun s) <> "" ->
  pumpLoop E host schedule id s <> Panicked p.
Proof.
  induction schedule as [|a rest IH]; intros host id s p Hhost; cbn [pumpLoop].
  - discriminate.
  - pose proof (@pumpBody_no_panic host a id s p Hhost) as Hn.
    destruct (pumpBody E host a id s) as [[c [id1 s1]]| | |] eqn:Hb; cbn [Go.bind fst snd];
      try discriminate; try congruence.
    pose proof (pumpBody_never_breaks _ _ _ _ _ Hb) as Hc. cbn [fst] in Hc. subst c.
    apply pumpBody_round in Hb. destruct Hb as (Hh & _).
    apply IH. rewrite Hh. exact Hhost.
Qed.

End MoreResponsePumpFacts.

Section RoundFacts.

Import Relay ResponsePump.
Local Open Scope Z_scope.

Lemma responseIds_app (w1 w2 : list Event) :
  responseIds (w1 ++ w2) = (responseIds w1 ++ responseIds w2)%list.
Proof.
  induction w1 as [|e w1 IH]; [reflexivity|].
  destruct e; cbn [app responseIds]; rewrite IH; reflexivity.
Qed.

Lemma responseIds_connector (pre : list Event) :
  Forall (fun e => connectorOnly e = true) pre -> responseIds pre = [].
Proof.
  induction 1 as [|e pre He _ IH]; [reflexivity|].
  destruct e; cbn in He; try discriminate; exact IH.
Qed.

Lemma framed_connector_app (pre w : list Event) :
  Forall (fun e => connectorOnly e = true) pre -> framed w -> framed (pre ++ w).
Proof.
  induction 1 as [|e pre He _ IH]; intros Hw; [exact Hw|].
  destruct e; cbn in He; try discriminate; cbn [app framed]; exact (IH Hw).
Qed.

Lemma connector_no_write (pre : list Event) :
  Forall (fun e => connectorOnly e = true) pre ->
  Forall (fun e => isWrite e = false /\ isRequestSent e = false) pre.
Proof.
  induction 1 as [|e pre He _ IH]; constructor; [|exact IH].
  destruct e; cbn in He; try discriminate; split; reflexivity.
Qed.

Lemma writeResponseMessage_cases (id : Z) (data : list byte) (we : WriterEnv) :
  writeResponseMessage id data we = WsClosed \/
  writeResponseMessage id data we = Sent (encode id data).
Proof.
  unfold writeResponseMessage.
  destruct (nextWriterErr we); [left; reflexivity|].
  destruct (writeIdErr we); [left; reflexivity|].
  destruct (copyErr we); [left; reflexivity|].
  destruct (closeErr we); [left; reflexivity | right; reflexivity].
Qed.

(** The sign extension to 64 bits is the identity modulo 2^64. *)
Lemma wrap64_mod (a : Z) : wrap64 a mod 2 ^ 64 = a mod 2 ^ 64.
Proof.
  unfold wrap64, signExtend. change (2 ^ 64 - 1) with (Z.ones 64).
  rewrite Z.land_ones by lia.
  destruct (a mod 2 ^ 64 <? 2 ^ (64 - 1)).
  - apply Z.mod_mod. lia.
  - replace (a mod 2 ^ 64 - 2 ^ 64) with (a mod 2 ^ 64 + (-1) * 2 ^ 64) by ring.
    rewrite Z.mod_add by lia. apply Z.mod_mod. lia.
Qed.

Lemma wrap64_succ (a : Z) : wrap64 (wrap64 a + 1) = wrap64 (a + 1).
Proof.
  assert (H : (wrap64 a + 1) mod 2 ^ 64 = (a + 1) mod 2 ^ 64).
  { rewrite <- Zplus_mod_idemp_l, wrap64_mod, Zplus_mod_idemp_l. reflexivity. }
  unfold wrap64 at 1 3. unfold signExtend. change (2 ^ 64 - 1) with (Z.ones 64).
  rewrite !Z.land_ones by lia. rewrite H. reflexivity.
Qed.

(** Below 2^63 nothing wraps. *)
Lemma wrap64_small (a : Z) : 0 <= a < 2 ^ 63 -> wrap64 a = a.
Proof.
  intros H. unfold wrap64, signExtend. change (2 ^ 64 - 1) with (Z.ones 64).
  rewrite Z.land_ones by lia. rewrite Z.mod_small by lia.
  change (2 ^ (64 - 1)) with (2 ^ 63).
  destruct (Z.ltb_spec a (2 ^ 63)); [reflexivity | lia].
Qed.

Lemma rounds_ids (new : list Event) (id : Z) :
  pumpRounds 0 new id ->
  rev (responseIds new) =
    map (fun k => wrap64 (Z.of_nat k)) (seq 0 (List.length (responseIds new))) /\
  id = wrap64 (Z.of_nat (List.length (responseIds new))).
Proof.
  induction 1 as [|earlier id1 new id2 _ [IHl IHid] Hr].
  - split; reflexivity.
  - rewrite responseIds_app.
    destruct Hr as [pre Hpre | c pre Hpre | c data we pre Hdata Hpre].
    + rewrite (responseIds_connector Hpre). split; assumption.
    + cbn [responseIds]. rewrite (responseIds_connector Hpre). split; assumption.
    + cbn [responseIds]. rewrite (responseIds_connector Hpre).
      cbn [app List.length rev]. rewrite seq_S, map_app, <- IHl. cbn [map Nat.add].
      split.
      * rewrite IHid at 1. reflexivity.
      * rewrite IHid, wrap64_succ, Nat2Z.inj_succ. reflexivity.
Qed.

Lemma rounds_framed (id0 : Z) (new : list Event) (id : Z) :
  pumpRounds id0 new id -> framed new.
Proof.
  induction 1 as [|earlier id1 new id2 _ IH Hr]; [exact I|].
  destruct Hr as [pre Hpre | c pre Hpre | c data we pre Hdata Hpre].
  - apply framed_connector_app; assumption.
  - cbn [app framed]. apply framed_connector_app; assumption.
  - cbn [app framed]. split; [exact Hdata|]. split; [apply writeResponseMessage_cases|].
    apply framed_connector_app; assumption.
Qed.

Lemma rounds_no_write (id0 : Z) (new : list Event) (id : Z) :
  pumpRounds id0 new id ->
  Forall (fun e => isWrite e = false /\ isRequestSent e = false) new.
Proof.
  induction 1 as [|earlier id1 new id2 _ IH Hr]; [constructor|].
  apply Forall_app. split; [|exact IH].
  destruct Hr as [pre Hpre | c pre Hpre | c data we pre Hdata Hpre];
    repeat (constructor; [split; reflexivity|]); apply connector_no_write; exact Hpre.
Qed.

(** What a run of processResponses adds to the record is a sequence of
    rounds that starts with the id 0. *)
Lemma processResponses_rounds (E : Env) schedule (s : State) how id' s' :
  processResponses E schedule s = Done (how, (id', s')) ->
  exists new, world s' = (new ++ world s)%list /\ pumpRounds 0 new id'.
Proof.
  unfold processResponses. intros H.
  destruct (@pumpLoop_rounds E schedule _ 0 s how id' s' 0 [] (world s) H eq_refl
              (rounds_none 0)) as (_ & new & Hw & Hr).
  exists new. split; assumption.
Qed.

End RoundFacts.

(** X13: the responses of one run of processResponses carry the ids 0, 1,
    2, ... in the order in which they are written, whatever the ids of the
    requests were and whether or not the write to the WebSocket succeeded;
    the counter is an int64. *)
Theorem response_ids_count_from_zero :
  forall (E : Relay.Env) (schedule : list ResponsePump.Arrivals) (s s' : Relay.State)
         (how : loopEnd) (id' : Z),
    ResponsePump.processResponses E schedule s = Done (how, (id', s')) ->
    exists new,
      Relay.world s' = (new ++ Relay.world s)%list /\
      rev (responseIds new) =
        map (fun k => ResponsePump.wrap64 (Z.of_nat k))
          (seq 0 (List.length (responseIds new))) /\
      id' = ResponsePump.wrap64 (Z.of_nat (List.length (responseIds new))) /\
      ((Z.of_nat (List.length (responseIds new)) <= 2 ^ 63)%Z ->
       rev (responseIds new) = map Z.of_nat (seq 0 (List.length (responseIds new)))).
Proof.
  intros E schedule s s' how id' H.
  destruct (processResponses_rounds _ _ _ H) as (new & Hw & Hr).
  exists new. split; [exact Hw|].
  destruct (rounds_ids Hr) as [Hids Hid]. split; [exact Hids|]. split; [exact Hid|].
  intros Hsmall. rewrite Hids. apply map_ext_in.
  intros k Hk. apply in_seq in Hk. apply wrap64_small. lia.
Qed.

Lemma response_ids_count_from_zero_witness :
  exists s' new,
    ResponsePump.processResponses relayAnswers twoSignals cachedConnection =
      Done (StillLooping, (2%Z, s')) /\
    Relay.world s' = (new ++ Relay.world cachedConnection)%list /\
    rev (responseIds new) =
      map (fun k => ResponsePump.wrap64 (Z.of_nat k)) (seq 0 (List.length (responseIds new))) /\
    2%Z = ResponsePump.wrap64 (Z.of_nat (List.length (responseIds new))).
Proof.
  eexists.
  destruct (@response_ids_count_from_zero relayAnswers twoSignals cachedConnection _
              StillLooping 2%Z ltac:(vm_compute; reflexivity)) as (new & Hw & Hids & Hid & _).
  exists new. split; [vm_compute; reflexivity|]. split; [exact Hw|]. split; assumption.
Defined.

(** X14: every response processResponses records comes directly after a
    read of the local connection that brought data, and the message handed
    to the WebSocket is the id on four or more hexadecimal characters
    followed by exactly that data, unless the write failed and the WebSocket
    was closed; an empty read produces no response. *)
Theorem responses_frame_what_was_read :
  forall (E : Relay.Env) (schedule : list ResponsePump.Arrivals) (s s' : Relay.State)
         (how : loopEnd) (id' : Z),
    ResponsePump.processResponses E schedule s = Done (how, (id', s')) ->
    exists new, Relay.world s' = (new ++ Relay.world s)%list /\ framed new.
Proof.
  intros E schedule s s' how id' H.
  destruct (processResponses_rounds _ _ _ H) as (new & Hw & Hr).
  exists new. split; [exact Hw|]. exact (rounds_framed Hr).
Qed.

Lemma responses_frame_what_was_read_witness :
  exists s',
    ResponsePump.processResponses relayAnswers twoSignals cachedConnection =
      Done (StillLooping, (2%Z, s')) /\
    exists new, Relay.world s' = (new ++ Relay.world cachedConnection)%list /\ framed new.
Proof.
  eexists. split; [vm_compute; reflexivity|].
  exact (@responses_frame_what_was_read relayAnswers twoSignals cachedConnection _
           StillLooping 2%Z ltac:(vm_compute; reflexivity)).
Defined.

(** X15: processResponses never writes to the local relay and never sends
    on requestSentChan. *)
Theorem response_pump_never_writes_to_relay :
  forall (E : Relay.Env) (schedule : list ResponsePump.Arrivals) (s s' : Relay.State)
         (how : loopEnd) (id' : Z),
    ResponsePump.processResponses E schedule s = Done (how, (id', s')) ->
    exists new,
      Relay.world s' = (new ++ Relay.world s)%list /\
      Forall (fun e => Relay.isWrite e = false /\ Relay.isRequestSent e = false) new.
Proof.
  intros E schedule s s' how id' H.
  destruct (processResponses_rounds _ _ _ H) as (new & Hw & Hr).
  exists new. split; [exact Hw|]. exact (rounds_no_write Hr).
Qed.

Lemma response_pump_never_writes_to_relay_witness :
  exists s',
    ResponsePump.processResponses relayAnswers twoSignals cachedConnection =
      Done (StillLooping, (2%Z, s')) /\
    exists new,
      Relay.world s' = (new ++ Relay.world cachedConnection)%list /\
      Forall (fun e => Relay.isWrite e = false /\ Relay.isRequestSent e = false) new.
Proof.
  eexists. split; [vm_compute; reflexivity|].
  exact (@response_pump_never_writes_to_relay relayAnswers twoSignals cachedConnection _
           StillLooping 2%Z ltac:(vm_compute; reflexivity)).
Defined.

(** X16: with a non-empty LocalRelayServer processResponses never panics;
    with an empty one, no connection installed and a request-sent signal
    at hand, it calls SetReadDeadline on the nil connection in its first
    iteration. *)
Theorem response_pump_panics_only_with_empty_host :
  forall (E : Relay.Env) (a : ResponsePump.Arrivals) (rest : list ResponsePump.Arrivals)
         (s : Relay.State),
    (LocalRelayServer (Relay.tun s) <> ""%string ->
     forall schedule p, ResponsePump.processResponses E schedule s <> Panicked p) /\
    (LocalRelayServer (Relay.tun s) = ""%string ->
     localConnection (Relay.wsc s) = None ->
     arrive (ResponsePump.requestSentArrives a) (requestSentChan (Relay.tun s)) <> 0%nat ->
     ResponsePump.processResponses E (a :: rest) s = Panicked NilDereference).
Proof.
  intros E a rest s. split.
  - intros Hhost schedule p. unfold ResponsePump.processResponses.
    apply pumpLoop_no_panic. exact Hhost.
  - intros Hhost Hc Hsig. unfold ResponsePump.processResponses.
    cbn [ResponsePump.pumpLoop]. unfold ResponsePump.pumpBody, ResponsePump.requestSentSelect.
    cbn [Relay.tun Relay.set_tun requestSentChan set_requestSentChan set_exitChan].
    destruct (arrive (ResponsePump.requestSentArrives a) (requestSentChan (Relay.tun s)))
      as [|n]; [contradiction|].
    cbn [Nat.ltb Nat.leb]. unfold ResponsePump.requestSentCase, Relay.refreshLocalConnection.
    cbn [Relay.wsc Relay.set_tun]. rewrite Hc.
    rewrite dialLocalConnection_empty_host by exact Hhost.
    cbn [Relay.wsc Relay.set_tun]. rewrite Hc. reflexivity.
Qed.

Lemma response_pump_panics_only_with_empty_host_witness :
  (forall schedule p,
     ResponsePump.processResponses quietRelay schedule freshConnection <> Panicked p) /\
  ResponsePump.processResponses quietRelay twoSignals emptyHostConnection =
    Panicked NilDereference.
Proof.
  split.
  - exact (proj1 (@response_pump_panics_only_with_empty_host quietRelay
                    (ResponsePump.mkArrivals true false) [] freshConnection)
             ltac:(discriminate)).
  - exact (proj2 (@response_pump_panics_only_with_empty_host quietRelay
                    (ResponsePump.mkArrivals true false)
                    [ResponsePump.mkArrivals true false] emptyHostConnection)
             eq_refl eq_refl ltac:(discriminate)).
Defined.

(** ** The request pump *)

Section RequestPumpFacts.

Import Relay RequestPump.
Local Open Scope string_scope.

Variable E : Env.
Variable scanNonASCII : list byte -> decoded.

Lemma set_requestSentChan_twice (t : WSTunnelClient) (a b : nat) :
  set_requestSentChan (set_requestSentChan t a) b = set_requestSentChan t b.
Proof. reflexivity. Qed.

Lemma set_requestSentChan_same (t : WSTunnelClient) :
  set_requestSentChan t (requestSentChan t) = t.
Proof. destruct t; reflexivity. Qed.

(** The write loop returns or panics. *)
Lemma writeLoop_returns_or_panics (left : nat) : forall host req (s : State),
  (exists r, writeLoop E left host req s = Done r) \/
  (exists p, writeLoop E left host req s = Panicked p).
Proof.
  induction left as [|left IH]; intros host req s; cbn [writeLoop].
  - left. eexists. reflexivity.
  - destruct (localConnection (wsc s)) as [c|]; [|right; eexists; reflexivity].
    destruct (connWrite E _) as [e|]; [|left; eexists; reflexivity].
    destruct (refreshLocalConnection E host true _) as [[err|] s1];
      [left; eexists; reflexivity | apply IH].
Qed.

(** What a forward that returns did to the client and to the signals. *)
Lemma processRequest_summary id req (s s' : State) (r : option error) :
  processRequest E id req s = Done (r, s') ->
  ws (wsc s') = ws (wsc s) /\
  match r with
  | Some _ =>
      tun s' = tun s /\
      filter isRequestSent (world s') = filter isRequestSent (world s)
  | None =>
      requestSentChan (tun s) = 0%nat /\
      tun s' = set_requestSentChan (tun s) 1 /\
      filter isRequestSent (world s') = EvRequestSent :: filter isRequestSent (world s)
  end.
Proof.
  unfold processRequest.
  pose proof (refreshLocalConnection_quiet E (LocalRelayServer (tun s)) false s) as Hq.
  destruct (refreshLocalConnection E _ false s) as [[e|] s1]; cbn [snd] in Hq.
  - intros H. inversion H; subst. destruct Hq as (Ht & Hw & Hs). repeat split; assumption.
  - destruct (writeLoop E 3 _ req s1) as [r1| | |] eqn:Hl; cbn [Go.bind]; try discriminate.
    pose proof (writeLoop_quiet _ _ _ _ _ Hl) as Hq2.
    destruct (quiet_trans Hq Hq2) as (Ht & Hw & Hs).
    destruct r1 as [[e2 s2]|s2]; cbn [loopFinal] in Ht, Hw, Hs; cbv beta iota.
    + intros H. inversion H; subst. repeat split; assumption.
    + unfold chanSend. rewrite Ht.
      destruct (requestSentChan (tun s)) as [|n]; cbn [Nat.ltb Nat.leb Go.bind];
        [|discriminate].
      intros H. inversion H; subst. cbn [tun wsc record set_tun world filter isRequestSent].
      rewrite Hs. repeat split. exact Hw.
Qed.

(** With a host and an empty requestSentChan a forward returns. *)
Lemma processRequest_returns id req (s : State) :
  LocalRelayServer (tun s) <> "" ->
  requestSentChan (tun s) = 0%nat ->
  exists r s', processRequest E id req s = Done (r, s').
Proof.
  intros Hhost Hchan.
  pose proof (@processRequest_no_panic E id req s) as Hnp.
  unfold processRequest in *.
  pose proof (refreshLocalConnection_quiet E (LocalRelayServer (tun s)) false s) as Hq.
  destruct (refreshLocalConnection E _ false s) as [[e|] s1]; cbn [snd] in Hq.
  - eexists _, _. reflexivity.
  - destruct (writeLoop_returns_or_panics 3 (LocalRelayServer (tun s)) req s1)
      as [[r1 Hl]|[p Hl]]; rewrite Hl in *; cbn [Go.bind] in *.
    + pose proof (writeLoop_quiet _ _ _ _ _ Hl) as Hq2.
      destruct (quiet_trans Hq Hq2) as (Ht & _ & _).
      destruct r1 as [[e2 s2]|s2]; cbn [loopFinal] in Ht; cbv beta iota.
      * eexists _, _. reflexivity.
      * unfold chanSend. rewrite Ht, Hchan. cbn [Nat.ltb Nat.leb Go.bind].
        eexists _, _. reflexivity.
    + exfalso. exact (Hnp p Hhost eq_refl).
Qed.

(** One message: the client keeps all but the content of requestSentChan,
    the connection keeps its WebSocket, at most three writes and one signal
    are added, and those only for a forwarded message. *)
Lemma handleMessage_summary (r : wsRead) (s s' : State) (c : ctl) :
  handleMessage E scanNonASCII r s = Done (c, s') ->
  (c = Break <-> fatal scanNonASCII r = true) /\
  (c = Break -> s' = s) /\
  ws (wsc s') = ws (wsc s) /\
  (exists n, tun s' = set_requestSentChan (tun s) n) /\
  (calls isWrite (world s') <=
     calls isWrite (world s) + (if forwarded scanNonASCII r then 3 else 0))%nat /\
  (calls isRequestSent (world s') <=
     calls isRequestSent (world s) + (if forwarded scanNonASCII r then 1 else 0))%nat.
Proof.
  assert (Hstay : (exists n, tun s = set_requestSentChan (tun s) n)).
  { exists (requestSentChan (tun s)). symmetry. apply set_requestSentChan_same. }
  unfold handleMessage, fatal, forwarded.
  destruct r as [err|mt data serr].
  - intros H. inversion H; subst. repeat split; try reflexivity; try exact Hstay; lia.
  - destruct (mt =? BinaryMessage)%Z; cbn [negb orb andb].
    + destruct (decode scanNonASCII data) as [id request|why].
      * destruct serr as [e|].
        -- intros H. inversion H; subst.
           repeat split; try reflexivity; try exact Hstay; lia.
        -- destruct (0 <? List.length request)%nat.
           ++ destruct (processRequest E id request s) as [[r1 s1]| | |] eqn:Hp;
                cbn [Go.bind snd]; try discriminate.
              intros H. inversion H; subst.
              destruct (processRequest_summary _ _ _ Hp) as (Hws & Hr).
              destruct (processRequest_at_most_three_writes _ _ _ _ Hp)
                as (wsl & Hwr & Hlen & _).
              split; [split; discriminate|]. split; [discriminate|].
              split; [exact Hws|]. unfold calls. rewrite Hwr, length_app.
              destruct r1 as [e|].
              ** destruct Hr as (Ht & Hs). rewrite Hs, Ht.
                 split; [exact Hstay|]. split; lia.
              ** destruct Hr as (_ & Ht & Hs). rewrite Hs. cbn [List.length].
                 split; [eexists; exact Ht|]. split; lia.
           ++ intros H. inversion H; subst.
              split; [split; discriminate|]. split; [discriminate|].
              repeat split; try exact Hstay; lia.
      * intros H. inversion H; subst.
        repeat split; try reflexivity; try exact Hstay; lia.
    + intros H. inversion H; subst.
      repeat split; try reflexivity; try exact Hstay; lia.
Qed.

Lemma requestLoop_summary (script : list Arrival) : forall (s s' : State) (how : loopEnd),
  requestLoop E scanNonASCII script s = Done (how, s') ->
  (how = LoopLeft <-> existsb (fun a => fatal scanNonASCII (read a)) script = true) /\
  ws (wsc s') = ws (wsc s) /\
  (exists n, tun s' = set_requestSentChan (tun s) n) /\
  (calls isWrite (world s') <= calls isWrite (world s) + 3 * forwardedCount scanNonASCII script)%nat /\
  (calls isRequestSent (world s') <=
     calls isRequestSent (world s) + forwardedCount scanNonASCII script)%nat.
Proof.
  induction script as [|a rest IH]; intros s s' how; cbn [requestLoop].
  - intros H. inversion H; subst. unfold forwardedCount. cbn [existsb filter List.length].
    split; [split; discriminate|]. split; [reflexivity|].
    split; [exists (requestSentChan (tun s')); symmetry; apply set_requestSentChan_same|].
    split; lia.
  - match goal with
    | |- context [handleMessage E scanNonASCII (read a) ?x] =>
        destruct (handleMessage E scanNonASCII (read a) x) as [[c s1]| | |] eqn:Hm
    end; cbn [Go.bind fst snd]; try discriminate.
    apply handleMessage_summary in Hm.
    destruct Hm as (Hfatal & _ & Hws & (n & Ht) & Hwr & Hsig).
    cbn [tun wsc world set_tun] in Hws, Ht, Hwr, Hsig.
    unfold forwardedCount in *. cbn [existsb filter].
    destruct c.
    + intros H. apply IH in H.
      destruct H as (Hleft & Hws2 & (n2 & Ht2) & Hwr2 & Hsig2).
      assert (Hnf : fatal scanNonASCII (read a) = false).
      { destruct (fatal scanNonASCII (read a)); [|reflexivity].
        destruct Hfatal as [_ Hf]. discriminate (Hf eq_refl). }
      rewrite Hnf. cbn [orb].
      split; [exact Hleft|]. split; [congruence|].
      split; [exists n2; rewrite Ht2, Ht; reflexivity|].
      destruct (forwarded scanNonASCII (read a)); cbn [List.length]; split; lia.
    + intros H. inversion H; subst.
      rewrite (proj1 Hfatal eq_refl). cbn [orb].
      split; [split; reflexivity|]. split; [exact Hws|].
      split; [exists n; exact Ht|].
      destruct (forwarded scanNonASCII (read a)); cbn [List.length]; split; lia.
Qed.

(** Once the loop is left the rest of the script is not read. *)
Lemma requestLoop_left_for_good (script : list Arrival) : forall (s s' : State) more,
  requestLoop E scanNonASCII script s = Done (LoopLeft, s') ->
  requestLoop E scanNonASCII (script ++ more) s = Done (LoopLeft, s').
Proof.
  induction script as [|a rest IH]; intros s s' more; cbn [requestLoop app].
  - discriminate.
  - match goal with
    | |- context [handleMessage E scanNonASCII (read a) ?x] =>
        destruct (handleMessage E scanNonASCII (read a) x) as [[c s1]| | |]
    end; cbn [Go.bind fst snd]; try discriminate.
    destruct c; [apply IH | intros H; exact H].
Qed.

(** With a host and a response pump that keeps up, the loop neither panics
    nor parks. *)
Lemma requestLoop_returns (script : list Arrival) : forall (s : State),
  LocalRelayServer (tun s) <> "" ->
  (requestSentChan (tun s) <= 1)%nat ->
  Forall (fun a => signalTaken a = true) script ->
  exists how s', requestLoop E scanNonASCII script s = Done (how, s').
Proof.
  induction script as [|a rest IH]; intros s Hhost Hchan Hall; cbn [requestLoop].
  - eexists _, _. reflexivity.
  - inversion Hall as [|a' rest' Ha Hrest]; subst. rewrite Ha. cbn [receive].
    set (s0 := set_tun s (set_requestSentChan (tun s) (requestSentChan (tun s) - 1))).
    assert (Hhost0 : LocalRelayServer (tun s0) <> "") by exact Hhost.
    assert (Hchan0 : requestSentChan (tun s0) = 0%nat).
    { subst s0. cbn [tun set_tun requestSentChan set_requestSentChan]. lia. }
    assert (Hm : exists c s1, handleMessage E scanNonASCII (read a) s0 = Done (c, s1) /\
                              LocalRelayServer (tun s1) <> "" /\
                              (requestSentChan (tun s1) <= 1)%nat).
    { unfold handleMessage.
      destruct (read a) as [err|mt data serr];
        [eexists _, _; split; [reflexivity | split; [exact Hhost0 | lia]]|].
      destruct (negb _);
        [eexists _, _; split; [reflexivity | split; [exact Hhost0 | lia]]|].
      destruct (decode scanNonASCII data) as [id request|why];
        [|eexists _, _; split; [reflexivity | split; [exact Hhost0 | lia]]].
      destruct serr;
        [eexists _, _; split; [reflexivity | split; [exact Hhost0 | lia]]|].
      destruct (0 <? List.length request)%nat;
        [|eexists _, _; split; [reflexivity | split; [exact Hhost0 | lia]]].
      destruct (processRequest_returns id request s0 Hhost0 Hchan0) as (r1 & s1 & Hp).
      rewrite Hp. cbn [Go.bind snd]. eexists _, _. split; [reflexivity|].
      destruct (processRequest_summary _ _ _ Hp) as (_ & Hr).
      destruct r1 as [e|].
      - destruct Hr as (Ht & _). rewrite Ht. split; [exact Hhost0 | lia].
      - destruct Hr as (_ & Ht & _). rewrite Ht.
        cbn [LocalRelayServer requestSentChan set_requestSentChan].
        split; [exact Hhost0 | lia]. }
    destruct Hm as (c & s1 & Hm & Hhost1 & Hchan1). rewrite Hm. cbn [Go.bind fst snd].
    destruct c; [apply IH; assumption | eexists _, _; reflexivity].
Qed.

End RequestPumpFacts.

Lemma handleRequests_frame (E : Relay.Env) (scanNonASCII : list byte -> decoded)
  (script : list RequestPump.Arrival) (s s' : Relay.State) (how : loopEnd)
  (started : list RequestPump.Goroutine) :
  RequestPump.handleRequests E scanNonASCII script s = Done (how, (started, s')) ->
  Relay.tun s' = set_requestSentChan (Relay.tun s) (requestSentChan (Relay.tun s')) /\
  ws (Relay.wsc s') = ws (Relay.wsc s).
Proof.
  unfold RequestPump.handleRequests.
  destruct (RequestPump.requestLoop E scanNonASCII script s) as [[how1 s1]| | |] eqn:Hl;
    cbn [Go.bind fst snd]; try discriminate.
  destruct (requestLoop_summary _ _ _ _ Hl) as (_ & Hws & (n & Ht) & _).
  destruct how1; intros H; inversion H; subst; (split; [|exact Hws]);
    rewrite Ht; reflexivity.
Qed.

(** X17: handleRequests changes nothing of the client but the content of
    requestSentChan, and nothing of its WSConnection but the cached local
    connection. *)
Theorem handleRequests_touches_signal_and_local_connection_only :
  forall (E : Relay.Env) (scanNonASCII : list byte -> decoded)
         (script : list RequestPump.Arrival) (s s' : Relay.State)
         (how : loopEnd) (started : list RequestPump.Goroutine),
    RequestPump.handleRequests E scanNonASCII script s = Done (how, (started, s')) ->
    Relay.tun s' = set_requestSentChan (Relay.tun s) (requestSentChan (Relay.tun s')) /\
    ws (Relay.wsc s') = ws (Relay.wsc s).
Proof.
  intros E scan script s s' how started H. exact (handleRequests_frame _ _ _ _ H).
Qed.

Lemma handleRequests_touches_signal_and_local_connection_only_witness :
  exists started s',
    RequestPump.handleRequests quietRelay rejectNonASCII shortSession freshConnection =
      Done (LoopLeft, (started, s')) /\
    Relay.tun s' = set_requestSentChan relayClient (requestSentChan (Relay.tun s')) /\
    ws (Relay.wsc s') = 0%nat.
Proof.
  eexists _, _. split; [vm_compute; reflexivity|].
  exact (@handleRequests_touches_signal_and_local_connection_only quietRelay rejectNonASCII
           shortSession freshConnection _ LoopLeft _ ltac:(vm_compute; reflexivity)).
Defined.

(** X18: a call of handleRequests that comes to an end has returned
    exactly when a read error, a message that is not binary, an id that
    cannot be scanned or a broken stream arrived; it then starts the delayed
    close, and nothing that arrives later is read. *)
Theorem handleRequests_returns_at_first_fatal_message :
  forall (E : Relay.Env) (scanNonASCII : list byte -> decoded)
         (script : list RequestPump.Arrival) (s s' : Relay.State)
         (how : loopEnd) (started : list RequestPump.Goroutine),
    RequestPump.handleRequests E scanNonASCII script s = Done (how, (started, s')) ->
    (how = LoopLeft <->
     existsb (fun a => fatal scanNonASCII (RequestPump.read a)) script = true) /\
    (how = LoopLeft ->
     In RequestPump.DelayedClose started /\
     forall more,
       RequestPump.handleRequests E scanNonASCII (script ++ more) s =
         Done (how, (started, s'))).
Proof.
  intros E scan script s s' how started. unfold RequestPump.handleRequests.
  destruct (RequestPump.requestLoop E scan script s) as [[how1 s1]| | |] eqn:Hl;
    cbn [Go.bind fst snd]; try discriminate.
  destruct (requestLoop_summary _ _ _ _ Hl) as (Hiff & _).
  destruct how1; intros H; inversion H; subst.
  - split; [exact Hiff|]. intros _. split; [cbn; tauto|].
    intros more. rewrite (@requestLoop_left_for_good E scan script s s' more Hl). reflexivity.
  - split; [exact Hiff|]. discriminate.
Qed.

Lemma handleRequests_returns_at_first_fatal_message_witness :
  exists started s',
    RequestPump.handleRequests quietRelay rejectNonASCII shortSession freshConnection =
      Done (LoopLeft, (started, s')) /\
    In RequestPump.DelayedClose started /\
    forall more,
      RequestPump.handleRequests quietRelay rejectNonASCII (shortSession ++ more)
        freshConnection = Done (LoopLeft, (started, s')).
Proof.
  eexists _, _. split; [vm_compute; reflexivity|].
  exact (proj2 (@handleRequests_returns_at_first_fatal_message quietRelay rejectNonASCII
                  shortSession freshConnection _ LoopLeft _ ltac:(vm_compute; reflexivity))
           eq_refl).
Defined.

(** X19: over a whole call of handleRequests the local relay is written
    to at most three times, and requestSentChan is sent on at most once, for
    every binary message that carries a readable id and a payload that is
    not empty; messages without payload cause neither. *)
Theorem handleRequests_writes_and_signals_are_bounded :
  forall (E : Relay.Env) (scanNonASCII : list byte -> decoded)
         (script : list RequestPump.Arrival) (s s' : Relay.State)
         (how : loopEnd) (started : list RequestPump.Goroutine),
    RequestPump.handleRequests E scanNonASCII script s = Done (how, (started, s')) ->
    (Relay.calls Relay.isWrite (Relay.world s') <=
       Relay.calls Relay.isWrite (Relay.world s) + 3 * forwardedCount scanNonASCII script)%nat /\
    (Relay.calls Relay.isRequestSent (Relay.world s') <=
       Relay.calls Relay.isRequestSent (Relay.world s) + forwardedCount scanNonASCII script)%nat.
Proof.
  intros E scan script s s' how started. unfold RequestPump.handleRequests.
  destruct (RequestPump.requestLoop E scan script s) as [[how1 s1]| | |] eqn:Hl;
    cbn [Go.bind fst snd]; try discriminate.
  destruct (requestLoop_summary _ _ _ _ Hl) as (_ & _ & _ & Hwr & Hsig).
  destruct how1; intros H; inversion H; subst; split; assumption.
Qed.

Lemma handleRequests_writes_and_signals_are_bounded_witness :
  exists started s',
    RequestPump.handleRequests quietRelay rejectNonASCII shortSession freshConnection =
      Done (LoopLeft, (started, s')) /\
    (Relay.calls Relay.isWrite (Relay.world s') <= 0 + 3 * 1)%nat /\
    (Relay.calls Relay.isRequestSent (Relay.world s') <= 0 + 1)%nat.
Proof.
  eexists _, _. split; [vm_compute; reflexivity|].
  exact (@handleRequests_writes_and_signals_are_bounded quietRelay rejectNonASCII
           shortSession freshConnection _ LoopLeft _ ltac:(vm_compute; reflexivity)).
Defined.

(** X20: with a non-empty LocalRelayServer, and a response pump that takes
    each signal before the next one is sent, handleRequests neither panics
    nor stays parked on requestSentChan, whatever arrives and whatever the
    local relay does. *)
Theorem handleRequests_neither_panics_nor_parks :
  forall (E : Relay.Env) (scanNonASCII : list byte -> decoded)
         (script : list RequestPump.Arrival) (s : Relay.State),
    LocalRelayServer (Relay.tun s) <> ""%string ->
    (requestSentChan (Relay.tun s) <= 1)%nat ->
    Forall (fun a => RequestPump.signalTaken a = true) script ->
    exists how started s',
      RequestPump.handleRequests E scanNonASCII script s = Done (how, (started, s')).
Proof.
  intros E scan script s Hhost Hchan Hall. unfold RequestPump.handleRequests.
  destruct (@requestLoop_returns E scan script s Hhost Hchan Hall) as (how & s' & Hl).
  rewrite Hl. cbn [Go.bind fst snd]. destruct how; eexists _, _, _; reflexivity.
Qed.

Lemma handleRequests_neither_panics_nor_parks_witness :
  exists how started s',
    RequestPump.handleRequests (writesFail EOF) rejectNonASCII shortSession freshConnection =
      Done (how, (started, s')).
Proof.
  apply (@handleRequests_neither_panics_nor_parks (writesFail EOF) rejectNonASCII
           shortSession freshConnection).
  - discriminate.
  - apply Nat.le_0_l.
  - repeat constructor.
Defined.

(** ** The session supervisor *)

Section MoreSessionFacts.

Import Session.

Lemma sameConfiguration_refl (t : WSTunnelClient) : sameConfiguration t t.
Proof. repeat split. Qed.

Lemma sameConfiguration_trans (t1 t2 t3 : WSTunnelClient) :
  sameConfiguration t1 t2 -> sameConfiguration t2 t3 -> sameConfiguration t1 t3.
Proof.
  unfold sameConfiguration. intros (A1 & A2 & A3 & A4 & A5 & A6) (B1 & B2 & B3 & B4 & B5 & B6).
  repeat split; congruence.
Qed.

Lemma exitCheck_step (s : State) :
  sameConfiguration (client s) (client (snd (exitCheck s))) /\
  Connected (client (snd (exitCheck s))) = Connected (client s) /\
  (exists new, history (snd (exitCheck s)) = (new ++ history s)%list /\
               forall url, Forall (dialsTo url) new).
Proof.
  unfold exitCheck. destruct (0 <? exitChan (client s))%nat; cbn.
  - split; [repeat split|]. split; [reflexivity|].
    exists [EvExitReceived]. split; [reflexivity|]. intros url. repeat constructor.
  - split; [repeat split|]. split; [reflexivity|].
    exists []. split; [reflexivity|]. intros url. constructor.
Qed.

(** One iteration keeps the configuration and dials DestURL, whatever
    becomes of its session; when it comes back, Connected is false after a
    session and untouched after a failed dial. *)
Lemma dialAndServe_step (it : Iteration) (s : State) :
  sameConfiguration (client s) (client (reached (dialAndServe it s))) /\
  (exists new,
     history (reached (dialAndServe it s)) =
       (new ++ EvDial (DestURL (client s)) (dialSucceeded it) :: history s)%list /\
     Forall (dialsTo (DestURL (client s))) new) /\
  (forall c s', dialAndServe it s = inr (c, s') ->
     Connected (client s) = false -> Connected (client s') = false).
Proof.
  unfold dialAndServe, dialSucceeded.
  destruct (dial_err (dialResult it)) as [err|].
  - match goal with
    | |- context [exitCheck ?x] =>
        pose proof (exitCheck_step x) as Hx; destruct (exitCheck x) as [c0 s0]
    end.
    cbn in Hx. destruct Hx as (Hcfg & Hcon & new & Hh & Hall). cbn [reached].
    split; [exact Hcfg|]. split.
    + exists new. split; [exact Hh | apply Hall].
    + intros c s' H Hf. inversion H; subst. rewrite Hcon. exact Hf.
  - destruct (dial_ws (dialResult it)) as [w|].
    + destruct (pumpResult it) as [eff|p|code|].
      * match goal with
        | |- context [exitCheck ?x] =>
            pose proof (exitCheck_step x) as Hx; destruct (exitCheck x) as [c0 s0]
        end.
        cbn in Hx. destruct Hx as (Hcfg & Hcon & new & Hh & Hall). cbn [reached].
        split; [exact Hcfg|]. split.
        -- eexists (new ++ [_; _])%list. split.
           ++ rewrite Hh, <- app_assoc. reflexivity.
           ++ apply Forall_app. split; [apply Hall | repeat constructor].
        -- intros c s' H _. inversion H; subst. exact Hcon.
      * cbn. split; [repeat split|]. split; [|discriminate].
        eexists [_; _]. split; [reflexivity | repeat constructor].
      * cbn. split; [repeat split|]. split; [|discriminate].
        eexists [_; _]. split; [reflexivity | repeat constructor].
      * cbn. split; [repeat split|]. split; [|discriminate].
        eexists [_; _]. split; [reflexivity | repeat constructor].
    + cbn. split; [repeat split|]. split; [|discriminate].
      exists []. split; [reflexivity | constructor].
Qed.

Lemma sessionLoop_step (its : list Iteration) : forall (s : State) (url : string),
  DestURL (client s) = url ->
  Forall (dialsTo url) (history s) ->
  sameConfiguration (client s) (client (snd (sessionLoop its s))) /\
  Forall (dialsTo url) (history (snd (sessionLoop its s))) /\
  (forall how, fst (sessionLoop its s) = Ended how ->
     Connected (client s) = false ->
     Connected (client (snd (sessionLoop its s))) = false).
Proof.
  induction its as [|it rest IH]; intros s url Hurl Hall; rewrite sessionLoop_eq;
    destruct (retryOnFailCount (client s) =? maxRetryAttempts)%Z; cbn [fst snd];
    try (split; [apply sameConfiguration_refl | split; [exact Hall | tauto]]).
  destruct (dialAndServe_step it s) as (Hcfg & (new & Hh & Hnew) & Hcon).
  pose proof (dialAndServe_crash_or_next it s) as Hc.
  assert (Hall1 : Forall (dialsTo url) (history (reached (dialAndServe it s)))).
  { rewrite Hh. apply Forall_app. split; [rewrite <- Hurl; exact Hnew|].
    constructor; [exact Hurl | exact Hall]. }
  destruct (dialAndServe it s) as [[e s1]|[c s1]]; cbn [reached] in *; cbn [fst snd].
  - split; [exact Hcfg|]. split; [exact Hall1|].
    intros how H. exfalso. exact (Hc _ H).
  - subst c.
    assert (Hurl1 : DestURL (client s1) = url).
    { destruct Hcfg as (_ & _ & H3 & _). rewrite H3. exact Hurl. }
    destruct (IH s1 url Hurl1 Hall1) as (Hcfg2 & Hall2 & Hcon2).
    split; [eapply sameConfiguration_trans; eassumption|].
    split; [exact Hall2|]. intros how H Hf. apply (Hcon2 how H).
    exact (Hcon _ _ eq_refl Hf).
Qed.

(** What the loop has recorded stays on record. *)
Lemma sessionLoop_grows (its : list Iteration) : forall s : State,
  exists new, history (snd (sessionLoop its s)) = (new ++ history s)%list.
Proof.
  induction its as [|it rest IH]; intros s; rewrite sessionLoop_eq;
    destruct (retryOnFailCount (client s) =? maxRetryAttempts)%Z; cbn [fst snd];
    try (exists []; reflexivity).
  destruct (dialAndServe_step it s) as (_ & (new & Hh & _) & _).
  pose proof (dialAndServe_crash_or_next it s) as Hc.
  destruct (dialAndServe it s) as [[e s1]|[c s1]]; cbn [reached] in *; cbn [fst snd].
  - eexists (new ++ [_])%list. rewrite Hh, <- app_assoc. reflexivity.
  - subst c. destruct (IH s1) as (new1 & H1).
    eexists (new1 ++ new ++ [_])%list. rewrite H1, Hh, <- !app_assoc. reflexivity.
Qed.

(** The loop begins with the dial of its first iteration. *)
Lemma startSession_first_dial (t : WSTunnelClient) (it : Iteration) (its : list Iteration) :
  exists new,
    history (snd (startSession t (it :: its))) =
      (new ++ [EvDial (DestURL t) (dialSucceeded it)])%list.
Proof.
  unfold startSession. rewrite sessionLoop_eq. cbn [client set_retryOnFailCount retryOnFailCount].
  cbn [Z.eqb maxRetryAttempts].
  match goal with
  | |- context [dialAndServe it ?s0] =>
      destruct (dialAndServe_step it s0) as (_ & (new & Hh & _) & _);
      pose proof (dialAndServe_crash_or_next it s0) as Hc;
      destruct (dialAndServe it s0) as [[e s1]|[c s1]]
  end; cbn [reached] in *; cbn [fst snd].
  - exists new. exact Hh.
  - subst c. destruct (sessionLoop_grows its s1) as (new1 & H1).
    exists (new1 ++ new)%list. rewrite H1, Hh, <- app_assoc. reflexivity.
Qed.

(** Failed dials only: the count goes up to the ceiling and the loop is
    left. *)
Lemma failing_dials_reach_ceiling (its : list Iteration) : forall (s : State),
  Forall dialFails its ->
  (0 <= retryOnFailCount (client s) <= maxRetryAttempts)%Z ->
  (Z.to_nat (maxRetryAttempts - retryOnFailCount (client s)) <= List.length its)%nat ->
  fst (sessionLoop its s) = Ended LoopLeft /\
  dials (history (snd (sessionLoop its s))) =
    (repeat false (Z.to_nat (maxRetryAttempts - retryOnFailCount (client s))) ++
     dials (history s))%list.
Proof.
  unfold maxRetryAttempts.
  induction its as [|it rest IH]; intros s Hall Hr Hlen; rewrite sessionLoop_eq;
    unfold maxRetryAttempts;
    destruct (Z.eqb_spec (retryOnFailCount (client s)) 50) as [Heq|Hne]; cbn [fst snd];
    try (rewrite Heq; split; reflexivity).
  - cbn [List.length] in Hlen. lia.
  - inversion Hall as [|it' rest' Hfail Hrest]; subst.
    destruct (@dialAndServe_failed it s Hfail) as (s0 & -> & Hr0 & Hdials & _).
    destruct (IH s0) as [Hfst Hdl].
    + exact Hrest.
    + rewrite Hr0. lia.
    + rewrite Hr0. cbn [List.length] in Hlen. lia.
    + split; [exact Hfst|]. rewrite Hdl, Hdials, Hr0.
      replace (Z.to_nat (50 - retryOnFailCount (client s)))
        with (S (Z.to_nat (50 - (retryOnFailCount (client s) + 1)))) by lia.
      cbn [repeat]. rewrite repeat_app_cons. reflexivity.
Qed.

End MoreSessionFacts.

(** X2: a client of the factory whose TestConnection returned an error
    has no dialer and an empty DestURL.  Started all the same, the dial
    loop does not panic at its dial: it dials the empty URL, and when these
    dials fail it gives up after 50 of them. *)
Theorem Start_after_failed_test_dials_empty_url :
  forall GetTlsConfig Dial serverName localRelay proxy addr t' e its,
    Bootstrap.TestConnection GetTlsConfig Dial
      (InitializeTunnelClient serverName localRelay) proxy addr = Done (t', Some e) ->
    Forall dialFails its ->
    (50 <= List.length its)%nat ->
    TheDialer t' = None /\ DestURL t' = ""%string /\
    fst (Session.startSession t' its) = Session.Ended LoopLeft /\
    Session.dials (Session.history (snd (Session.startSession t' its))) = repeat false 50 /\
    Forall (dialsTo ""%string) (Session.history (snd (Session.startSession t' its))).
Proof.
  intros GetTlsConfig Dial serverName localRelay proxy addr t' e its H Hall Hlen.
  destruct (TestConnection_frame _ _ _ _ _ H) as [_ Hd].
  destruct (Hd ltac:(discriminate)) as [H1 H2]. cbn in H1, H2.
  split; [exact H2|]. split; [exact H1|].
  unfold Session.startSession.
  set (s0 := {| Session.client :=
                  set_retryOnFailCount (set_requestSentChan (set_exitChan t' 0) 0) 0;
                Session.history := [] |}).
  destruct (@failing_dials_reach_ceiling its s0 Hall) as [Hfst Hdl].
  - cbn. unfold maxRetryAttempts. lia.
  - cbn. exact Hlen.
  - split; [exact Hfst|]. split; [rewrite Hdl; cbn; reflexivity|].
    destruct (@sessionLoop_step its s0 ""%string) as (_ & Hto & _).
    + cbn. exact H1.
    + constructor.
    + exact Hto.
Qed.

Lemma Start_after_failed_test_dials_empty_url_witness :
  exists t',
    Bootstrap.TestConnection tlsOK (pingAnswers (httpAnswer 503))
      (InitializeTunnelClient "h" "127.0.0.1:8080") None ""%string =
      Done (t', Some ErrBadHandshake) /\
    fst (Session.startSession t' (repeat refusedIteration 60)) = Session.Ended LoopLeft /\
    Session.dials (Session.history (snd (Session.startSession t' (repeat refusedIteration 60)))) =
      repeat false 50.
Proof.
  eexists. split; [vm_compute; reflexivity|].
  destruct (@Start_after_failed_test_dials_empty_url tlsOK (pingAnswers (httpAnswer 503))
              "h"%string "127.0.0.1:8080"%string None ""%string _ _
              (repeat refusedIteration 60) eq_refl) as (_ & _ & Hleft & Hdials & _).
  - apply Forall_forall. intros it Hin. apply repeat_spec in Hin. subst it. discriminate.
  - rewrite repeat_length. repeat constructor.
  - split; [exact Hleft | exact Hdials].
Defined.

(** X3: when the ping end point completes the upgrade (no dial error, a
    status other than 200), TestConnection returns nil without setting
    DestURL or the dialer; the dial loop started afterwards begins with a
    dial of the empty URL, and dials nothing else. *)
Theorem TestConnection_nil_without_dialer :
  forall GetTlsConfig Dial serverName localRelay proxy addr tls resp,
    localRelay <> ""%string ->
    GetTlsConfig serverName = (tls, None) ->
    (forall d url, dial_resp (Dial d url) = Some resp /\ dial_err (Dial d url) = None) ->
    StatusCode resp <> 200%Z ->
    exists t',
      Bootstrap.TestConnection GetTlsConfig Dial
        (InitializeTunnelClient serverName localRelay) proxy addr = Done (t', None) /\
      DestURL t' = ""%string /\ TheDialer t' = None /\
      forall it its,
        (exists new,
           Session.history (snd (Session.startSession t' (it :: its))) =
             (new ++ [Session.EvDial ""%string (Session.dialSucceeded it)])%list) /\
        Forall (dialsTo ""%string) (Session.history (snd (Session.startSession t' (it :: its)))).
Proof.
  intros GetTlsConfig Dial serverName localRelay proxy addr tls resp Hl Htls Hd Hs.
  destruct (factory_passes_tunnel_checks serverName localRelay) as [Ht Hp].
  pose proof (@TestConnection_with_response GetTlsConfig Dial
                (InitializeTunnelClient serverName localRelay) proxy addr tls resp
                Ht (or_intror Hp) Hl Htls (proj1 (Hd _ _))) as H.
  cbv zeta in H.
  destruct (Z.eqb_spec (StatusCode resp) 200) as [Heq|_]; [contradiction|].
  rewrite (proj2 (Hd _ _)) in H.
  eexists. split; [exact H|]. split; [reflexivity|]. split; [reflexivity|].
  intros it its. split.
  - exact (startSession_first_dial _ it its).
  - unfold Session.startSession.
    match goal with
    | |- context [Session.sessionLoop _ ?s0] =>
        destruct (@sessionLoop_step (it :: its) s0 ""%string eq_refl ltac:(constructor))
          as (_ & Hto & _)
    end.
    exact Hto.
Qed.

Lemma TestConnection_nil_without_dialer_witness :
  exists t',
    Bootstrap.TestConnection tlsOK (pingAnswers (upgraded 7%nat))
      (InitializeTunnelClient "h" "127.0.0.1:8080") None ""%string = Done (t', None) /\
    DestURL t' = ""%string /\ TheDialer t' = None /\
    forall it its,
      (exists new,
         Session.history (snd (Session.startSession t' (it :: its))) =
           (new ++ [Session.EvDial ""%string (Session.dialSucceeded it)])%list) /\
      Forall (dialsTo ""%string) (Session.history (snd (Session.startSession t' (it :: its)))).
Proof.
  apply (@TestConnection_nil_without_dialer tlsOK (pingAnswers (upgraded 7%nat))
           "h"%string "127.0.0.1:8080"%string None ""%string 0%nat
           {| StatusCode := 101; Status := "101 Switching Protocols"%string; Body := [] |}).
  - discriminate.
  - reflexivity.
  - intros d url. split; reflexivity.
  - discriminate.
Defined.

(** X21: when the backend refuses every dial, the dial loop makes exactly
    50 dials and is left: for any 50 or more iterations whose dial fails,
    started on a client with a dialer, the record holds 50 failed dials and
    nothing after them. *)
Theorem gives_up_after_fifty_failed_dials :
  forall (t : WSTunnelClient) (its : list Session.Iteration),
    TheDialer t <> None ->
    Forall dialFails its ->
    (50 <= List.length its)%nat ->
    fst (Session.startSession t its) = Session.Ended LoopLeft /\
    Session.dials (Session.history (snd (Session.startSession t its))) = repeat false 50.
Proof.
  intros t its Hd Hall Hlen. unfold Session.startSession.
  destruct (@failing_dials_reach_ceiling its
              {| Session.client :=
                   set_retryOnFailCount (set_requestSentChan (set_exitChan t 0) 0) 0;
                 Session.history := [] |} Hall) as [Hfst Hdl].
  - cbn. unfold maxRetryAttempts. lia.
  - cbn. exact Hlen.
  - split; [exact Hfst|]. rewrite Hdl. cbn. reflexivity.
Qed.

Lemma gives_up_after_fifty_failed_dials_witness :
  fst (Session.startSession testedClient (repeat refusedIteration 60)) =
    Session.Ended LoopLeft /\
  Session.dials
    (Session.history (snd (Session.startSession testedClient (repeat refusedIteration 60)))) =
    repeat false 50.
Proof.
  apply (@gives_up_after_fifty_failed_dials testedClient (repeat refusedIteration 60)).
  - discriminate.
  - apply Forall_forall. intros it Hin. apply repeat_spec in Hin. subst it. discriminate.
  - rewrite repeat_length. repeat constructor.
Defined.

(** X22: the dial loop never changes the configuration of the client
    (server name, tunnel, DestURL, local relay, timeout, dialer); every dial
    it makes goes to DestURL; every start of the pump comes directly after
    the read limit of 100 MiB was set on the WebSocket it is started with;
    and while the sessions come back and the ceiling is not reached, the
    dials on record are those of the run and the read limits set are 100 MiB
    on each WebSocket that these dials returned, in their order. *)
Theorem dial_loop_keeps_configuration :
  forall (t : WSTunnelClient) (its : list Session.Iteration),
    let s := snd (Session.startSession t its) in
    sameConfiguration t (Session.client s) /\
    Forall (dialsTo (DestURL t)) (Session.history s) /\
    Session.startsFollowDials (Session.history s) /\
    (Forall Session.completes its -> Session.belowCeiling its ->
     Session.dials (Session.history s) = Session.outcomes its /\
     Session.readLimits (Session.history s) =
       rev (map (fun c => (c, (100 * 1024 * 1024)%Z)) (Session.websockets its))).
Proof.
  intros t its s. subst s. unfold Session.startSession.
  set (s0 := {| Session.client :=
                  set_retryOnFailCount (set_requestSentChan (set_exitChan t 0) 0) 0;
                Session.history := [] |}).
  destruct (@sessionLoop_step its s0 (DestURL t) eq_refl ltac:(constructor))
    as (Hcfg & Hall & _).
  destruct (@sessionLoop_invariant its s0 (startSession_invariant t))
    as [(_ & _ & Hfollow) _].
  split; [|split; [exact Hall | split; [exact Hfollow|]]].
  - eapply sameConfiguration_trans; [|exact Hcfg]. repeat split.
  - intros Hc Hbelow.
    destruct (@sessionLoop_follows_inputs its s0 eq_refl eq_refl Hc)
      as (_ & Hd & _ & _ & Hl).
    { intros k Hk. apply Hbelow. lia. }
    split; assumption.
Qed.

(** A refused dial and two sessions: DestURL is dialled three times, and
    the read limit of 100 MiB is set twice, on WebSocket 7. *)
Lemma dial_loop_keeps_configuration_witness :
  let its := [refusedIteration; servedIteration; servedIteration] in
  let s := snd (Session.startSession testedClient its) in
  DestURL (Session.client s) = DestURL testedClient /\
  Forall (dialsTo (DestURL testedClient)) (Session.history s) /\
  Session.dials (Session.history s) = [true; true; false] /\
  Session.readLimits (Session.history s) = [(7%nat, 104857600%Z); (7%nat, 104857600%Z)].
Proof.
  intros its s.
  destruct (dial_loop_keeps_configuration testedClient its) as (Hcfg & Hall & _ & Hin).
  destruct Hin as (Hd & Hl).
  - apply completesb_sound. vm_compute. reflexivity.
  - apply belowCeilingBeforeb_sound. vm_compute. reflexivity.
  - split; [apply Hcfg|]. split; [exact Hall|]. split; [exact Hd | exact Hl].
Defined.

(** X23: between sessions Connected is false: when the client was not
    connected at the start, it is not connected whenever the loop is at the
    top of an iteration or has been left. *)
Theorem not_connected_between_sessions :
  forall (t : WSTunnelClient) (its : list Session.Iteration) (how : loopEnd),
    Connected t = false ->
    fst (Session.startSession t its) = Session.Ended how ->
    Connected (Session.client (snd (Session.startSession t its))) = false.
Proof.
  intros t its how Hc Hend. unfold Session.startSession in *.
  destruct (@sessionLoop_step its
              {| Session.client :=
                   set_retryOnFailCount (set_requestSentChan (set_exitChan t 0) 0) 0;
                 Session.history := [] |} (DestURL t) eq_refl ltac:(constructor))
    as (_ & _ & Hcon).
  exact (Hcon how Hend Hc).
Qed.

Lemma not_connected_between_sessions_witness :
  Connected
    (Session.client
       (snd (Session.startSession testedClient
               [refusedIteration; servedIteration; servedIteration]))) = false.
Proof.
  apply (@not_connected_between_sessions testedClient
           [refusedIteration; servedIteration; servedIteration] StillLooping).
  - reflexivity.
  - vm_compute. reflexivity.
Defined.

